(** * PID optimizer ([scripts/pid_optimizer.py]): evaluator, tracker and run loop

    A shallow embedding of [PIDOptimizer].  Python floats are read as real
    numbers ([R]): rounding, overflow and NaN are outside the model.  The
    LinuxCNC bindings ([hal], [linuxcnc.stat], [linuxcnc.command]) and the
    clock ([time]) are an explicit collaborator, a record of operations over a
    world state that every method threads through.  The two polling loops
    carry a fuel argument; the termination results show how much fuel the
    deadlines make sufficient. *)

From Stdlib Require Import Reals Lra Lia String List Bool Arith Permutation.
Import ListNotations.
Open Scope R_scope.

(** ** Decisions on reals, as the booleans the Python conditions produce *)

Definition Rltb (a b : R) : bool := if Rlt_dec a b then true else false.
Definition Rgtb (a b : R) : bool := Rltb b a.
Definition Rneqb (a b : R) : bool := if Req_dec_T a b then false else true.

(** ** numpy operations used by [evaluate] *)

Module np.

(** [np.sign]: -1, 0 or 1. *)
Definition sign (x : R) : R :=
  if Rltb x 0 then -1 else if Rltb 0 x then 1 else 0.

(** [np.diff]: [out[i] = a[i+1] - a[i]]. *)
Fixpoint diff (a : list R) : list R :=
  match a with
  | x :: (y :: _) as rest => (y - x) :: diff rest
  | _ => []
  end.

(** [np.sum] over a float array. *)
Definition sum (a : list R) : R := fold_right Rplus 0 a.

(** [np.sum(b)] over a boolean array: the number of [True] entries. *)
Definition count (b : list bool) : nat := length (filter (fun x => x) b).

(** [np.mean]. *)
Definition mean (a : list R) : R := sum a / INR (length a).

(** [a ** 2], elementwise. *)
Definition square (a : list R) : list R := map (fun x => x * x) a.

End np.

(** ** The reduction of a sample batch to a cost ([evaluate], lines 135-148) *)

Definition SENTINEL : R := 999.

Definition rms_of (errors : list R) : R := sqrt (np.mean (np.square errors)).

(** [np.sum(np.diff(np.sign(diff)) != 0)] *)
Definition sign_changes (diff : list R) : nat :=
  np.count (map (fun d => Rneqb d 0) (np.diff (map np.sign diff))).

(** The guard of the doubling: [len(errors) > 20] and
    [sign_changes > len(diff) * 0.4]. *)
Definition oscillating (errors : list R) : bool :=
  (20 <? length errors)%nat &&
  Rgtb (INR (sign_changes (np.diff errors))) (INR (length (np.diff errors)) * 0.4).

Definition batch_cost (all_errors : list R) : R :=
  match all_errors with
  | [] => SENTINEL
  | _ =>
      let rms := rms_of all_errors in
      if oscillating all_errors then rms * 2 else rms
  end.

(** ** Parameter sets and bounds *)

(** The dict keys ['P'], ['I'], ['D'], ['FF1'], ['FF2']. *)
Inductive pname : Type := KP | KI | KD | KFF1 | KFF2.

Definition pname_eqb (a b : pname) : bool :=
  match a, b with
  | KP, KP | KI, KI | KD, KD | KFF1, KFF1 | KFF2, KFF2 => true
  | _, _ => false
  end.

(** A parameter dict holding the five keys. *)
Definition ParameterSet : Type := pname -> R.

(** [params[name] = value] *)
Definition dict_set (params : ParameterSet) (name : pname) (value : R) : ParameterSet :=
  fun k => if pname_eqb k name then value else params k.

(** [self.bounds] *)
Definition bounds (name : pname) : R * R :=
  match name with
  | KP => (50, 200)
  | KI => (10, 150)
  | KD => (0, 0.01)
  | KFF1 => (0.8, 1.1)
  | KFF2 => (0, 0.001)
  end.

Definition in_bound (name : pname) (v : R) : Prop :=
  fst (bounds name) <= v <= snd (bounds name).

Definition within_bounds (params : ParameterSet) : Prop :=
  forall name, in_bound name (params name).

(** ** The instance attributes of [PIDOptimizer] *)

Record PIDOptimizer : Type := mkOptimizer {
  test_distance : R;
  test_feed : R;
  eval_count : nat;
  best_rms : R;
  best_params : option ParameterSet   (* [None] is the empty dict [{}] *)
}.

(** [__init__] *)
Definition init : PIDOptimizer :=
  {| test_distance := 15; test_feed := 10000;
     eval_count := 0; best_rms := 999; best_params := None |}.

(** ** The collaborator: [hal], [linuxcnc.stat], [linuxcnc.command], [time] *)

(** What a call into the HAL bindings does: return a value or raise. *)
Inductive outcome (A : Type) : Type :=
| Returns (a : A)
| Raises.
Arguments Returns {A} a.
Arguments Raises {A}.

Inductive interp_state : Type :=
| INTERP_IDLE | INTERP_READING | INTERP_PAUSED | INTERP_WAITING.

Inductive task_mode : Type := MODE_MANUAL | MODE_AUTO | MODE_MDI.

Definition is_idle (s : interp_state) : bool :=
  match s with INTERP_IDLE => true | _ => false end.

Definition is_mdi (m : task_mode) : bool :=
  match m with MODE_MDI => true | _ => false end.

(** The nearest integer, a tie going to the even one. *)
Definition round_half_even (x : R) : Z :=
  let f := Int_part x in
  let d := x - IZR f in
  if Rltb d (1 / 2) then f
  else if Rltb (1 / 2) d then (f + 1)%Z
  else if Z.even f then f else (f + 1)%Z.

(** The number the format [:.3f] prints: the value rounded to three
    decimals, ties to even. *)
Definition format_3f (x : R) : R := IZR (round_half_even (x * 1000)) / 1000.

(** The MDI line [G1 X... Y... F...], by the numbers it spells out. *)
Record gcode : Type := G1 { g_x : R; g_y : R; g_feed : R }.

(** The path [save_to_hal] writes to. *)
Definition hal_file : string := "/home/cnc/linuxcnc/configs/Ma_CNC/pid_tuning.hal".

(** The operations the optimizer calls, over a world state [W].  The clock is
    read without changing the world; time passes inside the other calls.  The
    attributes of [stat] are those of the last [poll].  [file_write] is
    [open(path, 'w')] followed by the write of the tuning file for a cost and
    a parameter set (its text and time stamp are not modelled); it returns or
    raises [OSError].  Calls on [stat], [command] and [time] are taken to
    return. *)
Record Machine (W : Type) : Type := mkMachine {
  time_time : W -> R;
  time_sleep : R -> W -> W;
  hal_get_value : string -> W -> outcome R * W;
  hal_set_p : string -> R -> W -> outcome unit * W;
  stat_poll : W -> W;
  stat_interp_state : W -> interp_state;
  stat_task_mode : W -> task_mode;
  stat_actual_position : W -> R * R;
  cmd_mode : task_mode -> W -> W;
  cmd_wait_complete : W -> W;
  cmd_mdi : gcode -> W -> W;
  file_write : string -> R -> ParameterSet -> W -> outcome unit * W
}.
Arguments time_time {W} _ _.
Arguments time_sleep {W} _ _ _.
Arguments hal_get_value {W} _ _ _.
Arguments hal_set_p {W} _ _ _ _.
Arguments stat_poll {W} _ _.
Arguments stat_interp_state {W} _ _.
Arguments stat_task_mode {W} _ _.
Arguments stat_actual_position {W} _ _.
Arguments cmd_mode {W} _ _ _.
Arguments cmd_wait_complete {W} _ _.
Arguments cmd_mdi {W} _ _ _.
Arguments file_write {W} _ _ _ _ _.

(** What the clock is assumed to do: it never runs backwards across a poll or
    a pin read, and a sleep lasts at least as long as asked. *)
Record ClockLaws {W : Type} (M : Machine W) : Prop := mkClockLaws {
  sleep_advances : forall d w, time_time M w + d <= time_time M (time_sleep M d w);
  poll_monotone : forall w, time_time M w <= time_time M (stat_poll M w);
  read_monotone : forall name w,
      time_time M w <= time_time M (snd (hal_get_value M name w))
}.

(** Bind for the results of the fuelled loops: [None] is fuel exhausted. *)
Definition obind {A B : Type} (m : option A) (k : A -> option B) : option B :=
  match m with Some a => k a | None => None end.

Notation "'let?' p ':=' m 'in' k" := (obind m (fun p => k))
  (at level 10, p pattern, m at level 100, k at level 200).

(** ** Telemetry port, motion driver, sampler and evaluator *)

Section Evaluator.

Context {W : Type} (M : Machine W).

(** [getp]: the bare [except] turns every failure into [0]. *)
Definition getp (name : string) (w : W) : R * W :=
  let (r, w) := hal_get_value M name w in
  (match r with Returns v => v | Raises => 0 end, w).

(** [setp]: the success flag. *)
Definition setp (name : string) (value : R) (w : W) : bool * W :=
  let (r, w) := hal_set_p M name value w in
  (match r with Returns _ => true | Raises => false end, w).

Definition get_current_params (w : W) : ParameterSet * W :=
  let (vP, w) := getp "pid.x.Pgain" w in
  let (vI, w) := getp "pid.x.Igain" w in
  let (vD, w) := getp "pid.x.Dgain" w in
  let (vFF1, w) := getp "pid.x.FF1" w in
  let (vFF2, w) := getp "pid.x.FF2" w in
  (fun k => match k with
            | KP => vP | KI => vI | KD => vD | KFF1 => vFF1 | KFF2 => vFF2
            end, w).

(** The body of the [for axis] loop of [apply_params]. *)
Definition apply_axis (params : ParameterSet) (w : W) (axis : string) : W :=
  let w := snd (setp ("pid." ++ axis ++ ".Pgain") (params KP) w) in
  let w := snd (setp ("pid." ++ axis ++ ".Igain") (params KI) w) in
  let w := snd (setp ("pid." ++ axis ++ ".Dgain") (params KD) w) in
  let w := snd (setp ("pid." ++ axis ++ ".FF1") (params KFF1) w) in
  let w := snd (setp ("pid." ++ axis ++ ".FF2") (params KFF2) w) in
  w.

Definition apply_params (params : ParameterSet) (w : W) : W :=
  fold_left (apply_axis params) ["x"; "y"]%string w.

Definition get_position (w : W) : (R * R) * W :=
  let w := stat_poll M w in
  (stat_actual_position M w, w).

(** The [while] loop of [wait_ready]. *)
Fixpoint wait_ready_loop (fuel : nat) (start timeout : R) (w : W) : option (bool * W) :=
  match fuel with
  | O => None
  | S fuel =>
      if Rltb (time_time M w - start) timeout then
        let w := stat_poll M w in
        if is_idle (stat_interp_state M w) then Some (true, w)
        else wait_ready_loop fuel start timeout (time_sleep M 0.05 w)
      else Some (false, w)
  end.

Definition wait_ready (fuel : nat) (timeout : R) (w : W) : option (bool * W) :=
  let start := time_time M w in
  wait_ready_loop fuel start timeout w.

Definition run_move (self : PIDOptimizer) (x y : R) (w : W) : bool * W :=
  let w := stat_poll M w in
  let w := if is_mdi (stat_task_mode M w) then w
           else cmd_wait_complete M (cmd_mode M MODE_MDI w) in
  let gcode := G1 (format_3f x) (format_3f y) (test_feed self) in
  let w := cmd_mdi M gcode w in
  (true, w).

(** One pass through the body of the [while] loop of [collect_during_move],
    up to the [break] test: the batch so far, whether to [break], the world. *)
Definition collect_step (errors : list R) (w : W) : (list R * bool) * W :=
  let w := stat_poll M w in
  let state := stat_interp_state M w in
  let (ex, w) := getp "pid.x.error" w in
  let err_x := ex * 1000 in
  let (ey, w) := getp "pid.y.error" w in
  let err_y := ey * 1000 in
  let (ox, w) := getp "pid.x.output" w in
  let (oy, w) := getp "pid.y.output" w in
  let vel := Rabs ox + Rabs oy in
  let errors :=
    if Rgtb vel 5 then errors ++ [Rmax (Rabs err_x) (Rabs err_y)] else errors in
  ((errors, is_idle state && Rltb vel 1), w).

(** The [while] loop of [collect_during_move]. *)
Fixpoint collect_loop (fuel : nat) (start timeout : R) (errors : list R) (w : W)
  : option (list R * W) :=
  match fuel with
  | O => None
  | S fuel =>
      if Rltb (time_time M w - start) timeout then
        let '((errors, stop), w) := collect_step errors w in
        if stop then Some (errors, w)
        else collect_loop fuel start timeout errors (time_sleep M 0.002 w)
      else Some (errors, w)
  end.

(** The deadline of one motion leg. *)
Definition leg_timeout (self : PIDOptimizer) : R :=
  (test_distance self * 1.5 / (test_feed self / 60)) + 0.5.

Definition collect_during_move (self : PIDOptimizer) (fuel : nat)
  (target_x target_y : R) (w : W) : option (list R * W) :=
  let errors := [] in
  let w := snd (run_move self target_x target_y w) in
  let w := time_sleep M 0.01 w in
  let start := time_time M w in
  let timeout := leg_timeout self in
  let? (errors, w) := collect_loop fuel start timeout errors w in
  let? (_, w) := wait_ready fuel 10 w in
  Some (errors, w).

(** [evaluate], lines 123-133: apply, read the origin, run the two legs and
    concatenate their batches. *)
Definition sample_legs (self : PIDOptimizer) (fuel : nat)
  (params_dict : ParameterSet) (w : W) : option (list R * W) :=
  let w := apply_params params_dict w in
  let '((x0, y0), w) := get_position w in
  let all_errors := [] in
  let? (ex, w) := collect_during_move self fuel
                  (x0 + test_distance self) (y0 + test_distance self) w in
  let all_errors := all_errors ++ ex in
  let? (ex, w) := collect_during_move self fuel x0 y0 w in
  let all_errors := all_errors ++ ex in
  Some (all_errors, w).

Definition evaluate (self : PIDOptimizer) (fuel : nat)
  (params_dict : ParameterSet) (w : W) : option (R * W) :=
  let? (all_errors, w) := sample_legs self fuel params_dict w in
  Some (batch_cost all_errors, w).

End Evaluator.

(** ** Result tracker, objective adapter, strategies and the run *)

(** What the program prints, one constructor per message; number formatting
    is not modelled.  [OutSaved] is the confirmation printed once the tuning
    file has been written. *)
Inductive output : Type :=
| OutBanner
| OutCurrent (params : ParameterSet)
| OutBaseline (rms : R)
| OutMenu
| OutNelderMead (param_names : list pname) (x0 : list R)
| OutDE (param_names : list pname)
| OutPhase (n : nat)
| OutProgress (count : nat) (param_names : list pname) (x : list R) (rms best : R)
| OutInvalidChoice
| OutComplete (params : option ParameterSet) (rms baseline : R)
| OutSaved (params : ParameterSet) (rms : R)
| OutDone
| OutInterrupted
| OutError.

(** The optimizer object, the world and the console so far. *)
Record Session (W : Type) : Type := mkSession {
  opt : PIDOptimizer;
  world : W;
  console : list output
}.
Arguments mkSession {W} _ _ _.
Arguments opt {W} _.
Arguments world {W} _.
Arguments console {W} _.

(** How a call above the evaluator ends. *)
Inductive py (A : Type) : Type :=
| Normal (a : A)
| KeyboardInterrupt
| Exception.
Arguments Normal {A} a.
Arguments KeyboardInterrupt {A}.
Arguments Exception {A}.

Definition Prog (W A : Type) : Type := Session W -> option (py A * Session W).

Definition pret {W A : Type} (a : A) : Prog W A := fun s => Some (Normal a, s).

Definition pbind {W A B : Type} (m : Prog W A) (k : A -> Prog W B) : Prog W B :=
  fun s =>
    match m s with
    | None => None
    | Some (Normal a, s) => k a s
    | Some (KeyboardInterrupt, s) => Some (KeyboardInterrupt, s)
    | Some (Exception, s) => Some (Exception, s)
    end.

Notation "'let!' p ':=' m 'in' k" := (pbind m (fun p => k))
  (at level 10, p pattern, m at level 100, k at level 200).

Definition print {W : Type} (line : output) : Prog W unit :=
  fun s => Some (Normal tt, mkSession (opt s) (world s) (console s ++ [line])).

Definition raise {W A : Type} : Prog W A := fun s => Some (Exception, s).

(** The library optimizers, seen from their caller: given the points tried so
    far and their costs, the library calls the objective at a new point,
    returns, or the operator's interrupt is raised inside it. *)
Inductive solver_step : Type :=
| Ask (x : list R)
| Finish
| Interrupt.

Definition solver : Type := list (list R * R) -> solver_step.

(** [scipy.optimize]: [minimize(..., x0, method='Nelder-Mead', ...)],
    [differential_evolution(..., bounds, ...)], and the number of objective
    calls their iteration limits allow. *)
Record Scipy : Type := mkScipy {
  minimize : list R -> solver;
  differential_evolution : list (R * R) -> solver;
  max_calls : nat
}.

(** Lines 157-161 of [objective]: count the call, keep the best. *)
Definition track (self : PIDOptimizer) (params : ParameterSet) (rms : R) : PIDOptimizer :=
  let count := S (eval_count self) in
  if Rltb rms (best_rms self) then
    mkOptimizer (test_distance self) (test_feed self) count rms (Some params)
  else
    mkOptimizer (test_distance self) (test_feed self) count (best_rms self) (best_params self).

(** The start of both [optimize_*] methods: [eval_count = 0; best_rms = 999]. *)
Definition reset (self : PIDOptimizer) : PIDOptimizer :=
  mkOptimizer (test_distance self) (test_feed self) 0 999 (best_params self).

Section Run.

Context {W : Type} (M : Machine W) (scipy : Scipy) (fuel : nat).

(** [objective]; scipy passes a vector as long as [param_names]. *)
Definition objective (x : list R) (param_names : list pname) (s : Session W)
  : option (R * Session W) :=
  let (params, w) := get_current_params M (world s) in
  let params :=
    fold_left (fun ps nv => dict_set ps (fst nv) (snd nv)) (combine param_names x) params in
  let? (rms, w) := evaluate M (opt s) fuel params w in
  let self := track (opt s) params rms in
  Some (rms, mkSession self w
               (console s ++ [OutProgress (eval_count self) param_names x rms (best_rms self)])).

(** The library's loop around the objective. *)
Fixpoint scipy_loop (calls : nat) (next : solver)
  (func : list R -> Session W -> option (R * Session W))
  (history : list (list R * R)) (s : Session W) : option (py unit * Session W) :=
  match calls with
  | O => Some (Normal tt, s)
  | S calls =>
      match next history with
      | Finish => Some (Normal tt, s)
      | Interrupt => Some (KeyboardInterrupt, s)
      | Ask x =>
          let? (fx, s) := func x s in
          scipy_loop calls next func (history ++ [(x, fx)]) s
      end
  end.

Definition optimize_nelder_mead (param_names : list pname)
  : Prog W (option ParameterSet * R) :=
  fun s =>
    let (current, w) := get_current_params M (world s) in
    let x0 := map current param_names in
    let bounds_list := map bounds param_names in
    let s := mkSession (reset (opt s)) w (console s ++ [OutNelderMead param_names x0]) in
    (let! _ := scipy_loop (max_calls scipy) (minimize scipy x0)
                 (fun x => objective x param_names) [] in
     fun s => Some (Normal (best_params (opt s), best_rms (opt s)), s)) s.

Definition optimize_de (param_names : list pname)
  : Prog W (option ParameterSet * R) :=
  fun s =>
    let bounds_list := map bounds param_names in
    let s := mkSession (reset (opt s)) (world s) (console s ++ [OutDE param_names]) in
    (let! _ := scipy_loop (max_calls scipy) (differential_evolution scipy bounds_list)
                 (fun x => objective x param_names) [] in
     fun s => Some (Normal (best_params (opt s), best_rms (opt s)), s)) s.

(** [save_to_hal]: an empty dict raises [KeyError] at [params['P']], while
    the text is built and before the file is opened; otherwise the file is
    written, which can raise, and the confirmation is printed. *)
Definition save_to_hal (params : option ParameterSet) (rms : R) : Prog W unit :=
  match params with
  | None => raise
  | Some p =>
      fun s =>
        let (r, w) := file_write M hal_file rms p (world s) in
        match r with
        | Returns _ => print (OutSaved p rms) (mkSession (opt s) w (console s))
        | Raises => Some (Exception, mkSession (opt s) w (console s))
        end
  end.

(** The strategy dispatch of [run]. *)
Definition dispatch (choice : string) : option (Prog W (option ParameterSet * R)) :=
  if (choice =? "1")%string then Some (optimize_nelder_mead [KP; KI; KFF1])
  else if (choice =? "2")%string then Some (optimize_de [KP; KI; KFF1])
  else if (choice =? "3")%string then
    Some (let! _ := print (OutPhase 1) in
          let! (params, rms) := optimize_de [KP; KI; KFF1] in
          let! _ := (fun s =>
                       match params with
                       | None => Some (Exception, s)
                       | Some p =>
                           Some (Normal tt,
                                 mkSession (opt s) (apply_params M p (world s)) (console s))
                       end) in
          let! _ := print (OutPhase 2) in
          optimize_nelder_mead [KP; KI; KD; KFF1; KFF2])
  else if (choice =? "4")%string then Some (optimize_nelder_mead [KP; KI])
  else if (choice =? "5")%string then Some (optimize_de [KP; KI; KD; KFF1; KFF2])
  else None.

(** [run]; [choice] and [save] are the operator's two answers, stripped (and
    lowercased for [save]). *)
Definition run (choice save : string) : Prog W unit :=
  let! _ := print OutBanner in
  let! current := (fun s =>
                     let (current, w) := get_current_params M (world s) in
                     Some (Normal current, mkSession (opt s) w (console s))) in
  let! _ := print (OutCurrent current) in
  let! baseline_rms := (fun s =>
                          let? (rms, w) := evaluate M (opt s) fuel current (world s) in
                          Some (Normal rms, mkSession (opt s) w (console s))) in
  let! _ := print (OutBaseline baseline_rms) in
  let! _ := print OutMenu in
  if (choice =? "q")%string then pret tt
  else
    match dispatch choice with
    | None => print OutInvalidChoice
    | Some strategy =>
        let! (params, rms) := strategy in
        let! _ := print (OutComplete params rms baseline_rms) in
        let! _ := (if (save =? "n")%string then pret tt else save_to_hal params rms) in
        print OutDone
    end.

(** The [__main__] block: build the optimizer, run it, catch what escapes. *)
Definition main (choice save : string) (w : W) : option (Session W) :=
  let s := mkSession init w [] in
  match run choice save s with
  | None => None
  | Some (Normal _, s) => Some s
  | Some (KeyboardInterrupt, s) =>
      Some (mkSession (opt s) (world s) (console s ++ [OutInterrupted]))
  | Some (Exception, s) =>
      Some (mkSession (opt s) (world s) (console s ++ [OutError]))
  end.

End Run.

(** ** Collaborators used to observe and to exercise the program *)

(** A machine that also remembers every [hal.set_p] call, in order. *)
Definition logged {W : Type} (M : Machine W) : Machine (W * list (string * R)) :=
  {| time_time := fun s => time_time M (fst s);
     time_sleep := fun d s => (time_sleep M d (fst s), snd s);
     hal_get_value := fun name s =>
       let (r, w) := hal_get_value M name (fst s) in (r, (w, snd s));
     hal_set_p := fun name value s =>
       let (r, w) := hal_set_p M name value (fst s) in
       (r, (w, snd s ++ [(name, value)]));
     stat_poll := fun s => (stat_poll M (fst s), snd s);
     stat_interp_state := fun s => stat_interp_state M (fst s);
     stat_task_mode := fun s => stat_task_mode M (fst s);
     stat_actual_position := fun s => stat_actual_position M (fst s);
     cmd_mode := fun m s => (cmd_mode M m (fst s), snd s);
     cmd_wait_complete := fun s => (cmd_wait_complete M (fst s), snd s);
     cmd_mdi := fun g s => (cmd_mdi M g (fst s), snd s);
     file_write := fun path rms params s =>
       let (r, w) := file_write M path rms params (fst s) in (r, (w, snd s)) |}.

(** A mocked machine whose world is the clock alone: every pin keeps one
    reading (or always fails), the interpreter state never changes, pin and
    file writes succeed, and only sleeping takes time. *)
Definition steady (pins : string -> outcome R) (state : interp_state) : Machine R :=
  {| time_time := fun t => t;
     time_sleep := fun d t => t + d;
     hal_get_value := fun name t => (pins name, t);
     hal_set_p := fun _ _ t => (Returns tt, t);
     stat_poll := fun t => t;
     stat_interp_state := fun _ => state;
     stat_task_mode := fun _ => MODE_MDI;
     stat_actual_position := fun _ => (0, 0);
     cmd_mode := fun _ t => t;
     cmd_wait_complete := fun t => t;
     cmd_mdi := fun _ t => t;
     file_write := fun _ _ _ t => (Returns tt, t) |}.

(** Pins of a machine in motion: both axes command an output of 10, the X
    following error is [err] mm and the X gains read P = 100, I = 50,
    FF1 = 1; every other pin fails to read. *)
Definition moving_pins (err : R) (name : string) : outcome R :=
  if (name =? "pid.x.error")%string then Returns err
  else if (name =? "pid.x.output")%string then Returns 10
  else if (name =? "pid.y.output")%string then Returns 10
  else if (name =? "pid.x.Pgain")%string then Returns 100
  else if (name =? "pid.x.Igain")%string then Returns 50
  else if (name =? "pid.x.FF1")%string then Returns 1
  else Raises.

(** Pins of a dead telemetry link. *)
Definition dead_pins (name : string) : outcome R := Raises.

(** A library stub that plans [planned] evaluations at the point [x] and is
    interrupted by the operator once [done] of them have completed. *)
Definition interrupted_solver (x : list R) (planned done : nat) : solver :=
  fun history =>
    if (length history <? done)%nat then Ask x
    else if (length history <? planned)%nat then Interrupt
    else Finish.

(** ** The spec's words, for comparison with the code *)

(** The Telemetry Port contract of the spec: the value read, [None] when the
    read fails. *)
Definition telemetry_get_spec {W : Type} (M : Machine W) (name : string) (w : W)
  : option R :=
  match fst (hal_get_value M name w) with
  | Returns v => Some v
  | Raises => None
  end.

Inductive sgn : Type := Neg | Zero | Pos.

Definition sgn_of (x : R) : sgn :=
  if Rltb x 0 then Neg else if Rltb 0 x then Pos else Zero.

Definition sgn_eqb (a b : sgn) : bool :=
  match a, b with
  | Neg, Neg | Zero, Zero | Pos, Pos => true
  | _, _ => false
  end.

(** The number of places where consecutive entries differ in sign. *)
Fixpoint sign_change_count (d : list R) : nat :=
  match d with
  | a :: (b :: _) as rest =>
      ((if sgn_eqb (sgn_of a) (sgn_of b) then 0 else 1) + sign_change_count rest)%nat
  | _ => 0%nat
  end.



(** The oscillation criterion: more than 20 samples, and sign changes of the
    first difference above 40% of its length. *)
Definition penalty_due (batch : list R) : Prop :=
  (20 < length batch)%nat /\
  INR (sign_change_count (np.diff batch)) > 0.4 * INR (length (np.diff batch)).

(** Every sample multiplied by [k]. *)
Definition scale (k : R) (batch : list R) : list R := map (Rmult k) batch.


(** Recording a sequence of (params, cost) pairs. *)
Definition record_all (self : PIDOptimizer) (records : list (ParameterSet * R))
  : PIDOptimizer :=
  fold_left (fun s r => track s (fst r) (snd r)) records self.

(** The least of [c] and the costs in [costs]. *)
Definition least (c : R) (costs : list R) : R := fold_left Rmin costs c.

(** The ten [hal.set_p] calls of [apply_params], in order. *)
Definition writes_of (params : ParameterSet) : list (string * R) :=
  [("pid.x.Pgain", params KP); ("pid.x.Igain", params KI); ("pid.x.Dgain", params KD);
   ("pid.x.FF1", params KFF1); ("pid.x.FF2", params KFF2);
   ("pid.y.Pgain", params KP); ("pid.y.Igain", params KI); ("pid.y.Dgain", params KD);
   ("pid.y.FF1", params KFF1); ("pid.y.FF2", params KFF2)]%string.

(** The parameter each of those ten calls carries. *)
Definition written_names : list pname :=
  [KP; KI; KD; KFF1; KFF2; KP; KI; KD; KFF1; KFF2].

(** A result of the plain machine, seen on the logging one with log [l]. *)
Definition with_log {W A : Type} (l : list (string * R)) (r : option (A * W))
  : option (A * (W * list (string * R))) :=
  match r with
  | Some (a, w) => Some (a, (w, l))
  | None => None
  end.

(** A proposal whose proportional gain is above its bound of 200. *)
Definition out_of_bounds_proposal : ParameterSet :=
  fun k => match k with KP => 500 | KI => 50 | KD => 0 | KFF1 => 1 | KFF2 => 0 end.

(** A proposal inside the bounds. *)
Definition nominal_proposal : ParameterSet :=
  fun k => match k with KP => 100 | KI => 50 | KD => 0 | KFF1 => 1 | KFF2 => 0 end.

(** The first cost of a non-empty sequence, lowered by the others. *)
Definition minimum (costs : list R) : option R :=
  match costs with
  | [] => None
  | c :: rest => Some (least c rest)
  end.

(** The costs of the spec's first scenario, recorded for one parameter set. *)
Definition five_records : list (ParameterSet * R) :=
  map (fun c => (nominal_proposal, c)) [50; 30; 45; 10; 20].

(** The console lines that report a best parameter set: the completion
    summary and the save confirmation. *)
Definition is_summary (line : output) : bool :=
  match line with
  | OutComplete _ _ _ | OutSaved _ _ => true
  | _ => false
  end.

(** A progress line reporting the evaluation recorded as [r]. *)
Definition progress_of (line : output) (r : ParameterSet * R) : Prop :=
  exists count names x best, line = OutProgress count names x (snd r) best.


(** A console without any report of a best parameter set. *)
Definition quiet (lines : list output) : Prop :=
  Forall (fun line => is_summary line = false) lines.



(** The sample one pass appends when the gate is open: the larger error
    magnitude of the two axes, in microns. *)
Definition leg_sample (err_x err_y : R) : R :=
  Rmax (Rabs (err_x * 1000)) (Rabs (err_y * 1000)).

(** Consecutive entries always differ in sign class. *)
Fixpoint always_changes (d : list R) : Prop :=
  match d with
  | a :: (b :: _) as rest => sgn_of a <> sgn_of b /\ always_changes rest
  | _ => True
  end.

(** A rising staircase of [2 * steps] samples: 0, 0, 1, 1, 2, 2, ... *)
Fixpoint staircase_from (level : R) (steps : nat) : list R :=
  match steps with
  | O => []
  | S steps => level :: level :: staircase_from (level + 1) steps
  end.

(** Pins of a machine creeping below the activity gate: a following error
    of [err] mm on X, every other pin reading 2. *)
Definition resting_pins (err : R) (name : string) : outcome R :=
  if (name =? "pid.x.error")%string then Returns err else Returns 2.

(** Pins of a machine that has come to rest: every pin reads 0. *)
Definition still_pins (name : string) : outcome R := Returns 0.

(** The X-axis pin that holds the parameter [k]. *)
Definition x_pin (k : pname) : string :=
  match k with
  | KP => "pid.x.Pgain"
  | KI => "pid.x.Igain"
  | KD => "pid.x.Dgain"
  | KFF1 => "pid.x.FF1"
  | KFF2 => "pid.x.FF2"
  end.

(** The Y-axis pin that holds the parameter [k]. *)
Definition y_pin (k : pname) : string :=
  match k with
  | KP => "pid.y.Pgain"
  | KI => "pid.y.Igain"
  | KD => "pid.y.Dgain"
  | KFF1 => "pid.y.FF1"
  | KFF2 => "pid.y.FF2"
  end.

(** The ten pins [apply_params] writes. *)
Definition gain_pins : list string :=
  ["pid.x.Pgain"; "pid.x.Igain"; "pid.x.Dgain"; "pid.x.FF1"; "pid.x.FF2";
   "pid.y.Pgain"; "pid.y.Igain"; "pid.y.Dgain"; "pid.y.FF1"; "pid.y.FF2"]%string.

(** A machine whose gain pins read back what was last written to them: a
    write to a gain pin is seen by the next read of that pin and leaves every
    other pin alone, and reads disturb nothing. *)
Record ReadsBack {W : Type} (M : Machine W) : Prop := mkReadsBack {
  read_own_write : forall name v w,
      In name gain_pins ->
      fst (hal_get_value M name (snd (hal_set_p M name v w))) = Returns v;
  read_other_write : forall name name' v w,
      In name gain_pins ->
      name <> name' ->
      fst (hal_get_value M name' (snd (hal_set_p M name v w)))
      = fst (hal_get_value M name' w);
  read_after_read : forall name name' w,
      fst (hal_get_value M name' (snd (hal_get_value M name w)))
      = fst (hal_get_value M name' w)
}.

(** The latest value stored for a pin, as a read outcome. *)
Definition stored_read (store : list (string * R)) (name : string) : outcome R :=
  match find (fun entry => (fst entry =? name)%string) store with
  | Some entry => Returns (snd entry)
  | None => Raises
  end.

(** A mocked machine that is nothing but a pin store: writes are pushed on
    the store, reads find the latest write; the clock stands still. *)
Definition stored : Machine (list (string * R)) :=
  {| time_time := fun _ => 0;
     time_sleep := fun _ store => store;
     hal_get_value := fun name store => (stored_read store name, store);
     hal_set_p := fun name value store => (Returns tt, (name, value) :: store);
     stat_poll := fun store => store;
     stat_interp_state := fun _ => INTERP_IDLE;
     stat_task_mode := fun _ => MODE_MDI;
     stat_actual_position := fun _ => (0, 0);
     cmd_mode := fun _ store => store;
     cmd_wait_complete := fun store => store;
     cmd_mdi := fun _ store => store;
     file_write := fun _ _ _ store => (Returns tt, store) |}.

(** The dict [objective] evaluates: the current values overridden by the
    vector [x] at the tuned names. *)
Definition merged (current : ParameterSet) (param_names : list pname) (x : list R)
  : ParameterSet :=
  fold_left (fun ps nv => dict_set ps (fst nv) (snd nv)) (combine param_names x) current.

(** The calls made on [linuxcnc.command]. *)
Inductive command : Type :=
| CmdMode (m : task_mode)
| CmdWaitComplete
| CmdMdi (g : gcode).

(** A machine that also remembers every call on [linuxcnc.command]. *)
Definition commanded {W : Type} (M : Machine W) : Machine (W * list command) :=
  {| time_time := fun s => time_time M (fst s);
     time_sleep := fun d s => (time_sleep M d (fst s), snd s);
     hal_get_value := fun name s =>
       let (r, w) := hal_get_value M name (fst s) in (r, (w, snd s));
     hal_set_p := fun name value s =>
       let (r, w) := hal_set_p M name value (fst s) in (r, (w, snd s));
     stat_poll := fun s => (stat_poll M (fst s), snd s);
     stat_interp_state := fun s => stat_interp_state M (fst s);
     stat_task_mode := fun s => stat_task_mode M (fst s);
     stat_actual_position := fun s => stat_actual_position M (fst s);
     cmd_mode := fun m s => (cmd_mode M m (fst s), snd s ++ [CmdMode m]);
     cmd_wait_complete := fun s => (cmd_wait_complete M (fst s), snd s ++ [CmdWaitComplete]);
     cmd_mdi := fun g s => (cmd_mdi M g (fst s), snd s ++ [CmdMdi g]);
     file_write := fun path rms params s =>
       let (r, w) := file_write M path rms params (fst s) in (r, (w, snd s)) |}.

(** A result of the plain machine, seen on the command-recording one. *)
Definition with_trace {W A : Type} (t : list command) (r : option (A * W))
  : option (A * (W * list command)) :=
  match r with
  | Some (a, w) => Some (a, (w, t))
  | None => None
  end.

(** What [run_move] sends before its MDI line: nothing when the machine is
    already in MDI mode, else the mode switch and the wait for it. *)
Definition mode_prelude (in_mdi : bool) : list command :=
  if in_mdi then [] else [CmdMode MODE_MDI; CmdWaitComplete].

(** A computation that returns, and leaves the test distance and feed (so
    the leg deadline) as [__init__] set them, from any session that has them
    so. *)
Definition keeps_running {W A : Type} (m : Prog W A) : Prop :=
  forall s,
    leg_timeout (opt s) = leg_timeout init ->
    exists out s', m s = Some (out, s') /\ leg_timeout (opt s') = leg_timeout init.

(** A console without summary, save confirmation or error message. *)
Definition plain (lines : list output) : Prop :=
  Forall (fun line => is_summary line = false /\ line <> OutError) lines.

(** What a strategy hands back to [run]: it prints nothing but headers and
    progress; a normal return is the tracker's best pair; an exception leaves
    a tracker without best parameters. *)
Definition returns_best {W : Type} (strategy : Prog W (option ParameterSet * R)) : Prop :=
  forall s out s',
    strategy s = Some (out, s') ->
    plain (console s) ->
    plain (console s') /\
    (forall bp br, out = Normal (bp, br) ->
                   bp = best_params (opt s') /\ br = best_rms (opt s')) /\
    (out = Exception -> best_params (opt s') = None).

(** A library stub whose simplex search evaluates its starting point three
    times and returns, and whose population search returns at once. *)
Definition finishing_scipy : Scipy :=
  {| minimize := fun x0 => interrupted_solver x0 3 3;
     differential_evolution := fun _ _ => Finish;
     max_calls := 60 |}.

(** The progress lines of the objective calls [calls] (vector, parameters,
    cost), from the tracker state [self]. *)
Fixpoint progress_lines (self : PIDOptimizer) (names : list pname)
  (calls : list (list R * ParameterSet * R)) : list output :=
  match calls with
  | [] => []
  | (x, params, rms) :: rest =>
      let self := track self params rms in
      OutProgress (eval_count self) names x rms (best_rms self)
        :: progress_lines self names rest
  end.

(** The (parameters, cost) pairs of a list of objective calls. *)
Definition records_of (calls : list (list R * ParameterSet * R))
  : list (ParameterSet * R) :=
  map (fun c => (snd (fst c), snd c)) calls.

(** The headers the two [optimize_*] methods print. *)
Definition is_header (line : output) : bool :=
  match line with
  | OutNelderMead _ _ | OutDE _ => true
  | _ => false
  end.

(** What a pin of the mocked plant reads: the four telemetry pins keep the
    readings of a machine in motion with a following error of [err] mm on X;
    every other pin reads the latest value written to it. *)
Definition plant_read (err : R) (store : list (string * R)) (name : string) : outcome R :=
  if (name =? "pid.x.error")%string then Returns err
  else if (name =? "pid.y.error")%string then Returns 0
  else if (name =? "pid.x.output")%string then Returns 10
  else if (name =? "pid.y.output")%string then Returns 10
  else stored_read store name.

(** A mocked plant: a clock moved by sleeping and a pin store. *)
Definition plant (err : R) : Machine (R * list (string * R)) :=
  {| time_time := fun s => fst s;
     time_sleep := fun d s => (fst s + d, snd s);
     hal_get_value := fun name s => (plant_read err (snd s) name, s);
     hal_set_p := fun name value s => (Returns tt, (fst s, (name, value) :: snd s));
     stat_poll := fun s => s;
     stat_interp_state := fun _ => INTERP_READING;
     stat_task_mode := fun _ => MODE_MDI;
     stat_actual_position := fun _ => (0, 0);
     cmd_mode := fun _ s => s;
     cmd_wait_complete := fun s => s;
     cmd_mdi := fun _ s => s;
     file_write := fun _ _ _ s => (Returns tt, s) |}.

(** A library stub whose population search evaluates the point
    (120, 60, 1) once and returns, and whose simplex search returns at
    once. *)
Definition one_shot_scipy : Scipy :=
  {| minimize := fun _ _ => Finish;
     differential_evolution := fun _ => interrupted_solver [120; 60; 1] 1 1;
     max_calls := 60 |}.

(** The five parameter names, in the order of the full searches. *)
Definition all_names : list pname := [KP; KI; KD; KFF1; KFF2].

(** The tracker holds no parameter set and the sentinel as its best cost,
    as after [__init__]. *)
Definition without_best {W : Type} (s : Session W) : Prop :=
  best_params (opt s) = None /\ best_rms (opt s) = 999.

(** A step of the program that records no best when none was recorded. *)
Definition stays_without_best {W A : Type} (m : Prog W A) : Prop :=
  forall s out s', m s = Some (out, s') -> without_best s -> without_best s'.

(** The menu answers [run] acts on. *)
Definition menu_answers : list string := ["q"; "1"; "2"; "3"; "4"; "5"]%string.

(** A machine whose tuning file cannot be written: every [file_write]
    raises; everything else is as on [M]. *)
Definition read_only {W : Type} (M : Machine W) : Machine W :=
  {| time_time := time_time M;
     time_sleep := time_sleep M;
     hal_get_value := hal_get_value M;
     hal_set_p := hal_set_p M;
     stat_poll := stat_poll M;
     stat_interp_state := stat_interp_state M;
     stat_task_mode := stat_task_mode M;
     stat_actual_position := stat_actual_position M;
     cmd_mode := cmd_mode M;
     cmd_wait_complete := cmd_wait_complete M;
     cmd_mdi := cmd_mdi M;
     file_write := fun _ _ _ w => (Raises, w) |}.

(** The objective calls [calls] (vector, dict evaluated, cost) made one
    after the other from session [s] and ending in [s']: each call evaluates
    the current parameters overridden by its vector, and its cost is what
    that evaluation returned. *)
Fixpoint calls_from {W : Type} (M : Machine W) (fuel : nat) (names : list pname)
  (calls : list (list R * ParameterSet * R)) (s s' : Session W) : Prop :=
  match calls with
  | [] => s' = s
  | (x, params, rms) :: rest =>
      exists w1 s1,
        params = merged (fst (get_current_params M (world s))) names x /\
        evaluate M (opt s) fuel params (snd (get_current_params M (world s)))
        = Some (rms, w1) /\
        objective M fuel x names s = Some (rms, s1) /\
        calls_from M fuel names rest s1 s'
  end.

(** ** Facts about the numeric helpers *)

Lemma Rltb_true (a b : R) : a < b -> Rltb a b = true.
Proof. intros H. unfold Rltb. destruct (Rlt_dec a b); [reflexivity | contradiction]. Qed.

Lemma Rltb_false (a b : R) : b <= a -> Rltb a b = false.
Proof. intros H. unfold Rltb. destruct (Rlt_dec a b); [lra | reflexivity]. Qed.

Lemma Rltb_iff (a b : R) : Rltb a b = true <-> a < b.
Proof.
  unfold Rltb. destruct (Rlt_dec a b); split; intros; try discriminate; auto; contradiction.
Qed.

Lemma Rneqb_true (a b : R) : a <> b -> Rneqb a b = true.
Proof. intros H. unfold Rneqb. destruct (Req_dec_T a b); [contradiction | reflexivity]. Qed.

Lemma Rneqb_false (a b : R) : a = b -> Rneqb a b = false.
Proof. intros H. unfold Rneqb. destruct (Req_dec_T a b); [reflexivity | contradiction]. Qed.

(** Decide every comparison of the goal whose operands are explicit enough
    for [lra]. *)
Ltac decide_reals :=
  unfold Rgtb;
  repeat first
    [ rewrite Rltb_true by lra
    | rewrite Rltb_false by lra
    | rewrite Rneqb_true by lra
    | rewrite Rneqb_false by lra ].

Lemma sign_as_sgn (x : R) :
  np.sign x = match sgn_of x with Neg => -1 | Zero => 0 | Pos => 1 end.
Proof. unfold np.sign, sgn_of. destruct (Rltb x 0), (Rltb 0 x); reflexivity. Qed.

Lemma sign_step (a b : R) :
  Rneqb (np.sign b - np.sign a) 0 = negb (sgn_eqb (sgn_of a) (sgn_of b)).
Proof.
  rewrite !sign_as_sgn.
  destruct (sgn_of a), (sgn_of b); simpl; decide_reals; reflexivity.
Qed.

Lemma sign_changes_count (d : list R) : sign_changes d = sign_change_count d.
Proof.
  unfold sign_changes.
  induction d as [|a d IH]; [reflexivity|].
  destruct d as [|b d]; [reflexivity|].
  change (np.count (Rneqb (np.sign b - np.sign a) 0
                      :: map (fun x => Rneqb x 0) (np.diff (map np.sign (b :: d))))
          = ((if sgn_eqb (sgn_of a) (sgn_of b) then 0 else 1)
             + sign_change_count (b :: d))%nat).
  rewrite <- IH, sign_step. unfold np.count. simpl filter.
  destruct (sgn_eqb (sgn_of a) (sgn_of b)); reflexivity.
Qed.

Lemma oscillating_iff (batch : list R) : oscillating batch = true <-> penalty_due batch.
Proof.
  unfold oscillating, penalty_due, Rgtb.
  rewrite andb_true_iff, Nat.ltb_lt, Rltb_iff, sign_changes_count.
  split; intros [H1 H2]; split; auto; lra.
Qed.

Lemma sum_square_nonneg (l : list R) : 0 <= np.sum (np.square l).
Proof.
  induction l as [|a l IH]; [simpl; lra|].
  change (0 <= a * a + np.sum (np.square l)). nra.
Qed.

Lemma mean_square_nonneg (l : list R) : 0 <= np.mean (np.square l).
Proof.
  unfold np.mean. destruct l as [|a l].
  - simpl. unfold Rdiv. rewrite Rmult_0_l. lra.
  - apply Rmult_le_pos; [apply sum_square_nonneg|].
    apply Rlt_le, Rinv_0_lt_compat, lt_0_INR. simpl. lia.
Qed.

Lemma rms_nonneg (l : list R) : 0 <= rms_of l.
Proof. apply sqrt_pos. Qed.

Lemma batch_cost_cons (a : R) (l : list R) :
  batch_cost (a :: l) =
  if oscillating (a :: l) then rms_of (a :: l) * 2 else rms_of (a :: l).
Proof. reflexivity. Qed.

Lemma batch_cost_nonneg (l : list R) : 0 <= batch_cost l.
Proof.
  destruct l as [|a l]; [unfold batch_cost, SENTINEL; lra|].
  rewrite batch_cost_cons. pose proof (rms_nonneg (a :: l)).
  destruct (oscillating (a :: l)); lra.
Qed.

Lemma diff_scale (k : R) (l : list R) : np.diff (scale k l) = scale k (np.diff l).
Proof.
  unfold scale. induction l as [|a l IH]; [reflexivity|].
  destruct l as [|b l]; [reflexivity|].
  change (k * b - k * a :: np.diff (map (Rmult k) (b :: l))
          = k * (b - a) :: map (Rmult k) (np.diff (b :: l))).
  rewrite IH. f_equal. ring.
Qed.

Lemma sign_scale (k x : R) : 0 < k -> np.sign (k * x) = np.sign x.
Proof.
  intros Hk. unfold np.sign.
  destruct (Rlt_dec x 0) as [Hn|Hn].
  - rewrite (Rltb_true x 0) by lra. rewrite Rltb_true by nra. reflexivity.
  - rewrite (Rltb_false x 0) by lra. rewrite (Rltb_false (k * x) 0) by nra.
    destruct (Rlt_dec 0 x) as [Hp|Hp].
    + rewrite (Rltb_true 0 x) by lra. rewrite Rltb_true by nra. reflexivity.
    + rewrite (Rltb_false 0 x) by lra. rewrite Rltb_false by nra. reflexivity.
Qed.

Lemma sign_changes_scale (k : R) (d : list R) :
  0 < k -> sign_changes (scale k d) = sign_changes d.
Proof.
  intros Hk. unfold sign_changes, scale. rewrite map_map.
  rewrite (map_ext (fun x => np.sign (k * x)) np.sign); [reflexivity|].
  intros x. apply sign_scale, Hk.
Qed.

Lemma oscillating_scale (k : R) (l : list R) :
  0 < k -> oscillating (scale k l) = oscillating l.
Proof.
  intros Hk. unfold oscillating.
  rewrite diff_scale, sign_changes_scale by assumption.
  unfold scale. rewrite !length_map. reflexivity.
Qed.

Lemma sum_square_scale (k : R) (l : list R) :
  np.sum (np.square (scale k l)) = k * k * np.sum (np.square l).
Proof.
  induction l as [|a l IH]; [simpl; ring|].
  change (k * a * (k * a) + np.sum (np.square (scale k l))
          = k * k * (a * a + np.sum (np.square l))).
  rewrite IH. ring.
Qed.

Lemma rms_scale (k : R) (l : list R) : 0 <= k -> rms_of (scale k l) = k * rms_of l.
Proof.
  intros Hk. unfold rms_of, np.mean.
  rewrite sum_square_scale. unfold scale, np.square. rewrite !length_map.
  replace (k * k * np.sum (map (fun x => x * x) l) / INR (length l))
    with (k * k * (np.sum (map (fun x => x * x) l) / INR (length l)))
    by (unfold Rdiv; ring).
  rewrite sqrt_mult_alt by nra. rewrite sqrt_square by assumption. reflexivity.
Qed.

Lemma batch_cost_scale (k : R) (l : list R) :
  0 < k -> l <> [] -> batch_cost (scale k l) = k * batch_cost l.
Proof.
  intros Hk Hl. destruct l as [|a l]; [congruence|].
  change (scale k (a :: l)) with (k * a :: scale k l).
  rewrite !batch_cost_cons.
  change (k * a :: scale k l) with (scale k (a :: l)).
  rewrite oscillating_scale by assumption. rewrite rms_scale by lra.
  destruct (oscillating (a :: l)); ring.
Qed.

(** A batch of one repeated reading: its RMS is the reading, and its first
    difference never changes sign. *)
Lemma diff_repeat (c : R) (n : nat) : np.diff (repeat c n) = repeat 0 (pred n).
Proof.
  induction n as [|n IH]; [reflexivity|].
  destruct n as [|n]; [reflexivity|].
  change (c - c :: np.diff (repeat c (S n)) = 0 :: repeat 0 n).
  rewrite IH. simpl. f_equal. ring.
Qed.

Lemma sign_change_count_zeros (n : nat) : sign_change_count (repeat 0 n) = 0%nat.
Proof.
  induction n as [|n IH]; [reflexivity|].
  destruct n as [|n]; [reflexivity|].
  change (((if sgn_eqb (sgn_of 0) (sgn_of 0) then 0 else 1)
           + sign_change_count (repeat 0%R (S n)))%nat = 0%nat).
  rewrite IH. destruct (sgn_of 0); reflexivity.
Qed.

Lemma oscillating_repeat (c : R) (n : nat) : oscillating (repeat c n) = false.
Proof.
  unfold oscillating. rewrite diff_repeat, sign_changes_count, sign_change_count_zeros.
  rewrite !repeat_length. unfold Rgtb.
  rewrite Rltb_false, andb_false_r; [reflexivity|].
  pose proof (pos_INR (pred n)). change (INR 0) with 0. lra.
Qed.

Lemma sum_square_repeat (c : R) (n : nat) :
  np.sum (np.square (repeat c n)) = INR n * (c * c).
Proof.
  induction n as [|n IH]; [simpl; ring|].
  change (c * c + np.sum (np.square (repeat c n)) = INR (S n) * (c * c)).
  rewrite IH, S_INR. ring.
Qed.

Lemma rms_repeat (c : R) (n : nat) : 0 <= c -> (0 < n)%nat -> rms_of (repeat c n) = c.
Proof.
  intros Hc Hn. unfold rms_of, np.mean.
  rewrite sum_square_repeat. unfold np.square. rewrite length_map, repeat_length.
  replace (INR n * (c * c) / INR n) with (c * c).
  - apply sqrt_square, Hc.
  - field. apply not_0_INR. lia.
Qed.

Lemma batch_cost_repeat (c : R) (n : nat) :
  0 <= c -> (0 < n)%nat -> batch_cost (repeat c n) = c.
Proof.
  intros Hc Hn. destruct n as [|n]; [lia|].
  change (repeat c (S n)) with (c :: repeat c n). rewrite batch_cost_cons.
  change (c :: repeat c n) with (repeat c (S n)).
  rewrite oscillating_repeat. apply rms_repeat; [assumption | lia].
Qed.









(** C7: for a non-empty batch, doubling every sample doubles the RMS, leaves
    the penalty decision as it was and so doubles the cost; more generally a
    scaling by [k >= 1] never lowers the cost, and between two batches with
    the same penalty decision the one with the larger RMS costs at least as
    much. *)
Theorem doubling_samples_doubles_cost (batch : list R) :
  batch <> [] ->
  rms_of (scale 2 batch) = 2 * rms_of batch /\
  oscillating (scale 2 batch) = oscillating batch /\
  (penalty_due (scale 2 batch) <-> penalty_due batch) /\
  batch_cost (scale 2 batch) = 2 * batch_cost batch /\
  (forall k, 1 <= k ->
     batch_cost (scale k batch) = k * batch_cost batch /\
     batch_cost batch <= batch_cost (scale k batch)) /\
  (forall other,
     other <> [] ->
     oscillating other = oscillating batch ->
     rms_of batch <= rms_of other ->
     batch_cost batch <= batch_cost other).
Proof.
  intros Hne.
  split; [apply rms_scale; lra|].
  split; [apply oscillating_scale; lra|].
  split.
  { rewrite <- !oscillating_iff, oscillating_scale by lra. reflexivity. }
  split; [apply batch_cost_scale; [lra | assumption]|].
  split.
  { intros k Hk.
    rewrite batch_cost_scale by (lra || assumption).
    split; [reflexivity|].
    pose proof (batch_cost_nonneg batch). nra. }
  intros other Hother Hosc Hrms.
  destruct batch as [|a l]; [congruence|]. destruct other as [|b m]; [congruence|].
  rewrite !batch_cost_cons, Hosc.
  destruct (oscillating (a :: l)); lra.
Qed.

Lemma doubling_samples_doubles_cost_witness :
  [3; 4] <> [] /\ batch_cost (scale 2 [3; 4]) = 2 * batch_cost [3; 4].
Proof.
  assert (H : [3; 4] <> []) by discriminate.
  split; [exact H|].
  exact (proj1 (proj2 (proj2 (proj2 (doubling_samples_doubles_cost [3; 4] H))))).
Defined.

(** ** The polling loops: deadlines and fuel *)

Section Deadlines.

Context {W : Type} (M : Machine W).

Lemma getp_snd (name : string) (w : W) :
  snd (getp M name w) = snd (hal_get_value M name w).
Proof. unfold getp. destruct (hal_get_value M name w); reflexivity. Qed.

Lemma getp_fst (name : string) (w : W) :
  fst (getp M name w) =
  match fst (hal_get_value M name w) with Returns v => v | Raises => 0 end.
Proof. unfold getp. destruct (hal_get_value M name w); reflexivity. Qed.

Lemma collect_step_samples (errors : list R) (w : W) :
  fst (fst (collect_step M errors w)) = errors \/
  exists sample, 0 <= sample /\ fst (fst (collect_step M errors w)) = errors ++ [sample].
Proof.
  unfold collect_step.
  destruct (getp M "pid.x.error" _) as [ex w1].
  destruct (getp M "pid.y.error" _) as [ey w2].
  destruct (getp M "pid.x.output" _) as [ox w3].
  destruct (getp M "pid.y.output" _) as [oy w4].
  cbn [fst]. destruct (Rgtb _ 5); [right | left; reflexivity].
  eexists. split; [|reflexivity].
  apply Rle_trans with (Rabs (ex * 1000)); [apply Rabs_pos | apply Rmax_l].
Qed.

Lemma collect_step_length (errors : list R) (w : W) :
  (length (fst (fst (collect_step M errors w))) <= length errors + 1)%nat.
Proof.
  destruct (collect_step_samples errors w) as [E | [sample [_ E]]]; rewrite E.
  - lia.
  - rewrite length_app. simpl. lia.
Qed.

Lemma deadline_passed_collect (fuel : nat) (start timeout : R) (errors : list R) (w : W) :
  timeout <= time_time M w - start ->
  collect_loop M (S fuel) start timeout errors w = Some (errors, w).
Proof. intros H. cbn [collect_loop]. rewrite Rltb_false by lra. reflexivity. Qed.

Lemma deadline_passed_wait (fuel : nat) (start timeout : R) (w : W) :
  timeout <= time_time M w - start ->
  wait_ready_loop M (S fuel) start timeout w = Some (false, w).
Proof. intros H. cbn [wait_ready_loop]. rewrite Rltb_false by lra. reflexivity. Qed.






Hypothesis laws : ClockLaws M.

Lemma getp_time (name : string) (w : W) :
  time_time M w <= time_time M (snd (getp M name w)).
Proof. rewrite getp_snd. apply (read_monotone M laws). Qed.

Lemma collect_step_time (errors : list R) (w : W) :
  time_time M w <= time_time M (snd (collect_step M errors w)).
Proof.
  unfold collect_step.
  pose proof (poll_monotone M laws w) as H0.
  pose proof (getp_time "pid.x.error" (stat_poll M w)) as H1.
  destruct (getp M "pid.x.error" _) as [ex w1]. cbn [snd] in H1.
  pose proof (getp_time "pid.y.error" w1) as H2.
  destruct (getp M "pid.y.error" _) as [ey w2]. cbn [snd] in H2.
  pose proof (getp_time "pid.x.output" w2) as H3.
  destruct (getp M "pid.x.output" _) as [ox w3]. cbn [snd] in H3.
  pose proof (getp_time "pid.y.output" w3) as H4.
  destruct (getp M "pid.y.output" _) as [oy w4]. cbn [snd] in *.
  lra.
Qed.

(** With [n] sleeps of 2 ms covering what is left of the deadline, the
    sampling loop returns after at most [n] passes, so with at most [n] new
    samples. *)
Lemma collect_loop_returns (start timeout : R) (n : nat) :
  forall errors w,
    timeout - (time_time M w - start) < INR n * 0.002 ->
    exists errors' w',
      collect_loop M (S n) start timeout errors w = Some (errors', w') /\
      (length errors' <= length errors + n)%nat.
Proof.
  induction n as [|n IH]; intros errors w Hleft.
  - exists errors, w. split; [|lia].
    apply deadline_passed_collect. simpl in Hleft. lra.
  - cbn [collect_loop].
    destruct (Rltb (time_time M w - start) timeout); [|exists errors, w; split; [reflexivity|lia]].
    pose proof (collect_step_time errors w) as Ht.
    pose proof (collect_step_length errors w) as Hl.
    destruct (collect_step M errors w) as [[errors1 stop] w1]. cbn [fst snd] in *.
    destruct stop; [exists errors1, w1; split; [reflexivity|lia]|].
    destruct (IH errors1 (time_sleep M 0.002 w1)) as [errors' [w' [E Hlen]]].
    + pose proof (sleep_advances M laws 0.002 w1). rewrite S_INR in Hleft. lra.
    + exists errors', w'. split; [exact E | lia].
Qed.

(** With [n] sleeps of 50 ms covering what is left of the timeout,
    [wait_ready] returns after at most [n] polls. *)
Lemma wait_ready_loop_returns (start timeout : R) (n : nat) :
  forall w,
    timeout - (time_time M w - start) < INR n * 0.05 ->
    exists r, wait_ready_loop M (S n) start timeout w = Some r.
Proof.
  induction n as [|n IH]; intros w Hleft.
  - exists (false, w). apply deadline_passed_wait. simpl in Hleft. lra.
  - cbn [wait_ready_loop].
    destruct (Rltb (time_time M w - start) timeout); [|eexists; reflexivity].
    destruct (is_idle _); [eexists; reflexivity|].
    apply IH.
    pose proof (poll_monotone M laws w).
    pose proof (sleep_advances M laws 0.05 (stat_poll M w)).
    rewrite S_INR in Hleft. lra.
Qed.

Lemma collect_during_move_returns (self : PIDOptimizer) (n : nat) (x y : R) (w : W) :
  leg_timeout self < INR n * 0.002 ->
  10 < INR n * 0.05 ->
  exists errors w',
    collect_during_move M self (S n) x y w = Some (errors, w') /\
    (length errors <= n)%nat.
Proof.
  intros Hleg Hwait. unfold collect_during_move, wait_ready, obind.
  set (w0 := time_sleep M 0.01 (snd (run_move M self x y w))).
  destruct (collect_loop_returns (time_time M w0) (leg_timeout self) n [] w0)
    as [errors [w1 [E1 Hlen]]]; [lra|].
  rewrite E1.
  destruct (wait_ready_loop_returns (time_time M w1) 10 n w1) as [[b w2] E2]; [lra|].
  rewrite E2. exists errors, w2. split; [reflexivity | exact Hlen].
Qed.

Lemma sample_legs_returns (self : PIDOptimizer) (n : nat) (params : ParameterSet) (w : W) :
  leg_timeout self < INR n * 0.002 ->
  10 < INR n * 0.05 ->
  exists batch w',
    sample_legs M self (S n) params w = Some (batch, w') /\
    (length batch <= 2 * n)%nat.
Proof.
  intros Hleg Hwait. unfold sample_legs, obind.
  destruct (get_position M _) as [[x0 y0] w0].
  destruct (collect_during_move_returns self n (x0 + test_distance self)
              (y0 + test_distance self) w0 Hleg Hwait) as [e1 [w1 [E1 L1]]].
  rewrite E1.
  destruct (collect_during_move_returns self n x0 y0 w1 Hleg Hwait) as [e2 [w2 [E2 L2]]].
  rewrite E2. exists (e1 ++ e2), w2. split; [reflexivity|].
  rewrite length_app. lia.
Qed.

Lemma evaluate_returns (self : PIDOptimizer) (n : nat) (params : ParameterSet) (w : W) :
  leg_timeout self < INR n * 0.002 ->
  10 < INR n * 0.05 ->
  exists cost w', evaluate M self (S n) params w = Some (cost, w').
Proof.
  intros Hleg Hwait. unfold evaluate, obind.
  destruct (sample_legs_returns self n params w Hleg Hwait) as [batch [w' [E _]]].
  rewrite E. eexists. eexists. reflexivity.
Qed.

End Deadlines.

Lemma leg_timeout_init : leg_timeout init = 0.635.
Proof. unfold leg_timeout, init. simpl. lra. Qed.

Lemma INR_318 : INR 318 = 318.
Proof. rewrite INR_IZR_INZ. reflexivity. Qed.

Lemma fuel_318_covers_leg : leg_timeout init < INR 318 * 0.002.
Proof. rewrite leg_timeout_init, INR_318. lra. Qed.

Lemma fuel_318_covers_wait : 10 < INR 318 * 0.05.
Proof. rewrite INR_318. lra. Qed.

Lemma steady_clock_laws (pins : string -> outcome R) (state : interp_state) :
  ClockLaws (steady pins state).
Proof. split; intros; simpl; lra. Qed.

(** *** The clock when the loops return *)

Section LoopClock.

Context {W : Type} (M : Machine W).
Hypothesis laws : ClockLaws M.



Variables dc dw : R.
Hypothesis pass_collect : forall errors w,
    time_time M (time_sleep M 0.002 (snd (collect_step M errors w))) - time_time M w <= dc.
Hypothesis pass_wait : forall w,
    time_time M (time_sleep M 0.05 (stat_poll M w)) - time_time M w <= dw.





End LoopClock.






(** ** What the evaluator returns *)

Lemma evaluate_is_cost_of_batch {W : Type} (M : Machine W) (self : PIDOptimizer)
  (fuel : nat) (params : ParameterSet) (w : W) (batch : list R) (w' : W) :
  sample_legs M self fuel params w = Some (batch, w') ->
  evaluate M self fuel params w = Some (batch_cost batch, w').
Proof. intros H. unfold evaluate, obind. rewrite H. reflexivity. Qed.

Lemma sentinel_not_zero : batch_cost [] = 999 /\ batch_cost [] <> 0.
Proof. unfold batch_cost, SENTINEL. split; lra. Qed.

(** *** A dead telemetry link *)

Section DeadTelemetry.

Context {W : Type} (M : Machine W).
Hypothesis dead : forall name w, fst (hal_get_value M name w) = Raises.

Lemma getp_dead (name : string) (w : W) : fst (getp M name w) = 0.
Proof. rewrite getp_fst, dead. reflexivity. Qed.

Lemma collect_step_dead (errors : list R) (w : W) :
  fst (fst (collect_step M errors w)) = errors.
Proof.
  unfold collect_step.
  destruct (getp M "pid.x.error" _) as [ex w1].
  destruct (getp M "pid.y.error" _) as [ey w2].
  pose proof (getp_dead "pid.x.output" w2) as Hx.
  destruct (getp M "pid.x.output" _) as [ox w3].
  pose proof (getp_dead "pid.y.output" w3) as Hy.
  destruct (getp M "pid.y.output" _) as [oy w4].
  cbn [fst] in *. subst ox oy.
  rewrite Rabs_R0. unfold Rgtb. rewrite Rltb_false by lra. reflexivity.
Qed.

Lemma collect_loop_dead (start timeout : R) :
  forall fuel errors w errors' w',
    collect_loop M fuel start timeout errors w = Some (errors', w') ->
    errors' = errors.
Proof.
  induction fuel as [|fuel IH]; intros errors w errors' w' H; [discriminate H|].
  cbn [collect_loop] in H.
  destruct (Rltb (time_time M w - start) timeout); [|congruence].
  pose proof (collect_step_dead errors w) as Hs.
  destruct (collect_step M errors w) as [[errors1 stop] w1]. cbn [fst] in Hs. subst errors1.
  destruct stop; [congruence|].
  apply IH in H. exact H.
Qed.

Lemma collect_during_move_dead (self : PIDOptimizer) (fuel : nat) (x y : R) (w : W)
  (errors : list R) (w' : W) :
  collect_during_move M self fuel x y w = Some (errors, w') -> errors = [].
Proof.
  unfold collect_during_move, obind. intros H.
  destruct (collect_loop M fuel _ _ _ _) as [[errors1 w1]|] eqn:E1; [|discriminate].
  apply collect_loop_dead in E1. subst errors1.
  destruct (wait_ready M fuel 10 w1) as [[b w2]|]; [|discriminate].
  congruence.
Qed.

Lemma sample_legs_dead (self : PIDOptimizer) (fuel : nat) (params : ParameterSet) (w : W)
  (batch : list R) (w' : W) :
  sample_legs M self fuel params w = Some (batch, w') -> batch = [].
Proof.
  unfold sample_legs, obind.
  destruct (get_position M _) as [[x0 y0] w0]. intros H.
  destruct (collect_during_move M self fuel _ _ w0) as [[e1 w1]|] eqn:E1; [|discriminate].
  apply collect_during_move_dead in E1. subst e1.
  destruct (collect_during_move M self fuel _ _ w1) as [[e2 w2]|] eqn:E2; [|discriminate].
  apply collect_during_move_dead in E2. subst e2.
  simpl in H. congruence.
Qed.

End DeadTelemetry.

(** *** Pins that keep one reading while the machine moves *)

Section ConstantPins.

Context {W : Type} (M : Machine W).
Variables err_x err_y out_x out_y : R.
Hypothesis read_err_x : forall w, fst (getp M "pid.x.error" w) = err_x.
Hypothesis read_err_y : forall w, fst (getp M "pid.y.error" w) = err_y.
Hypothesis read_out_x : forall w, fst (getp M "pid.x.output" w) = out_x.
Hypothesis read_out_y : forall w, fst (getp M "pid.y.output" w) = out_y.
Hypothesis moving : 5 < Rabs out_x + Rabs out_y.

Lemma sample_nonneg : 0 <= leg_sample err_x err_y.
Proof.
  apply Rle_trans with (Rabs (err_x * 1000)); [apply Rabs_pos | apply Rmax_l].
Qed.

Lemma collect_step_constant (errors : list R) (w : W) :
  fst (fst (collect_step M errors w)) = errors ++ [leg_sample err_x err_y].
Proof.
  unfold collect_step.
  pose proof (read_err_x (stat_poll M w)) as H1.
  destruct (getp M "pid.x.error" _) as [ex w1].
  pose proof (read_err_y w1) as H2.
  destruct (getp M "pid.y.error" _) as [ey w2].
  pose proof (read_out_x w2) as H3.
  destruct (getp M "pid.x.output" _) as [ox w3].
  pose proof (read_out_y w3) as H4.
  destruct (getp M "pid.y.output" _) as [oy w4].
  cbn [fst] in *. subst ex ey ox oy.
  unfold Rgtb, leg_sample. rewrite Rltb_true by exact moving. reflexivity.
Qed.

Lemma collect_loop_constant (start timeout : R) :
  forall fuel errors w errors' w',
    collect_loop M fuel start timeout errors w = Some (errors', w') ->
    exists k, errors' = errors ++ repeat (leg_sample err_x err_y) k /\
              (time_time M w - start < timeout -> (0 < k)%nat).
Proof.
  induction fuel as [|fuel IH]; intros errors w errors' w' H; [discriminate H|].
  cbn [collect_loop] in H.
  destruct (Rltb (time_time M w - start) timeout) eqn:E.
  - pose proof (collect_step_constant errors w) as Hs.
    destruct (collect_step M errors w) as [[errors1 stop] w1]. cbn [fst] in Hs. subst errors1.
    destruct stop.
    + injection H as <- <-. exists 1%nat. split; [reflexivity | lia].
    + apply IH in H. destruct H as [k [-> _]].
      exists (S k). split; [|lia].
      rewrite <- app_assoc. reflexivity.
  - injection H as <- <-. exists 0%nat. split; [simpl; rewrite app_nil_r; reflexivity|].
    intros Hlt. rewrite (Rltb_true _ _ Hlt) in E. discriminate E.
Qed.

Lemma collect_during_move_constant (self : PIDOptimizer) (fuel : nat) (x y : R) (w : W)
  (errors : list R) (w' : W) :
  0 < leg_timeout self ->
  collect_during_move M self fuel x y w = Some (errors, w') ->
  exists k, (0 < k)%nat /\ errors = repeat (leg_sample err_x err_y) k.
Proof.
  intros Hpos. unfold collect_during_move, obind. intros H.
  destruct (collect_loop M fuel _ _ _ _) as [[errors1 w1]|] eqn:E1; [|discriminate].
  apply collect_loop_constant in E1. destruct E1 as [k [-> Hk]].
  destruct (wait_ready M fuel 10 w1) as [[b w2]|]; [|discriminate].
  injection H as <- <-. exists k. split; [apply Hk; lra | reflexivity].
Qed.

Lemma sample_legs_constant (self : PIDOptimizer) (fuel : nat) (params : ParameterSet)
  (w : W) (batch : list R) (w' : W) :
  0 < leg_timeout self ->
  sample_legs M self fuel params w = Some (batch, w') ->
  exists k, (0 < k)%nat /\ batch = repeat (leg_sample err_x err_y) k.
Proof.
  intros Hpos. unfold sample_legs, obind.
  destruct (get_position M _) as [[x0 y0] w0]. intros H.
  destruct (collect_during_move M self fuel _ _ w0) as [[e1 w1]|] eqn:E1; [|discriminate].
  apply (collect_during_move_constant self) in E1; [|exact Hpos].
  destruct E1 as [k1 [Hk1 ->]].
  destruct (collect_during_move M self fuel _ _ w1) as [[e2 w2]|] eqn:E2; [|discriminate].
  apply (collect_during_move_constant self) in E2; [|exact Hpos].
  destruct E2 as [k2 [Hk2 ->]].
  injection H as <- <-. exists (k1 + k2)%nat. split; [lia|].
  simpl. symmetry. apply repeat_app.
Qed.

Lemma evaluate_constant (self : PIDOptimizer) (fuel : nat) (params : ParameterSet)
  (w : W) (cost : R) (w' : W) :
  0 < leg_timeout self ->
  evaluate M self fuel params w = Some (cost, w') ->
  cost = leg_sample err_x err_y.
Proof.
  intros Hpos. unfold evaluate, obind. intros H.
  destruct (sample_legs M self fuel params w) as [[batch w1]|] eqn:E; [|discriminate].
  apply (sample_legs_constant self) in E; [|exact Hpos].
  destruct E as [k [Hk ->]]. injection H as <- <-.
  apply batch_cost_repeat; [exact sample_nonneg | exact Hk].
Qed.

End ConstantPins.

(** The steady machine in motion with a following error of [err] mm: every
    evaluation collects samples, all equal to [err * 1000] microns. *)
Lemma steady_moving_sample_legs (err : R) (state : interp_state) (self : PIDOptimizer)
  (params : ParameterSet) (t : R) :
  0 <= err ->
  leg_timeout self = 0.635 ->
  exists k t',
    sample_legs (steady (moving_pins err) state) self 319 params t
    = Some (repeat (err * 1000) k, t') /\ (0 < k)%nat.
Proof.
  intros Herr Hleg.
  assert (Hfuel : leg_timeout self < INR 318 * 0.002) by (rewrite Hleg, INR_318; lra).
  destruct (sample_legs_returns (steady (moving_pins err) state)
              (steady_clock_laws _ _) self 318 params t
              Hfuel fuel_318_covers_wait) as [batch [t' [E _]]].
  assert (Hmove : 5 < Rabs 10 + Rabs 10) by (rewrite !Rabs_pos_eq by lra; lra).
  assert (Hpos : 0 < leg_timeout self) by (rewrite Hleg; lra).
  destruct (sample_legs_constant (steady (moving_pins err) state) err 0 10 10
              (fun _ => eq_refl) (fun _ => eq_refl) (fun _ => eq_refl) (fun _ => eq_refl)
              Hmove self 319%nat params t batch t' Hpos E) as [k [Hk Hb]].
  exists k, t'. split; [|exact Hk]. rewrite E, Hb.
  replace (leg_sample err 0) with (err * 1000); [reflexivity|].
  unfold leg_sample.
  rewrite Rmult_0_l, Rabs_R0, Rabs_pos_eq by lra. rewrite Rmax_left; lra.
Qed.

Lemma steady_moving_evaluate (err : R) (state : interp_state) (self : PIDOptimizer)
  (params : ParameterSet) (t : R) :
  0 <= err ->
  leg_timeout self = 0.635 ->
  exists t', evaluate (steady (moving_pins err) state) self 319 params t
             = Some (err * 1000, t').
Proof.
  intros Herr Hleg.
  destruct (steady_moving_sample_legs err state self params t Herr Hleg) as [k [t' [E Hk]]].
  exists t'. rewrite (evaluate_is_cost_of_batch _ _ _ _ _ _ _ E).
  rewrite batch_cost_repeat; [reflexivity | lra | exact Hk].
Qed.

Lemma nominal_within_bounds : within_bounds nominal_proposal.
Proof. intros name. destruct name; unfold in_bound; simpl; lra. Qed.

(** C10: when every pin read raises, every [getp] answers 0, the activity
    gate ([vel > 5]) stays shut, both legs return an empty batch and
    [evaluate] returns the sentinel 999. *)
Theorem dead_telemetry_yields_sentinel {W : Type} (M : Machine W)
  (self : PIDOptimizer) (n : nat) (params : ParameterSet) (w : W) :
  ClockLaws M ->
  leg_timeout self < INR n * 0.002 ->
  10 < INR n * 0.05 ->
  (forall name w0, fst (hal_get_value M name w0) = Raises) ->
  (forall name w0, fst (getp M name w0) = 0) /\
  (forall errors w0, fst (fst (collect_step M errors w0)) = errors) /\
  (forall x y w0, exists w', collect_during_move M self (S n) x y w0 = Some ([], w')) /\
  (exists w', sample_legs M self (S n) params w = Some ([], w')) /\
  (exists w', evaluate M self (S n) params w = Some (999, w')).
Proof.
  intros laws Hleg Hwait dead.
  split; [intros; apply getp_dead, dead|].
  split; [intros; apply collect_step_dead, dead|].
  split.
  { intros x y w0.
    destruct (collect_during_move_returns M laws self n x y w0 Hleg Hwait)
      as [errors [w' [E _]]].
    rewrite E. apply (collect_during_move_dead M dead) in E. subst errors.
    exists w'. reflexivity. }
  destruct (sample_legs_returns M laws self n params w Hleg Hwait) as [batch [w' [E _]]].
  pose proof (sample_legs_dead M dead _ _ _ _ _ _ E) as Hb. subst batch.
  split; exists w'; [exact E|].
  apply (evaluate_is_cost_of_batch M self (S n) params w [] w' E).
Qed.

Lemma dead_telemetry_yields_sentinel_witness :
  exists t', evaluate (steady dead_pins INTERP_READING) init 319 nominal_proposal 0
             = Some (999, t').
Proof.
  apply (dead_telemetry_yields_sentinel (steady dead_pins INTERP_READING) init 318
           nominal_proposal 0 (steady_clock_laws dead_pins INTERP_READING)
           fuel_318_covers_leg fuel_318_covers_wait (fun _ _ => eq_refl)).
Defined.

(** C2, as the code has it: [evaluate] returns; on an empty concatenated
    batch it returns exactly 999, so a cost of zero is never the report of
    an empty batch; on a non-empty batch it returns the RMS or twice the RMS
    (which may itself be 999). *)
Theorem empty_batch_yields_sentinel {W : Type} (M : Machine W)
  (self : PIDOptimizer) (n : nat) (params : ParameterSet) (w : W) :
  ClockLaws M ->
  leg_timeout self < INR n * 0.002 ->
  10 < INR n * 0.05 ->
  exists batch w',
    sample_legs M self (S n) params w = Some (batch, w') /\
    evaluate M self (S n) params w = Some (batch_cost batch, w') /\
    (batch = [] -> batch_cost batch = 999) /\
    (batch_cost batch = 0 -> batch <> []) /\
    (batch <> [] ->
     batch_cost batch = rms_of batch \/ batch_cost batch = 2 * rms_of batch).
Proof.
  intros laws Hleg Hwait.
  destruct (sample_legs_returns M laws self n params w Hleg Hwait) as [batch [w' [E _]]].
  exists batch, w'.
  split; [exact E|].
  split; [apply evaluate_is_cost_of_batch, E|].
  split; [intros ->; apply sentinel_not_zero|].
  split.
  { intros H0 ->. apply (proj2 sentinel_not_zero), H0. }
  intros Hne. destruct batch as [|a l]; [congruence|].
  rewrite batch_cost_cons. destruct (oscillating (a :: l)); [right; ring | left; reflexivity].
Qed.

Lemma empty_batch_yields_sentinel_witness :
  exists batch t',
    sample_legs (steady dead_pins INTERP_READING) init 319 nominal_proposal 0
    = Some (batch, t') /\
    evaluate (steady dead_pins INTERP_READING) init 319 nominal_proposal 0
    = Some (batch_cost batch, t').
Proof.
  destruct (empty_batch_yields_sentinel (steady dead_pins INTERP_READING) init 318
              nominal_proposal 0 (steady_clock_laws dead_pins INTERP_READING)
              fuel_318_covers_leg fuel_318_covers_wait)
    as [batch [t' [H1 [H2 _]]]].
  exists batch, t'. split; [exact H1 | exact H2].
Defined.

(** C2 as stated fails: with a steady following error of 0.999 mm the batch
    is not empty, every sample is 999 microns, and [evaluate] returns 999. *)
Lemma sentinel_from_nonempty_batch :
  exists batch t',
    sample_legs (steady (moving_pins 0.999) INTERP_READING) init 319 nominal_proposal 0
    = Some (batch, t') /\
    batch <> [] /\
    evaluate (steady (moving_pins 0.999) INTERP_READING) init 319 nominal_proposal 0
    = Some (999, t').
Proof.
  destruct (steady_moving_sample_legs 0.999 INTERP_READING init nominal_proposal 0)
    as [k [t' [E Hk]]]; [lra | exact leg_timeout_init |].
  exists (repeat (0.999 * 1000) k), t'.
  split; [exact E|].
  split; [destruct k; [lia | discriminate]|].
  rewrite (evaluate_is_cost_of_batch _ _ _ _ _ _ _ E).
  rewrite batch_cost_repeat; [|lra|exact Hk].
  do 2 f_equal. lra.
Qed.

(** C9: the cost depends on the collaborator only through the samples: two
    evaluations of a parameter set within Bounds whose legs deliver the same
    sample sequence return the same cost, the cost of that sequence. *)
Theorem same_samples_same_cost {W1 W2 : Type} (M1 : Machine W1) (M2 : Machine W2)
  (self : PIDOptimizer) (fuel1 fuel2 : nat) (params : ParameterSet)
  (w1 : W1) (w2 : W2) (batch : list R) (w1' : W1) (w2' : W2) :
  within_bounds params ->
  sample_legs M1 self fuel1 params w1 = Some (batch, w1') ->
  sample_legs M2 self fuel2 params w2 = Some (batch, w2') ->
  exists cost,
    evaluate M1 self fuel1 params w1 = Some (cost, w1') /\
    evaluate M2 self fuel2 params w2 = Some (cost, w2') /\
    cost = batch_cost batch.
Proof.
  intros _ H1 H2. exists (batch_cost batch).
  split; [apply evaluate_is_cost_of_batch, H1|].
  split; [apply evaluate_is_cost_of_batch, H2 | reflexivity].
Qed.

Lemma same_samples_same_cost_witness :
  exists cost t1 t2,
    evaluate (steady (moving_pins 0.05) INTERP_READING) init 319 nominal_proposal 0
    = Some (cost, t1) /\
    evaluate (steady (moving_pins 0.05) INTERP_READING) init 319 nominal_proposal 0
    = Some (cost, t2).
Proof.
  destruct (steady_moving_sample_legs 0.05 INTERP_READING init nominal_proposal 0)
    as [k [t' [E _]]]; [lra | exact leg_timeout_init |].
  destruct (same_samples_same_cost _ _ init 319 319 nominal_proposal 0 0 _ t' t'
              nominal_within_bounds E E) as [cost [H1 [H2 _]]].
  exists cost, t', t'. split; [exact H1 | exact H2].
Defined.

(** C5 as stated fails: on a pin whose read raises, the spec's port answers
    [None] but [getp] answers the number 0. *)
Lemma getp_failed_read_is_zero_not_none :
  telemetry_get_spec (steady dead_pins INTERP_IDLE) "pid.x.error" 0 = None /\
  fst (getp (steady dead_pins INTERP_IDLE) "pid.x.error" 0) = 0 /\
  Some (fst (getp (steady dead_pins INTERP_IDLE) "pid.x.error" 0))
  <> telemetry_get_spec (steady dead_pins INTERP_IDLE) "pid.x.error" 0.
Proof.
  split; [reflexivity|]. split; [reflexivity|]. discriminate.
Qed.

(** C5, as the code has it: [getp] never raises; it returns the value read
    when the read succeeds and the number 0 when the read raises, that is,
    wherever the spec's port would answer [None]. *)
Theorem getp_never_raises_and_defaults_to_zero {W : Type} (M : Machine W)
  (name : string) (w : W) :
  (forall v, fst (hal_get_value M name w) = Returns v -> fst (getp M name w) = v) /\
  (fst (hal_get_value M name w) = Raises -> fst (getp M name w) = 0) /\
  (forall v, telemetry_get_spec M name w = Some v -> fst (getp M name w) = v) /\
  (telemetry_get_spec M name w = None -> fst (getp M name w) = 0) /\
  snd (getp M name w) = snd (hal_get_value M name w).
Proof.
  rewrite getp_fst, getp_snd. unfold telemetry_get_spec.
  destruct (fst (hal_get_value M name w)) as [v0|].
  - repeat split; intros; congruence.
  - repeat split; intros; congruence.
Qed.

Lemma getp_never_raises_and_defaults_to_zero_witness :
  fst (getp (steady dead_pins INTERP_IDLE) "pid.x.error" 0) = 0.
Proof.
  exact (proj1 (proj2 (getp_never_raises_and_defaults_to_zero
                         (steady dead_pins INTERP_IDLE) "pid.x.error" 0)) eq_refl).
Defined.

(** ** What an evaluation writes to the machine *)

Section Logged.

Context {W : Type} (M : Machine W).

Lemma getp_logged (name : string) (w : W) (l : list (string * R)) :
  getp (logged M) name (w, l) = (fst (getp M name w), (snd (getp M name w), l)).
Proof. unfold getp. simpl. destruct (hal_get_value M name w); reflexivity. Qed.

Lemma setp_logged (name : string) (value : R) (w : W) (l : list (string * R)) :
  snd (setp (logged M) name value (w, l))
  = (snd (setp M name value w), l ++ [(name, value)]).
Proof. unfold setp. simpl. destruct (hal_set_p M name value w); reflexivity. Qed.

Lemma apply_axis_logged (params : ParameterSet) (axis : string) (w : W)
  (l : list (string * R)) :
  apply_axis (logged M) params (w, l) axis
  = (apply_axis M params w axis,
     l ++ [(("pid." ++ axis ++ ".Pgain")%string, params KP);
           (("pid." ++ axis ++ ".Igain")%string, params KI);
           (("pid." ++ axis ++ ".Dgain")%string, params KD);
           (("pid." ++ axis ++ ".FF1")%string, params KFF1);
           (("pid." ++ axis ++ ".FF2")%string, params KFF2)]).
Proof.
  unfold apply_axis. rewrite !setp_logged. rewrite <- !app_assoc. reflexivity.
Qed.

Lemma apply_params_logged (params : ParameterSet) (w : W) (l : list (string * R)) :
  apply_params (logged M) params (w, l) = (apply_params M params w, l ++ writes_of params).
Proof.
  unfold apply_params. cbn [fold_left]. rewrite !apply_axis_logged.
  rewrite <- app_assoc. reflexivity.
Qed.

Lemma collect_step_logged (errors : list R) (w : W) (l : list (string * R)) :
  collect_step (logged M) errors (w, l)
  = (fst (collect_step M errors w), (snd (collect_step M errors w), l)).
Proof.
  unfold collect_step.
  change (stat_poll (logged M) (w, l)) with (stat_poll M w, l).
  change (stat_interp_state (logged M) (stat_poll M w, l))
    with (stat_interp_state M (stat_poll M w)).
  rewrite getp_logged. destruct (getp M "pid.x.error" _) as [ex w1]. cbn [fst snd].
  rewrite getp_logged. destruct (getp M "pid.y.error" _) as [ey w2]. cbn [fst snd].
  rewrite getp_logged. destruct (getp M "pid.x.output" _) as [ox w3]. cbn [fst snd].
  rewrite getp_logged. destruct (getp M "pid.y.output" _) as [oy w4]. cbn [fst snd].
  reflexivity.
Qed.

Lemma collect_loop_logged (start timeout : R) (l : list (string * R)) :
  forall fuel errors w,
    collect_loop (logged M) fuel start timeout errors (w, l)
    = with_log l (collect_loop M fuel start timeout errors w).
Proof.
  induction fuel as [|fuel IH]; intros errors w; [reflexivity|].
  cbn [collect_loop].
  change (time_time (logged M) (w, l)) with (time_time M w).
  destruct (Rltb (time_time M w - start) timeout); [|reflexivity].
  rewrite collect_step_logged.
  destruct (collect_step M errors w) as [[errors1 stop] w1]. cbn [fst snd].
  destruct stop; [reflexivity|].
  change (time_sleep (logged M) 0.002 (w1, l)) with (time_sleep M 0.002 w1, l).
  apply IH.
Qed.

Lemma wait_ready_loop_logged (start timeout : R) (l : list (string * R)) :
  forall fuel w,
    wait_ready_loop (logged M) fuel start timeout (w, l)
    = with_log l (wait_ready_loop M fuel start timeout w).
Proof.
  induction fuel as [|fuel IH]; intros w; [reflexivity|].
  cbn [wait_ready_loop].
  change (time_time (logged M) (w, l)) with (time_time M w).
  destruct (Rltb (time_time M w - start) timeout); [|reflexivity].
  change (stat_poll (logged M) (w, l)) with (stat_poll M w, l).
  change (stat_interp_state (logged M) (stat_poll M w, l))
    with (stat_interp_state M (stat_poll M w)).
  destruct (is_idle _); [reflexivity|].
  change (time_sleep (logged M) 0.05 (stat_poll M w, l))
    with (time_sleep M 0.05 (stat_poll M w), l).
  apply IH.
Qed.

Lemma run_move_logged (self : PIDOptimizer) (x y : R) (w : W) (l : list (string * R)) :
  snd (run_move (logged M) self x y (w, l)) = (snd (run_move M self x y w), l).
Proof.
  unfold run_move. cbn [snd].
  change (stat_poll (logged M) (w, l)) with (stat_poll M w, l).
  change (stat_task_mode (logged M) (stat_poll M w, l))
    with (stat_task_mode M (stat_poll M w)).
  destruct (is_mdi _); reflexivity.
Qed.

Lemma collect_during_move_logged (self : PIDOptimizer) (fuel : nat) (x y : R) (w : W)
  (l : list (string * R)) :
  collect_during_move (logged M) self fuel x y (w, l)
  = with_log l (collect_during_move M self fuel x y w).
Proof.
  unfold collect_during_move, wait_ready, obind.
  rewrite run_move_logged.
  change (time_sleep (logged M) 0.01 (snd (run_move M self x y w), l))
    with (time_sleep M 0.01 (snd (run_move M self x y w)), l).
  change (time_time (logged M) (time_sleep M 0.01 (snd (run_move M self x y w)), l))
    with (time_time M (time_sleep M 0.01 (snd (run_move M self x y w)))).
  rewrite collect_loop_logged.
  destruct (collect_loop M fuel _ _ _ _) as [[errors w1]|]; [|reflexivity].
  cbn [with_log].
  change (time_time (logged M) (w1, l)) with (time_time M w1).
  rewrite wait_ready_loop_logged.
  destruct (wait_ready_loop M fuel _ _ _) as [[b w2]|]; reflexivity.
Qed.

Lemma sample_legs_logged (self : PIDOptimizer) (fuel : nat) (params : ParameterSet)
  (w : W) (l : list (string * R)) :
  sample_legs (logged M) self fuel params (w, l)
  = with_log (l ++ writes_of params) (sample_legs M self fuel params w).
Proof.
  unfold sample_legs, obind. rewrite apply_params_logged.
  unfold get_position.
  change (stat_poll (logged M) (apply_params M params w, l ++ writes_of params))
    with (stat_poll M (apply_params M params w), l ++ writes_of params).
  change (stat_actual_position (logged M)
            (stat_poll M (apply_params M params w), l ++ writes_of params))
    with (stat_actual_position M (stat_poll M (apply_params M params w))).
  destruct (stat_actual_position M _) as [x0 y0].
  rewrite collect_during_move_logged.
  destruct (collect_during_move M self fuel _ _ _) as [[e1 w1]|]; [|reflexivity].
  cbn [with_log].
  rewrite collect_during_move_logged.
  destruct (collect_during_move M self fuel _ _ _) as [[e2 w2]|]; reflexivity.
Qed.

Lemma evaluate_logged (self : PIDOptimizer) (fuel : nat) (params : ParameterSet)
  (w : W) (l : list (string * R)) :
  evaluate (logged M) self fuel params (w, l)
  = with_log (l ++ writes_of params) (evaluate M self fuel params w).
Proof.
  unfold evaluate, obind. rewrite sample_legs_logged.
  destruct (sample_legs M self fuel params w) as [[batch w1]|]; reflexivity.
Qed.

End Logged.

Lemma writes_within_bounds (params : ParameterSet) :
  within_bounds params <->
  Forall2 (fun write name => in_bound name (snd write)) (writes_of params) written_names.
Proof.
  unfold writes_of, written_names. split.
  - intros H. repeat (apply Forall2_cons; [apply H|]). apply Forall2_nil.
  - intros H name.
    repeat match goal with
           | H : Forall2 _ (_ :: _) (_ :: _) |- _ => inversion_clear H
           end.
    destruct name; assumption.
Qed.

(** C1, as the code has it: [evaluate] neither rejects nor clamps; the
    [hal.set_p] calls of an evaluation are exactly the ten writes of the
    proposal's own five values to the X and Y loops, and the evaluation
    returns the cost it would return unobserved.  The values applied are
    therefore within Bounds exactly when the proposal is. *)
Theorem evaluate_applies_proposal_unchanged {W : Type} (M : Machine W)
  (self : PIDOptimizer) (n : nat) (params : ParameterSet) (w : W) :
  ClockLaws M ->
  leg_timeout self < INR n * 0.002 ->
  10 < INR n * 0.05 ->
  exists cost w',
    evaluate M self (S n) params w = Some (cost, w') /\
    evaluate (logged M) self (S n) params (w, []) = Some (cost, (w', writes_of params)) /\
    (within_bounds params <->
     Forall2 (fun write name => in_bound name (snd write))
       (writes_of params) written_names).
Proof.
  intros laws Hleg Hwait.
  destruct (evaluate_returns M laws self n params w Hleg Hwait) as [cost [w' E]].
  exists cost, w'. split; [exact E|]. split; [|apply writes_within_bounds].
  rewrite evaluate_logged, E. reflexivity.
Qed.

Lemma evaluate_applies_proposal_unchanged_witness :
  exists cost t',
    evaluate (logged (steady dead_pins INTERP_READING)) init 319 nominal_proposal (0, [])
    = Some (cost, (t', writes_of nominal_proposal)).
Proof.
  destruct (evaluate_applies_proposal_unchanged (steady dead_pins INTERP_READING) init 318
              nominal_proposal 0 (steady_clock_laws dead_pins INTERP_READING)
              fuel_318_covers_leg fuel_318_covers_wait) as [cost [t' [_ [H _]]]].
  exists cost, t'. exact H.
Defined.

(** C1 as stated fails: evaluating a proposal with P = 500, above the bound
    (50, 200), sends 500 to [pid.x.Pgain]; and so does the objective adapter
    when a strategy proposes the vector (500, 50, 1) for (P, I, FF1). *)
Lemma out_of_bounds_value_is_applied :
  (exists cost t' log,
      evaluate (logged (steady dead_pins INTERP_READING)) init 319
        out_of_bounds_proposal (0, [])
      = Some (cost, (t', log)) /\
      In ("pid.x.Pgain"%string, 500) log) /\
  (exists rms s',
      objective (logged (steady dead_pins INTERP_READING)) 319
        [500; 50; 1] [KP; KI; KFF1] (mkSession init (0, []) [])
      = Some (rms, s') /\
      In ("pid.x.Pgain"%string, 500) (snd (world s'))) /\
  ~ in_bound KP 500.
Proof.
  split; [|split].
  - destruct (evaluate_returns (steady dead_pins INTERP_READING)
                (steady_clock_laws _ _) init 318 out_of_bounds_proposal 0
                fuel_318_covers_leg fuel_318_covers_wait) as [cost [t' E]].
    exists cost, t', (writes_of out_of_bounds_proposal).
    split; [rewrite evaluate_logged, E; reflexivity|].
    left. reflexivity.
  - unfold objective.
    change (get_current_params (logged (steady dead_pins INTERP_READING))
              (world (mkSession init (0, []) [])))
      with (fun k : pname => match k with KP | KI | KD | KFF1 | KFF2 => 0 end,
            (0, @nil (string * R))).
    cbn beta iota. cbn [opt].
    match goal with
    | |- context [evaluate _ init 319 ?p (0, [])] =>
        destruct (evaluate_returns (steady dead_pins INTERP_READING)
                    (steady_clock_laws _ _) init 318 p 0
                    fuel_318_covers_leg fuel_318_covers_wait) as [cost [t' E]];
        rewrite (evaluate_logged (steady dead_pins INTERP_READING) init 319 p 0 []), E
    end.
    cbn [with_log obind]. eexists. eexists. split; [reflexivity|].
    cbn [world snd]. left. reflexivity.
  - unfold in_bound. simpl. lra.
Qed.

(** ** The result tracker *)

Lemma best_rms_track (self : PIDOptimizer) (params : ParameterSet) (rms : R) :
  best_rms (track self params rms) = Rmin (best_rms self) rms.
Proof.
  unfold track. destruct (Rlt_dec rms (best_rms self)) as [Hlt|Hge].
  - rewrite (Rltb_true _ _ Hlt). simpl. rewrite Rmin_right; lra.
  - rewrite Rltb_false by lra. simpl. rewrite Rmin_left; lra.
Qed.

Lemma track_lower (self : PIDOptimizer) (params : ParameterSet) (rms : R) :
  rms < best_rms self ->
  best_rms (track self params rms) = rms /\
  best_params (track self params rms) = Some params.
Proof. intros H. unfold track. rewrite (Rltb_true _ _ H). split; reflexivity. Qed.

Lemma track_not_lower (self : PIDOptimizer) (params : ParameterSet) (rms : R) :
  best_rms self <= rms ->
  best_rms (track self params rms) = best_rms self /\
  best_params (track self params rms) = best_params self.
Proof. intros H. unfold track. rewrite (Rltb_false _ _ H). split; reflexivity. Qed.

Lemma eval_count_track (self : PIDOptimizer) (params : ParameterSet) (rms : R) :
  eval_count (track self params rms) = S (eval_count self).
Proof. unfold track. destruct (Rltb rms (best_rms self)); reflexivity. Qed.

Lemma leg_timeout_track (self : PIDOptimizer) (params : ParameterSet) (rms : R) :
  leg_timeout (track self params rms) = leg_timeout self.
Proof. unfold track. destruct (Rltb rms (best_rms self)); reflexivity. Qed.

Lemma least_Rmin (costs : list R) : forall a c, least (Rmin a c) costs = Rmin a (least c costs).
Proof.
  unfold least. induction costs as [|x costs IH]; intros a c; [reflexivity|].
  cbn [fold_left]. rewrite <- IH. f_equal. symmetry. apply Rmin_assoc.
Qed.

Lemma least_le_start (costs : list R) : forall c, least c costs <= c.
Proof.
  unfold least. induction costs as [|x costs IH]; intros c; [simpl; lra|].
  cbn [fold_left]. apply Rle_trans with (Rmin c x); [apply IH | apply Rmin_l].
Qed.

Lemma least_le_each (costs : list R) : forall c x, In x costs -> least c costs <= x.
Proof.
  induction costs as [|y costs IH]; intros c x Hin; [contradiction|].
  change (least (Rmin c y) costs <= x).
  destruct Hin as [<-|Hin].
  - apply Rle_trans with (Rmin c y); [apply least_le_start | apply Rmin_r].
  - apply IH, Hin.
Qed.

Lemma record_all_best (records : list (ParameterSet * R)) :
  forall self,
    best_rms (record_all self records) = least (best_rms self) (map snd records).
Proof.
  unfold record_all, least.
  induction records as [|r records IH]; intros self; [reflexivity|].
  cbn [fold_left map]. rewrite IH, best_rms_track. reflexivity.
Qed.

Lemma record_all_count (records : list (ParameterSet * R)) :
  forall self,
    eval_count (record_all self records) = (eval_count self + length records)%nat.
Proof.
  unfold record_all.
  induction records as [|r records IH]; intros self; [simpl; lia|].
  cbn [fold_left length]. rewrite IH, eval_count_track. lia.
Qed.

Lemma record_all_never_regresses (records : list (ParameterSet * R)) (self : PIDOptimizer) :
  best_rms (record_all self records) <= best_rms self.
Proof. rewrite record_all_best. apply least_le_start. Qed.

(** The best parameters are those of a recorded pair achieving the best
    cost, as soon as some record lowered the cost. *)
Lemma record_all_best_params (records : list (ParameterSet * R)) :
  forall self,
    (best_rms (record_all self records) = best_rms self ->
     best_params (record_all self records) = best_params self) /\
    (best_rms (record_all self records) < best_rms self ->
     exists p, best_params (record_all self records) = Some p /\
               In (p, best_rms (record_all self records)) records).
Proof.
  induction records as [|[p c] records IH]; intros self.
  - split; [reflexivity | simpl; lra].
  - change (record_all self ((p, c) :: records))
      with (record_all (track self p c) records).
    destruct (IH (track self p c)) as [Hsame Hlower].
    pose proof (record_all_never_regresses records (track self p c)) as Hle.
    destruct (Rlt_dec c (best_rms self)) as [Hlt|Hge].
    + destruct (track_lower self p c Hlt) as [Hb Hp].
      split; [intros E; lra|]. intros _.
      destruct (Rlt_dec (best_rms (record_all (track self p c) records))
                  (best_rms (track self p c))) as [Hl|Hl].
      * destruct (Hlower Hl) as [q [Hq Hin]]. exists q. split; [exact Hq | right; exact Hin].
      * assert (E : best_rms (record_all (track self p c) records)
                    = best_rms (track self p c)) by lra.
        exists p. split; [rewrite (Hsame E); exact Hp|].
        left. rewrite E, Hb. reflexivity.
    + destruct (track_not_lower self p c) as [Hb Hp]; [lra|].
      rewrite Hb in *. rewrite Hp in *. split; [exact Hsame|].
      intros Hl. destruct (Hlower Hl) as [q [Hq Hin]].
      exists q. split; [exact Hq | right; exact Hin].
Qed.

Lemma best_rms_reset (self : PIDOptimizer) : best_rms (reset self) = 999.
Proof. reflexivity. Qed.

Lemma five_records_best : best_rms (record_all (reset init) five_records) = 10.
Proof.
  rewrite record_all_best, best_rms_reset. unfold five_records, least.
  cbn [map snd fold_left].
  rewrite (Rmin_right 999 50), (Rmin_right 50 30), (Rmin_left 30 45),
    (Rmin_right 30 10), (Rmin_left 10 20) by lra.
  reflexivity.
Qed.

(** ** The run: what the strategies record and what is printed *)




Section RunFacts.

Context {W : Type} (M : Machine W) (scipy : Scipy) (fuel : nat).

Lemma objective_spec (x : list R) (names : list pname) (s : Session W)
  (rms : R) (s' : Session W) :
  objective M fuel x names s = Some (rms, s') ->
  exists params line,
    opt s' = track (opt s) params rms /\
    console s' = console s ++ [line] /\
    progress_of line (params, rms).
Proof.
  unfold objective, obind.
  destruct (get_current_params M (world s)) as [current w0].
  destruct (evaluate M (opt s) fuel _ w0) as [[c w1]|] eqn:E; [|discriminate].
  intros H. injection H as <- <-.
  eexists. eexists. cbn [opt console].
  split; [reflexivity|]. split; [reflexivity|].
  unfold progress_of. eexists. eexists. eexists. eexists. reflexivity.
Qed.










Lemma print_normal (line : output) (s : Session W) (r : py unit) (s1 : Session W) :
  print line s = Some (r, s1) ->
  r = Normal tt /\ s1 = mkSession (opt s) (world s) (console s ++ [line]).
Proof. unfold print. intros H. inversion H. split; reflexivity. Qed.

(** How [save_to_hal] ends: with [KeyError] on an empty dict, with the
    confirmation after a successful write, with [OSError] after a failed
    one. *)
Lemma save_to_hal_inv (params : option ParameterSet) (rms : R) (s : Session W)
  (out : py unit) (s' : Session W) :
  save_to_hal M params rms s = Some (out, s') ->
  (params = None /\ out = Exception /\ s' = s) \/
  (exists p,
      params = Some p /\
      ((fst (file_write M hal_file rms p (world s)) = Returns tt /\
        out = Normal tt /\
        s' = mkSession (opt s) (snd (file_write M hal_file rms p (world s)))
               (console s ++ [OutSaved p rms])) \/
       (fst (file_write M hal_file rms p (world s)) = Raises /\
        out = Exception /\
        s' = mkSession (opt s) (snd (file_write M hal_file rms p (world s)))
               (console s)))).
Proof.
  unfold save_to_hal. destruct params as [p|]; intros H.
  - right. exists p. split; [reflexivity|].
    destruct (file_write M hal_file rms p (world s)) as [[[]|] w1]; cbn [fst snd].
    + left. unfold print in H. cbn [opt world console] in H. inversion H.
      split; [reflexivity|]. split; reflexivity.
    + right. inversion H. split; [reflexivity|]. split; reflexivity.
  - left. unfold raise in H. inversion H. split; [reflexivity|]. split; reflexivity.
Qed.


End RunFacts.

(** *** A run on the steady machine, interrupted after three evaluations *)

Lemma steady_current (err : R) (state : interp_state) (t : R) :
  get_current_params (steady (moving_pins err) state) t = (nominal_proposal, t).
Proof. reflexivity. Qed.

Lemma steady_objective (err : R) (state : interp_state) (x : list R) (names : list pname)
  (s : Session R) :
  0 <= err ->
  leg_timeout (opt s) = 0.635 ->
  exists params s',
    objective (steady (moving_pins err) state) 319 x names s = Some (err * 1000, s') /\
    opt s' = track (opt s) params (err * 1000).
Proof.
  intros Herr Hleg. unfold objective. rewrite steady_current.
  match goal with
  | |- context [evaluate _ _ _ ?p ?t] =>
      destruct (steady_moving_evaluate err state (opt s) p t Herr Hleg) as [t' E];
      exists p
  end.
  rewrite E. cbn [obind]. eexists. split; reflexivity.
Qed.

Lemma pbind_print {W B : Type} (line : output) (k : unit -> Prog W B) (s : Session W) :
  pbind (print line) k s = k tt (mkSession (opt s) (world s) (console s ++ [line])).
Proof. reflexivity. Qed.




(** C4 as stated fails: after recording the single cost 1500 the tracked
    best cost is still the initial 999, not the minimum 1500 of the recorded
    costs; an objective call on a machine with a steady following error of
    1.5 mm records exactly that. *)
Lemma best_stays_sentinel_above_999 :
  minimum (map snd [(nominal_proposal, 1500)]) = Some 1500 /\
  best_rms (record_all (reset init) [(nominal_proposal, 1500)]) = 999 /\
  Some (best_rms (record_all (reset init) [(nominal_proposal, 1500)]))
  <> minimum (map snd [(nominal_proposal, 1500)]) /\
  exists s',
    objective (steady (moving_pins 1.5) INTERP_READING) 319 [100; 50; 1] [KP; KI; KFF1]
      (mkSession (reset init) 0 [])
    = Some (1500, s') /\
    best_rms (opt s') = 999 /\
    best_params (opt s') = None.
Proof.
  assert (E : best_rms (record_all (reset init) [(nominal_proposal, 1500)]) = 999).
  { rewrite record_all_best, best_rms_reset. unfold least. cbn [map snd fold_left].
    apply Rmin_left. lra. }
  split; [reflexivity|]. split; [exact E|].
  split.
  { rewrite E. cbn [map snd minimum least fold_left]. intros H. injection H as H. lra. }
  destruct (steady_objective 1.5 INTERP_READING [100; 50; 1] [KP; KI; KFF1]
              (mkSession (reset init) 0 []))
    as [params [s' [Eo Ho]]]; [lra | exact leg_timeout_init |].
  exists s'. replace (1.5 * 1000) with 1500 in * by lra.
  split; [exact Eo|].
  destruct (track_not_lower (reset init) params 1500) as [Hb Hp];
    [rewrite best_rms_reset; lra|].
  cbn [opt] in Ho. rewrite Ho. split; [exact Hb | exact Hp].
Qed.

(** C4, as the code has it: every objective call records its cost with
    [track]; recording never raises the tracked best cost and replaces the
    best only on a strictly lower cost; after any sequence the
    best cost is the least of its starting value (999 after the reset of a
    strategy) and the recorded costs, hence the minimum of the recorded costs
    as soon as one of them is below the starting value; the costs
    50, 30, 45, 10, 20 leave 10. *)
Theorem best_is_least_of_start_and_costs (self : PIDOptimizer)
  (records : list (ParameterSet * R)) :
  (forall W (M : Machine W) fuel x names (s : Session W) rms s',
      opt s = self ->
      objective M fuel x names s = Some (rms, s') ->
      exists params, opt s' = track self params rms) /\
  (forall params rms,
      best_rms (track self params rms) <= best_rms self /\
      (rms < best_rms self ->
       best_rms (track self params rms) = rms /\
       best_params (track self params rms) = Some params) /\
      (best_rms self <= rms ->
       best_rms (track self params rms) = best_rms self /\
       best_params (track self params rms) = best_params self)) /\
  best_rms (record_all self records) <= best_rms self /\
  best_rms (record_all self records) = least (best_rms self) (map snd records) /\
  best_rms (record_all (reset self) records) = least 999 (map snd records) /\
  ((exists c, In c (map snd records) /\ c < best_rms self) ->
   Some (best_rms (record_all self records)) = minimum (map snd records) /\
   exists p, best_params (record_all self records) = Some p /\
             In (p, best_rms (record_all self records)) records) /\
  best_rms (record_all (reset init) five_records) = 10.
Proof.
  split.
  { intros W M fuel x names s rms s' <- H.
    destruct (objective_spec M fuel x names s rms s' H) as [params [_ [Ho _]]].
    exists params. exact Ho. }
  split.
  { intros params rms. split; [rewrite best_rms_track; apply Rmin_l|].
    split; [apply track_lower | apply track_not_lower]. }
  split; [apply record_all_never_regresses|].
  split; [apply record_all_best|].
  split; [rewrite record_all_best; reflexivity|].
  split; [|exact five_records_best].
  intros [c [Hin Hc]].
  assert (Hlow : best_rms (record_all self records) < best_rms self).
  { rewrite record_all_best.
    apply Rle_lt_trans with c; [apply least_le_each, Hin | exact Hc]. }
  split; [|apply record_all_best_params, Hlow].
  rewrite record_all_best in *.
  destruct (map snd records) as [|c0 costs]; [contradiction|].
  cbn [minimum]. f_equal.
  change (least (best_rms self) (c0 :: costs)) with (least (Rmin (best_rms self) c0) costs) in *.
  rewrite least_Rmin in *. apply Rmin_right.
  destruct (Rle_dec (least c0 costs) (best_rms self)) as [H|H]; [exact H|].
  rewrite Rmin_left in Hlow; lra.
Qed.

Lemma best_is_least_of_start_and_costs_witness :
  Some (best_rms (record_all (reset init) five_records)) = minimum (map snd five_records).
Proof.
  apply (proj2 (best_is_least_of_start_and_costs (reset init) five_records)).
  exists 50. split; [left; reflexivity | simpl; lra].
Defined.




(** ** Further properties of the cost of a batch *)

Lemma square_abs (x : R) : Rabs x * Rabs x = x * x.
Proof. unfold Rabs. destruct (Rcase_abs x); ring. Qed.

Lemma sum_square_between (m M : R) (l : list R) :
  0 <= m ->
  (forall x, In x l -> m <= Rabs x <= M) ->
  INR (length l) * (m * m) <= np.sum (np.square l) <= INR (length l) * (M * M).
Proof.
  intros Hm. induction l as [|a l IH]; intros H.
  - simpl. lra.
  - change (np.sum (np.square (a :: l))) with (a * a + np.sum (np.square l)).
    change (length (a :: l)) with (S (length l)). rewrite S_INR.
    destruct IH as [IH1 IH2]; [intros x Hx; apply H; right; exact Hx|].
    destruct (H a (or_introl eq_refl)) as [Ha1 Ha2].
    rewrite <- (square_abs a). split; nra.
Qed.

Lemma rms_between (m M : R) (batch : list R) :
  batch <> [] ->
  0 <= m ->
  (forall x, In x batch -> m <= Rabs x <= M) ->
  m <= rms_of batch <= M.
Proof.
  intros Hne Hm H.
  assert (Hn : 0 < INR (length batch)).
  { destruct batch; [congruence|]. apply lt_0_INR. simpl. lia. }
  assert (HM : m <= M).
  { destruct batch as [|a l]; [congruence|].
    destruct (H a (or_introl eq_refl)). lra. }
  destruct (sum_square_between m M batch Hm H) as [H1 H2].
  unfold rms_of, np.mean.
  replace (length (np.square batch)) with (length batch)
    by (unfold np.square; rewrite length_map; reflexivity).
  set (n := INR (length batch)) in *. set (q := np.sum (np.square batch)) in *.
  split.
  - apply Rle_trans with (sqrt (m * m)); [rewrite sqrt_square; lra|].
    apply sqrt_le_1_alt.
    apply Rmult_le_reg_r with n; [exact Hn|].
    replace (q / n * n) with q by (field; lra). lra.
  - apply Rle_trans with (sqrt (M * M)); [|rewrite sqrt_square; lra].
    apply sqrt_le_1_alt.
    apply Rmult_le_reg_r with n; [exact Hn|].
    replace (q / n * n) with q by (field; lra). lra.
Qed.

(** X1: the RMS of a non-empty batch lies between the least and the largest
    magnitude of its samples, so the cost lies between the least magnitude
    and twice the largest. *)
Theorem cost_between_least_and_twice_largest (m M : R) (batch : list R) :
  batch <> [] ->
  0 <= m ->
  (forall x, In x batch -> m <= Rabs x <= M) ->
  m <= rms_of batch <= M /\ m <= batch_cost batch <= 2 * M.
Proof.
  intros Hne Hm H.
  pose proof (rms_between m M batch Hne Hm H) as Hrms.
  split; [exact Hrms|].
  destruct batch as [|a l]; [congruence|].
  rewrite batch_cost_cons. destruct (oscillating (a :: l)); lra.
Qed.

Lemma cost_between_least_and_twice_largest_witness :
  3 <= batch_cost [3; -4] <= 2 * 4.
Proof.
  apply (cost_between_least_and_twice_largest 3 4 [3; -4]).
  - discriminate.
  - lra.
  - intros x [<-|[<-|[]]].
    + rewrite Rabs_pos_eq by lra. lra.
    + rewrite Rabs_left by lra. lra.
Defined.

Lemma sum_square_permutation (l l' : list R) :
  Permutation l l' -> np.sum (np.square l) = np.sum (np.square l').
Proof.
  induction 1 as [|x l l' _ IH|x y l|l l' l'' _ IH1 _ IH2].
  - reflexivity.
  - change (x * x + np.sum (np.square l) = x * x + np.sum (np.square l')). lra.
  - change (y * y + (x * x + np.sum (np.square l))
            = x * x + (y * y + np.sum (np.square l))). lra.
  - lra.
Qed.

(** X2: the RMS does not depend on the order of the samples; reordering a
    batch can change its cost only through the oscillation penalty, so by a
    factor of at most 2. *)
Theorem rms_ignores_sample_order (batch batch' : list R) :
  Permutation batch batch' ->
  rms_of batch = rms_of batch' /\
  batch_cost batch <= 2 * batch_cost batch' /\
  batch_cost batch' <= 2 * batch_cost batch.
Proof.
  intros HP.
  assert (Hrms : rms_of batch = rms_of batch').
  { unfold rms_of, np.mean. rewrite (sum_square_permutation _ _ HP).
    unfold np.square at 2 4. rewrite !length_map, (Permutation_length HP). reflexivity. }
  split; [exact Hrms|].
  pose proof (rms_nonneg batch') as Hpos.
  destruct batch as [|a l]; destruct batch' as [|b m].
  - unfold batch_cost, SENTINEL. lra.
  - apply Permutation_nil in HP. discriminate HP.
  - apply Permutation_sym, Permutation_nil in HP. discriminate HP.
  - rewrite !batch_cost_cons, Hrms.
    destruct (oscillating (a :: l)), (oscillating (b :: m)); lra.
Qed.

Lemma rms_ignores_sample_order_witness :
  rms_of [1; 2; 3] = rms_of [3; 1; 2].
Proof.
  apply (rms_ignores_sample_order [1; 2; 3] [3; 1; 2]).
  apply Permutation_sym, (Permutation_cons_app [1; 2] [] 3). reflexivity.
Defined.

Lemma sign_change_count_constant (c : sgn) (d : list R) :
  Forall (fun x => sgn_of x = c) d -> sign_change_count d = 0%nat.
Proof.
  induction d as [|a d IH]; intros H; [reflexivity|].
  destruct d as [|b d]; [reflexivity|].
  apply Forall_cons_iff in H. destruct H as [Ha Hrest].
  pose proof (proj1 (proj1 (Forall_cons_iff _ _ _) Hrest)) as Hb.
  change (((if sgn_eqb (sgn_of a) (sgn_of b) then 0 else 1)
           + sign_change_count (b :: d))%nat = 0%nat).
  rewrite (IH Hrest), Ha, Hb. destruct c; reflexivity.
Qed.

(** X3: a batch whose consecutive differences all have the same sign class
    (all rising, all falling, or all level) is never penalised, whatever its
    length: its cost is its RMS. *)
Theorem one_way_batch_is_not_penalised (c : sgn) (batch : list R) :
  batch <> [] ->
  Forall (fun d => sgn_of d = c) (np.diff batch) ->
  oscillating batch = false /\ batch_cost batch = rms_of batch.
Proof.
  intros Hne H.
  assert (Hosc : oscillating batch = false).
  { unfold oscillating. rewrite sign_changes_count, (sign_change_count_constant c _ H).
    unfold Rgtb. rewrite Rltb_false, andb_false_r; [reflexivity|].
    pose proof (pos_INR (length (np.diff batch))). change (INR 0) with 0. lra. }
  split; [exact Hosc|].
  destruct batch as [|a l]; [congruence|]. rewrite batch_cost_cons, Hosc. reflexivity.
Qed.

Lemma one_way_batch_is_not_penalised_witness :
  batch_cost [1; 2; 4] = rms_of [1; 2; 4].
Proof.
  apply (one_way_batch_is_not_penalised Pos [1; 2; 4]).
  - discriminate.
  - cbn [np.diff]. repeat (apply Forall_cons; [unfold sgn_of; decide_reals; reflexivity|]).
    apply Forall_nil.
Defined.

Lemma diff_length (l : list R) : length (np.diff l) = pred (length l).
Proof.
  induction l as [|a l IH]; [reflexivity|].
  destruct l as [|b l]; [reflexivity|].
  change (S (length (np.diff (b :: l))) = S (length l)). rewrite IH. reflexivity.
Qed.

Lemma sign_change_count_always (d : list R) :
  always_changes d -> sign_change_count d = pred (length d).
Proof.
  induction d as [|a d IH]; intros H; [reflexivity|].
  destruct d as [|b d]; [reflexivity|].
  destruct H as [Hab Hrest].
  change (((if sgn_eqb (sgn_of a) (sgn_of b) then 0 else 1)
           + sign_change_count (b :: d))%nat = S (length d)).
  rewrite (IH Hrest).
  destruct (sgn_of a), (sgn_of b); simpl; congruence.
Qed.

(** X4: a batch of more than 20 samples whose first difference changes sign
    class at every step is penalised (its cost is twice its RMS).  A change
    between zero and positive counts: a rising staircase, which never
    reverses, is penalised like an oscillation. *)
Theorem ever_changing_batch_is_penalised (batch : list R) :
  (20 < length batch)%nat ->
  always_changes (np.diff batch) ->
  oscillating batch = true /\ batch_cost batch = 2 * rms_of batch.
Proof.
  intros Hlen H.
  assert (Hosc : oscillating batch = true).
  { apply oscillating_iff. split; [exact Hlen|].
    rewrite (sign_change_count_always _ H), diff_length.
    destruct (length batch) as [|[|n]]; [lia | lia |].
    cbn [pred]. rewrite S_INR.
    assert (19 <= INR n).
    { replace 19 with (INR 19) by (rewrite INR_IZR_INZ; reflexivity).
      apply le_INR. lia. }
    lra. }
  split; [exact Hosc|].
  destruct batch as [|a l]; [simpl in Hlen; lia|].
  rewrite batch_cost_cons, Hosc. ring.
Qed.

Lemma staircase_diff_changes (steps : nat) :
  forall level,
    always_changes (np.diff (staircase_from level steps)) /\
    (forall next rest, np.diff (staircase_from level steps) = next :: rest ->
                       sgn_of next = Zero).
Proof.
  induction steps as [|steps IH]; intros level.
  - split; [exact Logic.I | discriminate].
  - destruct (IH (level + 1)) as [Hrest Hhead].
    assert (Hz : sgn_of (level - level) = Zero).
    { unfold sgn_of. decide_reals. reflexivity. }
    cbn [staircase_from]. destruct steps as [|steps].
    + cbn [staircase_from np.diff]. split; [exact Logic.I|].
      intros next rest E. injection E as <- _. exact Hz.
    + cbn [staircase_from] in *.
      change (np.diff (level :: level :: (level + 1) :: (level + 1)
                         :: staircase_from (level + 1 + 1) steps))
        with ((level - level) :: (level + 1 - level)
                :: np.diff ((level + 1) :: (level + 1)
                              :: staircase_from (level + 1 + 1) steps)).
      assert (Hp : sgn_of (level + 1 - level) = Pos).
      { unfold sgn_of. decide_reals. reflexivity. }
      split.
      * split; [rewrite Hz, Hp; discriminate|].
        change (np.diff ((level + 1) :: (level + 1)
                           :: staircase_from (level + 1 + 1) steps))
          with ((level + 1 - (level + 1))
                  :: np.diff ((level + 1) :: staircase_from (level + 1 + 1) steps)) in *.
        split; [|exact Hrest].
        rewrite Hp, (Hhead _ _ eq_refl). discriminate.
      * intros next rest E. injection E as <- _. exact Hz.
Qed.

Lemma ever_changing_batch_is_penalised_witness :
  batch_cost (staircase_from 0 11) = 2 * rms_of (staircase_from 0 11).
Proof.
  apply (ever_changing_batch_is_penalised (staircase_from 0 11)).
  - simpl. lia.
  - apply staircase_diff_changes.
Defined.

(** ** Further properties of the sampler and the evaluator *)

Section SampleInvariant.

Context {W : Type} (M : Machine W).
Variable P : R -> Prop.
Hypothesis step_keeps :
  forall errors w,
    fst (fst (collect_step M errors w)) = errors \/
    exists sample, P sample /\ fst (fst (collect_step M errors w)) = errors ++ [sample].

Lemma collect_loop_keeps (start timeout : R) :
  forall fuel errors w errors' w',
    Forall P errors ->
    collect_loop M fuel start timeout errors w = Some (errors', w') ->
    Forall P errors'.
Proof.
  induction fuel as [|fuel IH]; intros errors w errors' w' HP H; [discriminate H|].
  cbn [collect_loop] in H.
  destruct (Rltb (time_time M w - start) timeout); [|injection H as <- _; exact HP].
  pose proof (step_keeps errors w) as Hs.
  destruct (collect_step M errors w) as [[errors1 stop] w1]. cbn [fst] in Hs.
  assert (HP1 : Forall P errors1).
  { destruct Hs as [->|[sample [Hsample ->]]]; [exact HP|].
    apply Forall_app. split; [exact HP|]. constructor; [exact Hsample | constructor]. }
  destruct stop; [injection H as <- _; exact HP1|].
  apply (IH _ _ _ _ HP1 H).
Qed.

Lemma collect_during_move_keeps (self : PIDOptimizer) (fuel : nat) (x y : R) (w : W)
  (errors : list R) (w' : W) :
  collect_during_move M self fuel x y w = Some (errors, w') -> Forall P errors.
Proof.
  unfold collect_during_move, obind. intros H.
  destruct (collect_loop M fuel _ _ _ _) as [[errors1 w1]|] eqn:E1; [|discriminate].
  apply collect_loop_keeps in E1; [|constructor].
  destruct (wait_ready M fuel 10 w1) as [[b w2]|]; [|discriminate].
  injection H as <- _. exact E1.
Qed.

Lemma sample_legs_keeps (self : PIDOptimizer) (fuel : nat) (params : ParameterSet) (w : W)
  (batch : list R) (w' : W) :
  sample_legs M self fuel params w = Some (batch, w') -> Forall P batch.
Proof.
  unfold sample_legs, obind.
  destruct (get_position M _) as [[x0 y0] w0]. intros H.
  destruct (collect_during_move M self fuel _ _ w0) as [[e1 w1]|] eqn:E1; [|discriminate].
  apply collect_during_move_keeps in E1.
  destruct (collect_during_move M self fuel _ _ w1) as [[e2 w2]|] eqn:E2; [|discriminate].
  apply collect_during_move_keeps in E2.
  injection H as <- _. simpl. apply Forall_app. split; assumption.
Qed.

End SampleInvariant.

Lemma collect_step_gate_shut {W : Type} (M : Machine W) (a b : R) :
  a + b <= 5 ->
  (forall w, Rabs (fst (getp M "pid.x.output" w)) <= a) ->
  (forall w, Rabs (fst (getp M "pid.y.output" w)) <= b) ->
  forall errors w, fst (fst (collect_step M errors w)) = errors.
Proof.
  intros Hab Hx Hy errors w. unfold collect_step.
  destruct (getp M "pid.x.error" _) as [ex w1].
  destruct (getp M "pid.y.error" _) as [ey w2].
  pose proof (Hx w2) as H1.
  destruct (getp M "pid.x.output" _) as [ox w3].
  pose proof (Hy w3) as H2.
  destruct (getp M "pid.y.output" _) as [oy w4].
  cbn [fst] in *. unfold Rgtb. rewrite Rltb_false by lra. reflexivity.
Qed.

(** X5: if the commanded outputs never add up to more than 5 (the activity
    gate), no sample is ever taken, whatever the following errors read, and
    [evaluate] returns the sentinel 999. *)
Theorem quiet_outputs_yield_sentinel {W : Type} (M : Machine W)
  (self : PIDOptimizer) (n : nat) (params : ParameterSet) (w : W) (a b : R) :
  ClockLaws M ->
  leg_timeout self < INR n * 0.002 ->
  10 < INR n * 0.05 ->
  a + b <= 5 ->
  (forall w0, Rabs (fst (getp M "pid.x.output" w0)) <= a) ->
  (forall w0, Rabs (fst (getp M "pid.y.output" w0)) <= b) ->
  exists w',
    sample_legs M self (S n) params w = Some ([], w') /\
    evaluate M self (S n) params w = Some (999, w').
Proof.
  intros laws Hleg Hwait Hab Hx Hy.
  destruct (sample_legs_returns M laws self n params w Hleg Hwait) as [batch [w' [E _]]].
  assert (Hb : Forall (fun _ => False) batch).
  { apply (sample_legs_keeps M (fun _ => False)) with (1 := fun errors w0 =>
      or_introl (collect_step_gate_shut M a b Hab Hx Hy errors w0)) in E. exact E. }
  destruct batch as [|x batch]; [|inversion Hb; contradiction].
  exists w'. split; [exact E|].
  apply (evaluate_is_cost_of_batch M self (S n) params w [] w' E).
Qed.

Lemma quiet_outputs_yield_sentinel_witness :
  exists t',
    evaluate (steady (resting_pins 0.3) INTERP_READING)
      init 319 nominal_proposal 0
    = Some (999, t').
Proof.
  destruct (quiet_outputs_yield_sentinel
              (steady (resting_pins 0.3) INTERP_READING)
              init 318 nominal_proposal 0 2 2 (steady_clock_laws _ _)
              fuel_318_covers_leg fuel_318_covers_wait) as [t' [_ E]].
  - lra.
  - intros w0. change (Rabs 2 <= 2). rewrite Rabs_pos_eq; lra.
  - intros w0. change (Rabs 2 <= 2). rewrite Rabs_pos_eq; lra.
  - exists t'. exact E.
Defined.

Lemma collect_step_bounded {W : Type} (M : Machine W) (e : R) :
  (forall w, Rabs (fst (getp M "pid.x.error" w)) <= e) ->
  (forall w, Rabs (fst (getp M "pid.y.error" w)) <= e) ->
  forall errors w,
    fst (fst (collect_step M errors w)) = errors \/
    exists sample,
      0 <= sample <= e * 1000 /\
      fst (fst (collect_step M errors w)) = errors ++ [sample].
Proof.
  intros Hx Hy errors w. unfold collect_step.
  pose proof (Hx (stat_poll M w)) as H1.
  destruct (getp M "pid.x.error" _) as [ex w1].
  pose proof (Hy w1) as H2.
  destruct (getp M "pid.y.error" _) as [ey w2].
  destruct (getp M "pid.x.output" _) as [ox w3].
  destruct (getp M "pid.y.output" _) as [oy w4].
  cbn [fst] in *. destruct (Rgtb _ 5); [right | left; reflexivity].
  eexists. split; [|reflexivity].
  rewrite !Rabs_mult, (Rabs_pos_eq 1000) by lra.
  pose proof (Rabs_pos ex). pose proof (Rabs_pos ey).
  split.
  - apply Rle_trans with (Rabs ex * 1000); [nra | apply Rmax_l].
  - apply Rmax_lub; nra.
Qed.

(** X6: if the following error read on either axis never exceeds [e] mm in
    magnitude, every sample lies between 0 and [1000 e] microns, and
    [evaluate] returns either the sentinel 999 (no sample) or a cost between
    0 and [2000 e]. *)
Theorem bounded_error_bounds_cost {W : Type} (M : Machine W)
  (self : PIDOptimizer) (n : nat) (params : ParameterSet) (w : W) (e : R) :
  ClockLaws M ->
  leg_timeout self < INR n * 0.002 ->
  10 < INR n * 0.05 ->
  (forall w0, Rabs (fst (getp M "pid.x.error" w0)) <= e) ->
  (forall w0, Rabs (fst (getp M "pid.y.error" w0)) <= e) ->
  exists batch cost w',
    sample_legs M self (S n) params w = Some (batch, w') /\
    evaluate M self (S n) params w = Some (cost, w') /\
    Forall (fun sample => 0 <= sample <= e * 1000) batch /\
    (batch = [] /\ cost = 999 \/ batch <> [] /\ 0 <= cost <= 2 * (e * 1000)).
Proof.
  intros laws Hleg Hwait Hx Hy.
  destruct (sample_legs_returns M laws self n params w Hleg Hwait) as [batch [w' [E _]]].
  pose proof (sample_legs_keeps M (fun sample => 0 <= sample <= e * 1000)
                (collect_step_bounded M e Hx Hy) self (S n) params w batch w' E) as Hb.
  exists batch, (batch_cost batch), w'.
  split; [exact E|]. split; [apply evaluate_is_cost_of_batch, E|]. split; [exact Hb|].
  destruct batch as [|a l]; [left; split; [reflexivity | apply sentinel_not_zero]|].
  right. split; [discriminate|].
  assert (Hrms : 0 <= rms_of (a :: l) <= e * 1000).
  { apply rms_between; [discriminate | lra |].
    intros x Hin. rewrite Forall_forall in Hb. specialize (Hb x Hin).
    rewrite Rabs_pos_eq; lra. }
  rewrite batch_cost_cons. destruct (oscillating (a :: l)); lra.
Qed.

Lemma bounded_error_bounds_cost_witness :
  exists (batch : list R) cost t',
    evaluate (steady (moving_pins 0.05) INTERP_READING) init 319 nominal_proposal 0
    = Some (cost, t') /\
    (batch = [] /\ cost = 999 \/ batch <> [] /\ 0 <= cost <= 2 * (0.05 * 1000)).
Proof.
  destruct (bounded_error_bounds_cost (steady (moving_pins 0.05) INTERP_READING)
              init 318 nominal_proposal 0 0.05 (steady_clock_laws _ _)
              fuel_318_covers_leg fuel_318_covers_wait)
    as [batch [cost [t' [_ [E [_ H]]]]]].
  - intros w0. change (Rabs 0.05 <= 0.05). rewrite Rabs_pos_eq; lra.
  - intros w0. change (Rabs 0 <= 0.05). rewrite Rabs_R0. lra.
  - exists batch, cost, t'. split; [exact E | exact H].
Defined.

(** X7: when the interpreter already reports idle and the outputs add up to
    less than 1, each sampling loop stops on its first pass without a sample
    and [wait_ready] succeeds on its first poll: one pass per loop is enough
    and [evaluate] returns the sentinel 999.  A move that has not visibly
    started by the first poll therefore yields no data. *)
Theorem idle_at_rest_yields_sentinel_at_once {W : Type} (M : Machine W)
  (self : PIDOptimizer) (params : ParameterSet) (w : W) (a b : R) :
  (forall w0, is_idle (stat_interp_state M w0) = true) ->
  a + b < 1 ->
  (forall w0, Rabs (fst (getp M "pid.x.output" w0)) <= a) ->
  (forall w0, Rabs (fst (getp M "pid.y.output" w0)) <= b) ->
  exists w', evaluate M self 1 params w = Some (999, w').
Proof.
  intros Hidle Hab Hx Hy.
  assert (Hleg : forall x y w0, exists w', collect_during_move M self 1 x y w0 = Some ([], w')).
  { intros x y w0. unfold collect_during_move, wait_ready, obind.
    set (w1 := time_sleep M 0.01 (snd (run_move M self x y w0))).
    assert (Hloop : exists w2, collect_loop M 1 (time_time M w1) (leg_timeout self) [] w1
                               = Some ([], w2)).
    { cbn [collect_loop].
      destruct (Rltb (time_time M w1 - time_time M w1) (leg_timeout self));
        [|exists w1; reflexivity].
      pose proof (collect_step_gate_shut M a b ltac:(lra) Hx Hy [] w1) as Hs.
      unfold collect_step in *. rewrite Hidle.
      destruct (getp M "pid.x.error" _) as [ex u1].
      destruct (getp M "pid.y.error" _) as [ey u2].
      pose proof (Hx u2) as H1.
      destruct (getp M "pid.x.output" _) as [ox u3].
      pose proof (Hy u3) as H2.
      destruct (getp M "pid.y.output" _) as [oy u4].
      cbn [fst] in *. rewrite Hs.
      rewrite (Rltb_true (Rabs ox + Rabs oy) 1) by lra.
      exists u4. reflexivity. }
    destruct Hloop as [w2 ->].
    cbn [wait_ready_loop]. rewrite Rltb_true by lra. rewrite Hidle.
    eexists. reflexivity. }
  unfold evaluate, sample_legs, obind.
  destruct (get_position M _) as [[x0 y0] w0].
  destruct (Hleg (x0 + test_distance self) (y0 + test_distance self) w0) as [w1 ->].
  destruct (Hleg x0 y0 w1) as [w2 ->].
  exists w2. reflexivity.
Qed.

Lemma idle_at_rest_yields_sentinel_at_once_witness :
  exists t', evaluate (steady still_pins INTERP_IDLE) init 1 nominal_proposal 0
             = Some (999, t').
Proof.
  apply (idle_at_rest_yields_sentinel_at_once (steady still_pins INTERP_IDLE)
           init nominal_proposal 0 0 0).
  - intros w0. reflexivity.
  - lra.
  - intros w0. change (Rabs 0 <= 0). rewrite Rabs_R0. lra.
  - intros w0. change (Rabs 0 <= 0). rewrite Rabs_R0. lra.
Defined.

(** X8: the answer of [wait_ready] is truthful: [True] is returned only
    right after a poll that saw the interpreter idle, [False] only once the
    timeout has elapsed since the call. *)
Theorem wait_ready_answer_is_truthful {W : Type} (M : Machine W)
  (fuel : nat) (timeout : R) (w : W) (answer : bool) (w' : W) :
  wait_ready M fuel timeout w = Some (answer, w') ->
  (answer = true -> is_idle (stat_interp_state M w') = true) /\
  (answer = false -> timeout <= time_time M w' - time_time M w).
Proof.
  unfold wait_ready. generalize (time_time M w) as start. intros start.
  revert w. induction fuel as [|fuel IH]; intros w H; [discriminate H|].
  cbn [wait_ready_loop] in H.
  destruct (Rltb (time_time M w - start) timeout) eqn:E.
  - destruct (is_idle (stat_interp_state M (stat_poll M w))) eqn:Ei.
    + injection H as <- <-. split; [intros _; exact Ei | discriminate].
    + apply IH in H. exact H.
  - injection H as <- <-. split; [discriminate|]. intros _.
    destruct (Rlt_dec (time_time M w - start) timeout) as [Hlt|Hge]; [|lra].
    rewrite (Rltb_true _ _ Hlt) in E. discriminate E.
Qed.

Lemma wait_ready_answer_is_truthful_witness :
  is_idle (stat_interp_state (steady still_pins INTERP_IDLE) 0) = true.
Proof.
  apply (wait_ready_answer_is_truthful (steady still_pins INTERP_IDLE) 1 10 0 true 0).
  - cbn [wait_ready wait_ready_loop]. rewrite Rltb_true by (simpl; lra). reflexivity.
  - reflexivity.
Defined.

(** ** Further properties of the tracker *)

Lemma record_all_not_lower (records : list (ParameterSet * R)) :
  forall self,
    (forall r, In r records -> best_rms self <= snd r) ->
    best_rms (record_all self records) = best_rms self /\
    best_params (record_all self records) = best_params self.
Proof.
  induction records as [|[p c] records IH]; intros self H; [split; reflexivity|].
  change (record_all self ((p, c) :: records)) with (record_all (track self p c) records).
  destruct (track_not_lower self p c) as [Hb Hp]; [apply (H (p, c)); left; reflexivity|].
  destruct (IH (track self p c)) as [H1 H2].
  - intros r Hin. rewrite Hb. apply H. right. exact Hin.
  - rewrite H1, H2. split; assumption.
Qed.

Lemma record_all_app (self : PIDOptimizer) (a b : list (ParameterSet * R)) :
  record_all self (a ++ b) = record_all (record_all self a) b.
Proof. unfold record_all. apply fold_left_app. Qed.

(** X9: among the recorded evaluations the tracker keeps the first one that
    reaches the least cost: later evaluations with an equal cost never
    replace it. *)
Theorem first_least_cost_wins (self : PIDOptimizer)
  (before after : list (ParameterSet * R)) (params : ParameterSet) (cost : R) :
  cost < best_rms self ->
  (forall r, In r before -> cost < snd r) ->
  (forall r, In r after -> cost <= snd r) ->
  best_rms (record_all self (before ++ (params, cost) :: after)) = cost /\
  best_params (record_all self (before ++ (params, cost) :: after)) = Some params.
Proof.
  intros Hstart Hbefore Hafter.
  rewrite record_all_app.
  change (record_all (record_all self before) ((params, cost) :: after))
    with (record_all (track (record_all self before) params cost) after).
  assert (Hlow : cost < best_rms (record_all self before)).
  { rewrite record_all_best. clear Hafter.
    revert self Hstart. induction before as [|[q c] before IH]; intros self Hstart.
    - exact Hstart.
    - change (least (best_rms self) (map snd ((q, c) :: before)))
        with (least (Rmin (best_rms self) c) (map snd before)).
      rewrite <- best_rms_track with (params := q).
      apply IH.
      + intros r Hin. apply Hbefore. right. exact Hin.
      + rewrite best_rms_track. apply Rmin_glb_lt; [exact Hstart|].
        apply (Hbefore (q, c)). left. reflexivity. }
  destruct (track_lower (record_all self before) params cost Hlow) as [Hb Hp].
  destruct (record_all_not_lower after (track (record_all self before) params cost))
    as [H1 H2].
  - intros r Hin. rewrite Hb. apply Hafter, Hin.
  - rewrite H1, H2. split; assumption.
Qed.

Lemma first_least_cost_wins_witness :
  best_params (record_all (reset init)
                 ([(out_of_bounds_proposal, 30)]
                    ++ (nominal_proposal, 10) :: [(out_of_bounds_proposal, 10)]))
  = Some nominal_proposal.
Proof.
  apply (first_least_cost_wins (reset init) [(out_of_bounds_proposal, 30)]
           [(out_of_bounds_proposal, 10)] nominal_proposal 10).
  - simpl. lra.
  - intros r [<-|[]]. simpl. lra.
  - intros r [<-|[]]. simpl. lra.
Defined.

(** ** Reading parameters back *)

Section ReadBack.

Context {W : Type} (M : Machine W).
Hypothesis reads_back : ReadsBack M.

Lemma getp_after_getp (name name' : string) (w : W) :
  fst (getp M name' (snd (getp M name w))) = fst (getp M name' w).
Proof. rewrite !getp_fst, getp_snd, (read_after_read M reads_back). reflexivity. Qed.

Lemma setp_snd (name : string) (v : R) (w : W) :
  snd (setp M name v w) = snd (hal_set_p M name v w).
Proof. unfold setp. destruct (hal_set_p M name v w); reflexivity. Qed.

Lemma getp_after_setp_same (name : string) (v : R) (w : W) :
  In name gain_pins ->
  fst (getp M name (snd (setp M name v w))) = v.
Proof.
  intros Hin. rewrite getp_fst, setp_snd, (read_own_write M reads_back) by exact Hin.
  reflexivity.
Qed.

Lemma getp_after_setp_other (name name' : string) (v : R) (w : W) :
  In name gain_pins ->
  name <> name' ->
  fst (getp M name' (snd (setp M name v w))) = fst (getp M name' w).
Proof.
  intros Hin H.
  rewrite !getp_fst, setp_snd, (read_other_write M reads_back) by assumption.
  reflexivity.
Qed.

Lemma current_reads (w : W) (k : pname) :
  fst (get_current_params M w) k = fst (getp M (x_pin k) w).
Proof.
  unfold get_current_params.
  pose proof (getp_after_getp "pid.x.Pgain" "pid.x.Igain" w) as H1.
  destruct (getp M "pid.x.Pgain" w) as [vP w1] eqn:E1. cbn [snd] in H1.
  pose proof (getp_after_getp "pid.x.Igain" "pid.x.Dgain" w1) as H2.
  pose proof (getp_after_getp "pid.x.Pgain" "pid.x.Dgain" w) as H2'.
  rewrite E1 in H2'. cbn [snd] in H2'.
  destruct (getp M "pid.x.Igain" w1) as [vI w2] eqn:E2. cbn [snd] in H2.
  pose proof (getp_after_getp "pid.x.Dgain" "pid.x.FF1" w2) as H3.
  pose proof (getp_after_getp "pid.x.Igain" "pid.x.FF1" w1) as H3'.
  pose proof (getp_after_getp "pid.x.Pgain" "pid.x.FF1" w) as H3''.
  rewrite E2 in H3'. rewrite E1 in H3''. cbn [snd] in H3', H3''.
  destruct (getp M "pid.x.Dgain" w2) as [vD w3] eqn:E3. cbn [snd] in H3.
  pose proof (getp_after_getp "pid.x.FF1" "pid.x.FF2" w3) as H4.
  pose proof (getp_after_getp "pid.x.Dgain" "pid.x.FF2" w2) as H4'.
  pose proof (getp_after_getp "pid.x.Igain" "pid.x.FF2" w1) as H4''.
  pose proof (getp_after_getp "pid.x.Pgain" "pid.x.FF2" w) as H4'''.
  rewrite E3 in H4'. rewrite E2 in H4''. rewrite E1 in H4'''. cbn [snd] in H4', H4'', H4'''.
  destruct (getp M "pid.x.FF1" w3) as [vFF1 w4] eqn:E4. cbn [snd] in H4.
  destruct (getp M "pid.x.FF2" w4) as [vFF2 w5] eqn:E5.
  cbn [fst] in *.
  destruct k; cbn [x_pin].
  - rewrite E1. reflexivity.
  - rewrite <- H1. reflexivity.
  - rewrite <- H2', <- H2. reflexivity.
  - rewrite <- H3'', <- H3', <- H3. reflexivity.
  - rewrite <- H4''', <- H4'', <- H4', <- H4. reflexivity.
Qed.

End ReadBack.

Ltac in_gain_pins :=
  unfold gain_pins; simpl In; repeat (first [left; reflexivity | right]).

Lemma current_after_apply {W : Type} (M : Machine W)
  (params : ParameterSet) (w : W) (k : pname) :
  ReadsBack M ->
  fst (get_current_params M (apply_params M params w)) k = params k.
Proof.
  intros reads_back. rewrite (current_reads M reads_back).
  unfold apply_params, apply_axis. cbn [fold_left append].
  destruct k; cbn [x_pin];
    repeat (rewrite (getp_after_setp_other M reads_back)
             by first [discriminate | in_gain_pins]);
    apply (getp_after_setp_same M reads_back); in_gain_pins.
Qed.

(** X10: on a machine whose gain pins read back what was last written,
    [get_current_params] after [apply_params] returns the applied set: each
    of the five parameters reads the value just written to the X axis, and
    the Y axis holds the same five values. *)
Theorem current_params_read_back_applied {W : Type} (M : Machine W)
  (params : ParameterSet) (w : W) (k : pname) :
  ReadsBack M ->
  fst (get_current_params M (apply_params M params w)) k = params k /\
  fst (getp M (y_pin k) (apply_params M params w)) = params k.
Proof.
  intros reads_back. split; [apply current_after_apply, reads_back|].
  unfold apply_params, apply_axis. cbn [fold_left append].
  destruct k; cbn [y_pin];
    repeat (rewrite (getp_after_setp_other M reads_back)
             by first [discriminate | in_gain_pins]);
    apply (getp_after_setp_same M reads_back); in_gain_pins.
Qed.

Lemma stored_reads_back : ReadsBack stored.
Proof.
  split.
  - intros name v w _. cbn. unfold stored_read. cbn [find fst snd].
    rewrite String.eqb_refl. reflexivity.
  - intros name name' v w _ H. cbn. unfold stored_read. cbn [find fst snd].
    apply String.eqb_neq in H. rewrite H. reflexivity.
  - intros name name' w. reflexivity.
Qed.

Lemma current_params_read_back_applied_witness :
  fst (get_current_params stored (apply_params stored nominal_proposal [])) KP = 100.
Proof.
  apply (current_params_read_back_applied stored nominal_proposal [] KP stored_reads_back).
Defined.

(** ** What the objective adapter applies *)

Lemma pname_eqb_eq (a b : pname) : pname_eqb a b = true <-> a = b.
Proof. destruct a, b; simpl; split; intros H; congruence. Qed.

Lemma merged_not_listed (names : list pname) :
  forall x current k, ~ In k names -> merged current names x k = current k.
Proof.
  unfold merged. induction names as [|a names IH]; intros x current k H; [reflexivity|].
  destruct x as [|v x]; [reflexivity|].
  cbn [combine fold_left fst snd]. rewrite IH by (intros Hin; apply H; right; exact Hin).
  unfold dict_set. destruct (pname_eqb k a) eqn:E; [|reflexivity].
  apply pname_eqb_eq in E. subst a. exfalso. apply H. left. reflexivity.
Qed.

Lemma merged_listed (names : list pname) :
  forall x current i,
    NoDup names ->
    length x = length names ->
    (i < length names)%nat ->
    merged current names x (nth i names KP) = nth i x 0.
Proof.
  induction names as [|a names IH]; intros x current i Hnd Hlen Hi; [simpl in Hi; lia|].
  destruct x as [|v x]; [discriminate Hlen|].
  inversion Hnd as [|? ? Hnotin Hnd']; subst.
  change (merged current (a :: names) (v :: x))
    with (merged (dict_set current a v) names x).
  destruct i as [|i].
  - cbn [nth]. rewrite merged_not_listed by exact Hnotin.
    unfold dict_set. rewrite (proj2 (pname_eqb_eq a a) eq_refl). reflexivity.
  - cbn [nth]. apply IH; [exact Hnd' | simpl in Hlen; lia | simpl in Hi; lia].
Qed.

Lemma get_current_params_logged {W : Type} (M : Machine W) (w : W)
  (l : list (string * R)) :
  get_current_params (logged M) (w, l)
  = (fst (get_current_params M w), (snd (get_current_params M w), l)).
Proof.
  unfold get_current_params.
  rewrite getp_logged. destruct (getp M "pid.x.Pgain" _) as [vP w1]. cbn [fst snd].
  rewrite getp_logged. destruct (getp M "pid.x.Igain" _) as [vI w2]. cbn [fst snd].
  rewrite getp_logged. destruct (getp M "pid.x.Dgain" _) as [vD w3]. cbn [fst snd].
  rewrite getp_logged. destruct (getp M "pid.x.FF1" _) as [vFF1 w4]. cbn [fst snd].
  rewrite getp_logged. destruct (getp M "pid.x.FF2" _) as [vFF2 w5]. cbn [fst snd].
  reflexivity.
Qed.

(** X11: an objective call applies, to both axes, the vector's entries for
    the tuned names and the values it has just read from the machine for
    every other parameter; these ten writes are all it writes. *)
Theorem objective_applies_vector_over_current {W : Type} (M : Machine W)
  (self : PIDOptimizer) (n : nat) (x : list R) (names : list pname)
  (w : W) (l : list (string * R)) (lines : list output) :
  ClockLaws M ->
  leg_timeout self < INR n * 0.002 ->
  10 < INR n * 0.05 ->
  NoDup names ->
  length x = length names ->
  exists rms s' applied,
    objective (logged M) (S n) x names (mkSession self (w, l) lines) = Some (rms, s') /\
    snd (world s') = l ++ writes_of applied /\
    (forall i, (i < length names)%nat -> applied (nth i names KP) = nth i x 0) /\
    (forall k, ~ In k names -> applied k = fst (get_current_params M w) k).
Proof.
  intros laws Hleg Hwait Hnd Hlen.
  unfold objective. cbn [world opt]. rewrite get_current_params_logged.
  fold (merged (fst (get_current_params M w)) names x).
  set (applied := merged (fst (get_current_params M w)) names x).
  rewrite evaluate_logged.
  destruct (evaluate_returns M laws self n applied (snd (get_current_params M w))
              Hleg Hwait) as [cost [w' E]].
  rewrite E. cbn [with_log obind].
  eexists. eexists. exists applied.
  split; [reflexivity|]. cbn [world snd].
  split; [reflexivity|].
  split; [intros i Hi; apply merged_listed; assumption|].
  intros k Hk. apply merged_not_listed, Hk.
Qed.

Lemma objective_applies_vector_over_current_witness :
  exists rms s' applied,
    objective (logged (steady (moving_pins 0.05) INTERP_READING)) 319
      [120; 60] [KP; KI] (mkSession init (0, []) [])
    = Some (rms, s') /\
    snd (world s') = [] ++ writes_of applied /\
    applied KP = 120 /\ applied KI = 60 /\ applied KFF1 = 1.
Proof.
  destruct (objective_applies_vector_over_current
              (steady (moving_pins 0.05) INTERP_READING) init 318 [120; 60] [KP; KI]
              0 [] [] (steady_clock_laws _ _) fuel_318_covers_leg fuel_318_covers_wait)
    as [rms [s' [applied [E [Hl [Hx Hc]]]]]].
  - repeat constructor; simpl; intuition discriminate.
  - reflexivity.
  - exists rms, s', applied.
    split; [exact E|]. split; [exact Hl|].
    split; [apply (Hx 0%nat); simpl; lia|].
    split; [apply (Hx 1%nat); simpl; lia|].
    rewrite Hc; [reflexivity | simpl; intuition discriminate].
Defined.

(** ** What an evaluation commands *)

Section Commanded.

Context {W : Type} (M : Machine W).

Lemma getp_commanded (name : string) (w : W) (t : list command) :
  getp (commanded M) name (w, t) = (fst (getp M name w), (snd (getp M name w), t)).
Proof. unfold getp. simpl. destruct (hal_get_value M name w); reflexivity. Qed.

Lemma setp_commanded (name : string) (value : R) (w : W) (t : list command) :
  snd (setp (commanded M) name value (w, t)) = (snd (setp M name value w), t).
Proof. unfold setp. simpl. destruct (hal_set_p M name value w); reflexivity. Qed.

Lemma apply_params_commanded (params : ParameterSet) (w : W) (t : list command) :
  apply_params (commanded M) params (w, t) = (apply_params M params w, t).
Proof.
  unfold apply_params, apply_axis. cbn [fold_left]. rewrite !setp_commanded. reflexivity.
Qed.

Lemma collect_step_commanded (errors : list R) (w : W) (t : list command) :
  collect_step (commanded M) errors (w, t)
  = (fst (collect_step M errors w), (snd (collect_step M errors w), t)).
Proof.
  unfold collect_step.
  change (stat_poll (commanded M) (w, t)) with (stat_poll M w, t).
  change (stat_interp_state (commanded M) (stat_poll M w, t))
    with (stat_interp_state M (stat_poll M w)).
  rewrite getp_commanded. destruct (getp M "pid.x.error" _) as [ex w1]. cbn [fst snd].
  rewrite getp_commanded. destruct (getp M "pid.y.error" _) as [ey w2]. cbn [fst snd].
  rewrite getp_commanded. destruct (getp M "pid.x.output" _) as [ox w3]. cbn [fst snd].
  rewrite getp_commanded. destruct (getp M "pid.y.output" _) as [oy w4]. cbn [fst snd].
  reflexivity.
Qed.

Lemma collect_loop_commanded (start timeout : R) (t : list command) :
  forall fuel errors w,
    collect_loop (commanded M) fuel start timeout errors (w, t)
    = with_trace t (collect_loop M fuel start timeout errors w).
Proof.
  induction fuel as [|fuel IH]; intros errors w; [reflexivity|].
  cbn [collect_loop].
  change (time_time (commanded M) (w, t)) with (time_time M w).
  destruct (Rltb (time_time M w - start) timeout); [|reflexivity].
  rewrite collect_step_commanded.
  destruct (collect_step M errors w) as [[errors1 stop] w1]. cbn [fst snd].
  destruct stop; [reflexivity|].
  change (time_sleep (commanded M) 0.002 (w1, t)) with (time_sleep M 0.002 w1, t).
  apply IH.
Qed.

Lemma wait_ready_loop_commanded (start timeout : R) (t : list command) :
  forall fuel w,
    wait_ready_loop (commanded M) fuel start timeout (w, t)
    = with_trace t (wait_ready_loop M fuel start timeout w).
Proof.
  induction fuel as [|fuel IH]; intros w; [reflexivity|].
  cbn [wait_ready_loop].
  change (time_time (commanded M) (w, t)) with (time_time M w).
  destruct (Rltb (time_time M w - start) timeout); [|reflexivity].
  change (stat_poll (commanded M) (w, t)) with (stat_poll M w, t).
  change (stat_interp_state (commanded M) (stat_poll M w, t))
    with (stat_interp_state M (stat_poll M w)).
  destruct (is_idle _); [reflexivity|].
  change (time_sleep (commanded M) 0.05 (stat_poll M w, t))
    with (time_sleep M 0.05 (stat_poll M w), t).
  apply IH.
Qed.

(** [run_move] sends one MDI line, after a switch to MDI mode when the
    machine is in another mode. *)
Lemma run_move_commanded (self : PIDOptimizer) (x y : R) (w : W) (t : list command) :
  snd (run_move (commanded M) self x y (w, t))
  = (snd (run_move M self x y w),
     t ++ mode_prelude (is_mdi (stat_task_mode M (stat_poll M w)))
       ++ [CmdMdi (G1 (format_3f x) (format_3f y) (test_feed self))]).
Proof.
  unfold run_move. cbn [snd].
  change (stat_poll (commanded M) (w, t)) with (stat_poll M w, t).
  change (stat_task_mode (commanded M) (stat_poll M w, t))
    with (stat_task_mode M (stat_poll M w)).
  destruct (is_mdi _); cbn [mode_prelude].
  - reflexivity.
  - cbn. rewrite <- !app_assoc. reflexivity.
Qed.

Lemma collect_during_move_commanded (self : PIDOptimizer) (fuel : nat) (x y : R) (w : W)
  (t : list command) :
  collect_during_move (commanded M) self fuel x y (w, t)
  = with_trace (t ++ mode_prelude (is_mdi (stat_task_mode M (stat_poll M w)))
                  ++ [CmdMdi (G1 (format_3f x) (format_3f y) (test_feed self))])
      (collect_during_move M self fuel x y w).
Proof.
  unfold collect_during_move, wait_ready, obind.
  rewrite run_move_commanded.
  set (t' := t ++ mode_prelude _
               ++ [CmdMdi (G1 (format_3f x) (format_3f y) (test_feed self))]).
  change (time_sleep (commanded M) 0.01 (snd (run_move M self x y w), t'))
    with (time_sleep M 0.01 (snd (run_move M self x y w)), t').
  change (time_time (commanded M) (time_sleep M 0.01 (snd (run_move M self x y w)), t'))
    with (time_time M (time_sleep M 0.01 (snd (run_move M self x y w)))).
  rewrite collect_loop_commanded.
  destruct (collect_loop M fuel _ _ _ _) as [[errors w1]|]; [|reflexivity].
  cbn [with_trace].
  change (time_time (commanded M) (w1, t')) with (time_time M w1).
  rewrite wait_ready_loop_commanded.
  destruct (wait_ready_loop M fuel _ _ _) as [[b w2]|]; reflexivity.
Qed.

End Commanded.

(** The format [:.3f] moves a value by at most half a thousandth and leaves
    whole thousandths alone. *)
Lemma Int_part_IZR (z : Z) : Int_part (IZR z) = z.
Proof.
  unfold Int_part.
  rewrite <- (up_tech (IZR z) z); [lia | lra | rewrite plus_IZR; lra].
Qed.

Lemma round_half_even_near (x : R) : Rabs (IZR (round_half_even x) - x) <= 1 / 2.
Proof.
  unfold round_half_even.
  destruct (base_Int_part x) as [Hlo Hhi].
  destruct (Rltb (x - IZR (Int_part x)) (1 / 2)) eqn:E1.
  - apply Rltb_iff in E1. apply Rabs_le. lra.
  - destruct (Rltb (1 / 2) (x - IZR (Int_part x))) eqn:E2.
    + apply Rltb_iff in E2. rewrite plus_IZR. apply Rabs_le. lra.
    + assert (Hd : x - IZR (Int_part x) = 1 / 2).
      { destruct (Rlt_dec (x - IZR (Int_part x)) (1 / 2)) as [H|H];
          [rewrite (Rltb_true _ _ H) in E1; discriminate|].
        destruct (Rlt_dec (1 / 2) (x - IZR (Int_part x))) as [H'|H'];
          [rewrite (Rltb_true _ _ H') in E2; discriminate|]. lra. }
      destruct (Z.even (Int_part x)); [|rewrite plus_IZR]; apply Rabs_le; lra.
Qed.

Lemma round_half_even_IZR (z : Z) : round_half_even (IZR z) = z.
Proof.
  unfold round_half_even. rewrite Int_part_IZR.
  rewrite Rltb_true by lra. reflexivity.
Qed.

Lemma format_3f_near (x : R) : Rabs (format_3f x - x) <= 0.0005.
Proof.
  unfold format_3f.
  pose proof (round_half_even_near (x * 1000)) as H.
  assert (H' : - (1 / 2) <= IZR (round_half_even (x * 1000)) - x * 1000 <= 1 / 2).
  { revert H. unfold Rabs. destruct (Rcase_abs _); lra. }
  apply Rabs_le. lra.
Qed.

Lemma format_3f_thousandths (z : Z) : format_3f (IZR z / 1000) = IZR z / 1000.
Proof.
  unfold format_3f. replace (IZR z / 1000 * 1000) with (IZR z) by field.
  rewrite round_half_even_IZR. reflexivity.
Qed.

(** X12: an evaluation commands exactly two moves at the test feed: out by
    the test distance on both axes from the position read after applying the
    parameters, and back to that position, each target spelled with three
    decimals (so within 0.0005 of the exact one).  The MDI line of a move is
    preceded by a switch to MDI mode and the wait for it exactly when the
    poll at the start of that move finds the machine in another mode; no
    other mode is ever requested. *)
Theorem evaluate_commands_round_trip {W : Type} (M : Machine W)
  (self : PIDOptimizer) (n : nat) (params : ParameterSet) (w : W)
  (x0 y0 : R) (w0 : W) :
  ClockLaws M ->
  leg_timeout self < INR n * 0.002 ->
  10 < INR n * 0.05 ->
  get_position M (apply_params M params w) = ((x0, y0), w0) ->
  exists cost w' e1 w1,
    collect_during_move M self (S n) (x0 + test_distance self) (y0 + test_distance self) w0
    = Some (e1, w1) /\
    evaluate M self (S n) params w = Some (cost, w') /\
    evaluate (commanded M) self (S n) params (w, [])
    = Some (cost,
            (w',
             mode_prelude (is_mdi (stat_task_mode M (stat_poll M w0)))
               ++ [CmdMdi (G1 (format_3f (x0 + test_distance self))
                              (format_3f (y0 + test_distance self))
                              (test_feed self))]
               ++ mode_prelude (is_mdi (stat_task_mode M (stat_poll M w1)))
               ++ [CmdMdi (G1 (format_3f x0) (format_3f y0) (test_feed self))])) /\
    Rabs (format_3f (x0 + test_distance self) - (x0 + test_distance self)) <= 0.0005 /\
    Rabs (format_3f (y0 + test_distance self) - (y0 + test_distance self)) <= 0.0005 /\
    Rabs (format_3f x0 - x0) <= 0.0005 /\
    Rabs (format_3f y0 - y0) <= 0.0005.
Proof.
  intros laws Hleg Hwait Hpos.
  destruct (evaluate_returns M laws self n params w Hleg Hwait) as [cost [w' E]].
  exists cost, w'.
  unfold evaluate, sample_legs, obind in *.
  rewrite apply_params_commanded.
  rewrite Hpos in E.
  unfold get_position in *.
  change (stat_poll (commanded M) (apply_params M params w, []))
    with (stat_poll M (apply_params M params w), @nil command).
  change (stat_actual_position (commanded M)
            (stat_poll M (apply_params M params w), []))
    with (stat_actual_position M (stat_poll M (apply_params M params w))).
  injection Hpos as Hxy Hw0. rewrite Hxy, Hw0.
  rewrite collect_during_move_commanded.
  destruct (collect_during_move M self (S n) (x0 + test_distance self)
              (y0 + test_distance self) w0) as [[e1 w1]|]; [|discriminate E].
  cbn [with_trace].
  rewrite collect_during_move_commanded.
  destruct (collect_during_move M self (S n) x0 y0 w1) as [[e2 w2]|]; [|discriminate E].
  cbn [with_trace].
  injection E as <- <-.
  exists e1, w1. split; [reflexivity|]. split; [reflexivity|].
  split; [cbn [app]; rewrite <- !app_assoc; reflexivity|].
  split; [apply format_3f_near|]. split; [apply format_3f_near|].
  split; apply format_3f_near.
Qed.

Lemma evaluate_commands_round_trip_witness :
  exists cost t' e1 t1,
    collect_during_move (steady dead_pins INTERP_READING) init 319 (0 + 15) (0 + 15) 0
    = Some (e1, t1) /\
    evaluate (commanded (steady dead_pins INTERP_READING)) init 319 nominal_proposal (0, [])
    = Some (cost,
            (t',
             [CmdMdi (G1 15 15 10000); CmdMdi (G1 0 0 10000)])).
Proof.
  destruct (evaluate_commands_round_trip (steady dead_pins INTERP_READING) init 318
              nominal_proposal 0 0 0 0 (steady_clock_laws _ _)
              fuel_318_covers_leg fuel_318_covers_wait eq_refl)
    as [cost [t' [e1 [t1 [E1 [_ [E _]]]]]]].
  exists cost, t', e1, t1. split; [exact E1|].
  assert (H15 : format_3f (0 + 15) = 15).
  { replace (0 + 15) with (IZR 15000 / 1000) by lra.
    rewrite format_3f_thousandths. lra. }
  assert (H0 : format_3f 0 = 0).
  { replace 0 with (IZR 0 / 1000) at 1 by lra.
    rewrite format_3f_thousandths. lra. }
  change (test_distance init) with 15 in E.
  rewrite H15, H0 in E. exact E.
Defined.

(** ** The whole program returns *)

Section Returns.

Context {W : Type} (M : Machine W) (scipy : Scipy) (n : nat).
Hypothesis laws : ClockLaws M.
Hypothesis covers_leg : leg_timeout init < INR n * 0.002.
Hypothesis covers_wait : 10 < INR n * 0.05.

Lemma pbind_keeps {A B : Type} (m : Prog W A) (k : A -> Prog W B) :
  keeps_running m -> (forall a, keeps_running (k a)) -> keeps_running (pbind m k).
Proof.
  intros Hm Hk s Hs. unfold pbind.
  destruct (Hm s Hs) as [out [s1 [E H1]]]. rewrite E.
  destruct out as [a| |].
  - apply (Hk a s1 H1).
  - eexists. eexists. split; [reflexivity | exact H1].
  - eexists. eexists. split; [reflexivity | exact H1].
Qed.

Lemma print_keeps (line : output) : keeps_running (@print W line).
Proof. intros s Hs. eexists. eexists. split; [reflexivity | exact Hs]. Qed.

Lemma pret_keeps {A : Type} (a : A) : keeps_running (@pret W A a).
Proof. intros s Hs. eexists. eexists. split; [reflexivity | exact Hs]. Qed.

Lemma objective_returns (x : list R) (names : list pname) (s : Session W) :
  leg_timeout (opt s) = leg_timeout init ->
  exists rms s',
    objective M (S n) x names s = Some (rms, s') /\
    leg_timeout (opt s') = leg_timeout init.
Proof.
  intros Hs. unfold objective.
  destruct (get_current_params M (world s)) as [current w0].
  match goal with
  | |- context [evaluate M (opt s) (S n) ?p w0] =>
      destruct (evaluate_returns M laws (opt s) n p w0) as [cost [w1 E]];
      [rewrite Hs; exact covers_leg | exact covers_wait |]
  end.
  rewrite E. cbn [obind]. eexists. eexists. split; [reflexivity|].
  cbn [opt]. rewrite leg_timeout_track. exact Hs.
Qed.

Lemma scipy_loop_returns (names : list pname) (next : solver) :
  forall calls history s,
    leg_timeout (opt s) = leg_timeout init ->
    exists out s',
      scipy_loop calls next (fun x => objective M (S n) x names) history s
      = Some (out, s') /\
      leg_timeout (opt s') = leg_timeout init.
Proof.
  induction calls as [|calls IH]; intros history s Hs.
  - eexists. eexists. split; [reflexivity | exact Hs].
  - cbn [scipy_loop]. destruct (next history) as [x| |].
    + destruct (objective_returns x names s Hs) as [rms [s1 [E H1]]].
      rewrite E. cbn [obind]. apply IH, H1.
    + eexists. eexists. split; [reflexivity | exact Hs].
    + eexists. eexists. split; [reflexivity | exact Hs].
Qed.

Lemma optimize_nelder_mead_keeps (names : list pname) :
  keeps_running (optimize_nelder_mead M scipy (S n) names).
Proof.
  intros s Hs. unfold optimize_nelder_mead.
  destruct (get_current_params M (world s)) as [current w0].
  unfold pbind.
  match goal with
  | |- context [scipy_loop ?c ?nx ?f ?h ?s0] =>
      destruct (scipy_loop_returns names nx c h s0) as [out [s1 [E H1]]]; [exact Hs|]
  end.
  rewrite E. destruct out; eexists; eexists; (split; [reflexivity | exact H1]).
Qed.

Lemma optimize_de_keeps (names : list pname) :
  keeps_running (optimize_de M scipy (S n) names).
Proof.
  intros s Hs. unfold optimize_de, pbind.
  match goal with
  | |- context [scipy_loop ?c ?nx ?f ?h ?s0] =>
      destruct (scipy_loop_returns names nx c h s0) as [out [s1 [E H1]]]; [exact Hs|]
  end.
  rewrite E. destruct out; eexists; eexists; (split; [reflexivity | exact H1]).
Qed.

Lemma dispatch_keeps (choice : string) (strategy : Prog W (option ParameterSet * R)) :
  dispatch M scipy (S n) choice = Some strategy -> keeps_running strategy.
Proof.
  unfold dispatch.
  destruct (choice =? "1")%string;
    [intros H; injection H as <-; apply optimize_nelder_mead_keeps|].
  destruct (choice =? "2")%string; [intros H; injection H as <-; apply optimize_de_keeps|].
  destruct (choice =? "3")%string.
  { intros H; injection H as <-.
    apply pbind_keeps; [apply print_keeps|]. intros _.
    apply pbind_keeps; [apply optimize_de_keeps|]. intros [params rms].
    apply pbind_keeps.
    { intros s Hs. destruct params; eexists; eexists; (split; [reflexivity | exact Hs]). }
    intros _. apply pbind_keeps; [apply print_keeps|]. intros _.
    apply optimize_nelder_mead_keeps. }
  destruct (choice =? "4")%string;
    [intros H; injection H as <-; apply optimize_nelder_mead_keeps|].
  destruct (choice =? "5")%string; [intros H; injection H as <-; apply optimize_de_keeps|].
  discriminate.
Qed.

Lemma run_keeps (choice save : string) : keeps_running (run M scipy (S n) choice save).
Proof.
  unfold run.
  apply pbind_keeps; [apply print_keeps|]. intros _.
  apply pbind_keeps.
  { intros s Hs. destruct (get_current_params M (world s)) as [current w0].
    eexists. eexists. split; [reflexivity | exact Hs]. }
  intros current.
  apply pbind_keeps; [apply print_keeps|]. intros _.
  apply pbind_keeps.
  { intros s Hs.
    destruct (evaluate_returns M laws (opt s) n current (world s)) as [cost [w1 E]];
      [rewrite Hs; exact covers_leg | exact covers_wait |].
    rewrite E. eexists. eexists. split; [reflexivity | exact Hs]. }
  intros baseline.
  apply pbind_keeps; [apply print_keeps|]. intros _.
  apply pbind_keeps; [apply print_keeps|]. intros _.
  destruct (choice =? "q")%string; [apply pret_keeps|].
  destruct (dispatch M scipy (S n) choice) as [strategy|] eqn:D; [|apply print_keeps].
  apply pbind_keeps; [apply (dispatch_keeps choice strategy D)|]. intros [params rms].
  apply pbind_keeps; [apply print_keeps|]. intros _.
  apply pbind_keeps; [|intros _; apply print_keeps].
  destruct (save =? "n")%string; [apply pret_keeps|].
  unfold save_to_hal. destruct params as [p|].
  - intros s Hs.
    destruct (file_write M hal_file rms p (world s)) as [[[]|] w1];
      eexists; eexists; (split; [reflexivity | exact Hs]).
  - intros s Hs. eexists. eexists. split; [reflexivity | exact Hs].
Qed.

End Returns.

(** X13: the whole program returns.  Under the clock laws, with the test
    distance and feed of [__init__] and enough passes allowed per polling
    loop to cover its deadline, [__main__] ends for every menu choice, every
    save answer and every behaviour of the library within its call limit. *)
Theorem main_returns {W : Type} (M : Machine W) (scipy : Scipy) (n : nat)
  (choice save : string) (w : W) :
  ClockLaws M ->
  leg_timeout init < INR n * 0.002 ->
  10 < INR n * 0.05 ->
  exists s, main M scipy (S n) choice save w = Some s.
Proof.
  intros laws Hleg Hwait. unfold main.
  destruct (run_keeps M scipy n laws Hleg Hwait choice save (mkSession init w []) eq_refl)
    as [out [s [E _]]].
  rewrite E. destruct out; eexists; reflexivity.
Qed.

Lemma main_returns_witness :
  exists s, main (steady (moving_pins 0.05) INTERP_READING) finishing_scipy 319 "3" "y" 0
            = Some s.
Proof.
  apply (main_returns (steady (moving_pins 0.05) INTERP_READING) finishing_scipy 318
           "3" "y" 0 (steady_clock_laws _ _) fuel_318_covers_leg fuel_318_covers_wait).
Defined.

(** ** What a strategy prints and returns *)

Lemma plain_app (a b : list output) : plain a -> plain b -> plain (a ++ b).
Proof. unfold plain. intros Ha Hb. apply Forall_app. split; assumption. Qed.

Lemma plain_snoc (a : list output) (line : output) :
  plain a -> is_summary line = false -> line <> OutError -> plain (a ++ [line]).
Proof.
  intros Ha H1 H2. apply plain_app; [exact Ha|].
  constructor; [split; assumption | constructor].
Qed.

Lemma progress_lines_plain (names : list pname) (calls : list (list R * ParameterSet * R)) :
  forall self, plain (progress_lines self names calls).
Proof.
  induction calls as [|[[x p] c] calls IH]; intros self; [constructor|].
  cbn [progress_lines]. constructor; [split; [reflexivity | discriminate]|]. apply IH.
Qed.

Lemma plain_not_saved (lines : list output) (p : ParameterSet) (r : R) :
  plain lines -> ~ In (OutSaved p r) lines.
Proof.
  unfold plain. rewrite Forall_forall. intros H Hin.
  destruct (H _ Hin) as [Hs _]. discriminate Hs.
Qed.

Lemma plain_not_error (lines : list output) : plain lines -> ~ In OutError lines.
Proof.
  unfold plain. rewrite Forall_forall. intros H Hin.
  destruct (H _ Hin) as [_ He]. apply He. reflexivity.
Qed.

Lemma plain_not_complete (lines : list output) (p : option ParameterSet) (r b : R) :
  plain lines -> ~ In (OutComplete p r b) lines.
Proof.
  unfold plain. rewrite Forall_forall. intros H Hin.
  destruct (H _ Hin) as [Hs _]. discriminate Hs.
Qed.

Lemma progress_lines_length (names : list pname)
  (calls : list (list R * ParameterSet * R)) :
  forall self, length (progress_lines self names calls) = length calls.
Proof.
  induction calls as [|[[x p] c] calls IH]; intros self; [reflexivity|].
  cbn [progress_lines length]. rewrite IH. reflexivity.
Qed.

(** The [i]-th progress line carries the running count and the running
    best. *)
Lemma progress_lines_nth (names : list pname)
  (calls : list (list R * ParameterSet * R)) :
  forall self i,
    (i < length calls)%nat ->
    nth i (progress_lines self names calls) OutBanner
    = OutProgress (eval_count self + S i) names
        (fst (fst (nth i calls ([], nominal_proposal, 0))))
        (nth i (map snd (records_of calls)) 0)
        (least (best_rms self) (firstn (S i) (map snd (records_of calls)))).
Proof.
  induction calls as [|[[x p] c] calls IH]; intros self i Hi; [simpl in Hi; lia|].
  destruct i as [|i].
  - cbn [progress_lines nth records_of map fst snd firstn least fold_left].
    rewrite eval_count_track, best_rms_track. f_equal. lia.
  - cbn [progress_lines nth]. rewrite IH by (simpl in Hi; lia).
    rewrite eval_count_track, best_rms_track.
    cbn [records_of map fst snd nth firstn]. f_equal. lia.
Qed.

Section Phases.

Context {W : Type} (M : Machine W) (scipy : Scipy) (fuel : nat).

Lemma objective_line (x : list R) (names : list pname) (s : Session W)
  (rms : R) (s' : Session W) :
  objective M fuel x names s = Some (rms, s') ->
  exists params,
    opt s' = track (opt s) params rms /\
    console s' = console s ++ progress_lines (opt s) names [(x, params, rms)].
Proof.
  unfold objective, obind.
  destruct (get_current_params M (world s)) as [current w0].
  destruct (evaluate M (opt s) fuel _ w0) as [[c w1]|] eqn:E; [|discriminate].
  intros H. injection H as <- <-.
  eexists. cbn [opt console progress_lines]. split; reflexivity.
Qed.

Lemma progress_lines_app (names : list pname) (a b : list (list R * ParameterSet * R)) :
  forall self,
    progress_lines self names (a ++ b)
    = progress_lines self names a
        ++ progress_lines (record_all self (records_of a)) names b.
Proof.
  induction a as [|[[x p] c] a IH]; intros self; [reflexivity|].
  cbn [app progress_lines]. rewrite IH. reflexivity.
Qed.

Lemma scipy_loop_calls (names : list pname) (next : solver) :
  forall calls history s out s',
    scipy_loop calls next (fun x => objective M fuel x names) history s = Some (out, s') ->
    exists done,
      (length done <= calls)%nat /\
      opt s' = record_all (opt s) (records_of done) /\
      console s' = console s ++ progress_lines (opt s) names done /\
      (out = Normal tt \/ out = KeyboardInterrupt) /\
      ((forall h, next h <> Interrupt) -> out = Normal tt).
Proof.
  induction calls as [|calls IH]; intros history s out s' H.
  - injection H as <- <-. exists []. rewrite app_nil_r.
    split; [simpl; lia|]. split; [reflexivity|]. split; [reflexivity|].
    split; [left; reflexivity | intros _; reflexivity].
  - cbn [scipy_loop] in H. destruct (next history) as [x| |] eqn:En.
    + unfold obind in H.
      destruct (objective M fuel x names s) as [[fx s1]|] eqn:E; [|discriminate].
      apply objective_line in E. destruct E as [params [Ho Hc]].
      apply IH in H. destruct H as [done [Hlen [Ho' [Hc' [Hout Hni]]]]].
      exists ((x, params, fx) :: done).
      split; [simpl; lia|].
      split; [rewrite Ho', Ho; reflexivity|].
      split; [|split; assumption].
      rewrite Hc', Hc, <- app_assoc, Ho. reflexivity.
    + injection H as <- <-. exists []. rewrite app_nil_r.
      split; [simpl; lia|]. split; [reflexivity|]. split; [reflexivity|].
      split; [left; reflexivity | intros _; reflexivity].
    + injection H as <- <-. exists []. rewrite app_nil_r.
      split; [simpl; lia|]. split; [reflexivity|]. split; [reflexivity|].
      split; [right; reflexivity|].
      intros Hni. exfalso. apply (Hni history En).
Qed.

(** What either [optimize_*] method leaves behind: a header, then one
    progress line per objective call, the tracker reset and then fed with
    those calls, and as result the tracker's best pair unless interrupted. *)
Lemma phase_report (names : list pname) (s : Session W)
  (out : py (option ParameterSet * R)) (s' : Session W) :
  optimize_nelder_mead M scipy fuel names s = Some (out, s') \/
  optimize_de M scipy fuel names s = Some (out, s') ->
  exists header done,
    is_header header = true /\
    (length done <= max_calls scipy)%nat /\
    opt s' = record_all (reset (opt s)) (records_of done) /\
    console s' = console s ++ header :: progress_lines (reset (opt s)) names done /\
    (out = Normal (best_params (opt s'), best_rms (opt s')) \/ out = KeyboardInterrupt).
Proof.
  intros [H|H].
  - unfold optimize_nelder_mead, pbind in H.
    destruct (get_current_params M (world s)) as [current w0].
    destruct (scipy_loop _ _ _ _ _) as [[r s1]|] eqn:E; [|discriminate].
    apply scipy_loop_calls in E. cbn [opt console] in E.
    destruct E as [done [Hlen [Ho [Hc [Hout _]]]]].
    exists (OutNelderMead names (map current names)), done.
    destruct Hout as [-> | ->]; inversion H; subst;
      (split; [reflexivity|]; split; [exact Hlen|]; split; [exact Ho|];
       split; [rewrite Hc, <- app_assoc; reflexivity|]);
      [left | right]; reflexivity.
  - unfold optimize_de, pbind in H.
    destruct (scipy_loop _ _ _ _ _) as [[r s1]|] eqn:E; [|discriminate].
    apply scipy_loop_calls in E. cbn [opt console] in E.
    destruct E as [done [Hlen [Ho [Hc [Hout _]]]]].
    exists (OutDE names), done.
    destruct Hout as [-> | ->]; inversion H; subst;
      (split; [reflexivity|]; split; [exact Hlen|]; split; [exact Ho|];
       split; [rewrite Hc, <- app_assoc; reflexivity|]);
      [left | right]; reflexivity.
Qed.

End Phases.

Lemma header_plain (header : output) :
  is_header header = true -> is_summary header = false /\ header <> OutError.
Proof. destruct header; simpl; intros H; try discriminate H; split; congruence. Qed.

Lemma pbind_inv {W A B : Type} (m : Prog W A) (k : A -> Prog W B)
  (s : Session W) (out : py B) (s' : Session W) :
  pbind m k s = Some (out, s') ->
  (exists a s1, m s = Some (Normal a, s1) /\ k a s1 = Some (out, s')) \/
  (m s = Some (KeyboardInterrupt, s') /\ out = KeyboardInterrupt) \/
  (m s = Some (Exception, s') /\ out = Exception).
Proof.
  unfold pbind. destruct (m s) as [[[a| |] s1]|]; intros H.
  - left. exists a, s1. split; [reflexivity | exact H].
  - right. left. inversion H. split; reflexivity.
  - right. right. inversion H. split; reflexivity.
  - discriminate H.
Qed.

Section Outcomes.

Context {W : Type} (M : Machine W) (scipy : Scipy) (fuel : nat).

Lemma single_phase_returns_best (strategy : Prog W (option ParameterSet * R))
  (names : list pname) :
  (forall s out s',
      strategy s = Some (out, s') ->
      optimize_nelder_mead M scipy fuel names s = Some (out, s') \/
      optimize_de M scipy fuel names s = Some (out, s')) ->
  returns_best strategy.
Proof.
  intros Hwhich s out s' H Hplain.
  destruct (phase_report M scipy fuel names s out s' (Hwhich s out s' H))
    as [header [done [Hh [_ [_ [Hc Hout]]]]]].
  split; [|split].
  - rewrite Hc. apply plain_app; [exact Hplain|].
    constructor; [apply header_plain, Hh | apply progress_lines_plain].
  - intros bp br E. destruct Hout as [Hout|Hout]; rewrite Hout in E; [|discriminate E].
    injection E as <- <-. split; reflexivity.
  - intros E. destruct Hout as [Hout|Hout]; rewrite Hout in E; discriminate E.
Qed.

Lemma nelder_mead_returns_best (names : list pname) :
  returns_best (optimize_nelder_mead M scipy fuel names).
Proof. apply (single_phase_returns_best _ names). intros s out s' H. left. exact H. Qed.

Lemma de_returns_best (names : list pname) :
  returns_best (optimize_de M scipy fuel names).
Proof. apply (single_phase_returns_best _ names). intros s out s' H. right. exact H. Qed.

Lemma hybrid_returns_best :
  returns_best
    (let! _ := print (OutPhase 1) in
     let! (params, rms) := optimize_de M scipy fuel [KP; KI; KFF1] in
     let! _ := (fun s =>
                  match params with
                  | None => Some (Exception, s)
                  | Some p =>
                      Some (Normal tt,
                            mkSession (opt s) (apply_params M p (world s)) (console s))
                  end) in
     let! _ := print (OutPhase 2) in
     optimize_nelder_mead M scipy fuel [KP; KI; KD; KFF1; KFF2]).
Proof.
  intros s out s' H Hplain.
  apply pbind_inv in H.
  destruct H as [[u1 [s1 [E1 H]]] | [[E1 _] | [E1 _]]];
    [|unfold print in E1; discriminate E1|unfold print in E1; discriminate E1].
  apply print_normal in E1. destruct E1 as [_ ->].
  assert (Hp1 : plain (console (mkSession (opt s) (world s) (console s ++ [OutPhase 1])))).
  { cbn [console]. apply plain_snoc; [exact Hplain | reflexivity | discriminate]. }
  apply pbind_inv in H.
  destruct H as [[[params rms] [s2 [E2 H]]] | [[E2 ->] | [E2 ->]]].
  - destruct (de_returns_best _ _ _ _ E2 Hp1) as [Hp2 [Hbest _]].
    destruct (Hbest params rms eq_refl) as [Hparams _].
    apply pbind_inv in H.
    destruct H as [[u3 [s3 [E3 H]]] | [[E3 ->] | [E3 ->]]].
    + destruct params as [p|]; [|discriminate E3]. inversion E3; subst s3. clear E3.
      apply pbind_inv in H.
      destruct H as [[u4 [s4 [E4 H]]] | [[E4 _] | [E4 _]]];
        [|unfold print in E4; discriminate E4|unfold print in E4; discriminate E4].
      apply print_normal in E4. destruct E4 as [_ ->]. cbn [opt world console] in H.
      apply (nelder_mead_returns_best _ _ _ _ H).
      cbn [console]. apply plain_snoc; [exact Hp2 | reflexivity | discriminate].
    + destruct params; discriminate E3.
    + destruct params as [p|]; [discriminate E3|]. injection E3 as <-.
      split; [exact Hp2|]. split; [discriminate|]. intros _. symmetry. exact Hparams.
  - destruct (de_returns_best _ _ _ _ E2 Hp1) as [Hp2 _].
    split; [exact Hp2|]. split; discriminate.
  - destruct (de_returns_best _ _ _ _ E2 Hp1) as [Hp2 [_ Hexc]].
    split; [exact Hp2|]. split; [discriminate|]. intros _. apply Hexc. reflexivity.
Qed.

Lemma dispatch_returns_best (choice : string)
  (strategy : Prog W (option ParameterSet * R)) :
  dispatch M scipy fuel choice = Some strategy -> returns_best strategy.
Proof.
  unfold dispatch.
  destruct (choice =? "1")%string;
    [intros H; injection H as <-; apply nelder_mead_returns_best|].
  destruct (choice =? "2")%string; [intros H; injection H as <-; apply de_returns_best|].
  destruct (choice =? "3")%string; [intros H; injection H as <-; apply hybrid_returns_best|].
  destruct (choice =? "4")%string;
    [intros H; injection H as <-; apply nelder_mead_returns_best|].
  destruct (choice =? "5")%string; [intros H; injection H as <-; apply de_returns_best|].
  discriminate.
Qed.

(** How [run] can end, and what the console and the tracker then hold. *)
Lemma run_outcome (choice save : string) (w : W) (out : py unit) (s : Session W) :
  run M scipy fuel choice save (mkSession init w []) = Some (out, s) ->
  match out with
  | Normal _ =>
      ~ In OutError (console s) /\
      (forall p r, In (OutSaved p r) (console s) ->
                   best_params (opt s) = Some p /\ best_rms (opt s) = r /\
                   save <> "n"%string /\
                   exists w0, fst (file_write M hal_file r p w0) = Returns tt) /\
      (forall r b, In (OutComplete None r b) (console s) -> save = "n"%string) /\
      (forall p r b, In (OutComplete (Some p) r b) (console s) ->
                     save = "n"%string \/ In (OutSaved p r) (console s))
  | KeyboardInterrupt => plain (console s)
  | Exception =>
      ~ In OutError (console s) /\
      (forall p r, ~ In (OutSaved p r) (console s)) /\
      (forall p r b, In (OutComplete (Some p) r b) (console s) ->
                     best_params (opt s) = Some p /\ best_rms (opt s) = r)
  end.
Proof.
  unfold run. intros H.
  apply pbind_inv in H.
  destruct H as [[u1 [s1 [E1 H]]] | [[E1 _] | [E1 _]]];
    [|unfold print in E1; discriminate E1|unfold print in E1; discriminate E1].
  apply print_normal in E1. destruct E1 as [_ ->].
  apply pbind_inv in H. cbn [opt world console app] in H.
  destruct (get_current_params M w) as [current w0].
  destruct H as [[c [s2 [E2 H]]] | [[E2 _] | [E2 _]]]; [|discriminate E2|discriminate E2].
  injection E2 as <- <-.
  apply pbind_inv in H.
  destruct H as [[u3 [s3 [E3 H]]] | [[E3 _] | [E3 _]]];
    [|unfold print in E3; discriminate E3|unfold print in E3; discriminate E3].
  apply print_normal in E3. destruct E3 as [_ ->].
  apply pbind_inv in H. unfold obind in H. cbn [opt world console app] in H.
  destruct (evaluate M init fuel current w0) as [[baseline w1]|].
  2: { destruct H as [[b [s4 [E4 _]]] | [[E4 _] | [E4 _]]]; discriminate E4. }
  destruct H as [[b [s4 [E4 H]]] | [[E4 _] | [E4 _]]]; [|discriminate E4|discriminate E4].
  injection E4 as <- <-.
  apply pbind_inv in H.
  destruct H as [[u5 [s5 [E5 H]]] | [[E5 _] | [E5 _]]];
    [|unfold print in E5; discriminate E5|unfold print in E5; discriminate E5].
  apply print_normal in E5. destruct E5 as [_ ->].
  apply pbind_inv in H.
  destruct H as [[u6 [s6 [E6 H]]] | [[E6 _] | [E6 _]]];
    [|unfold print in E6; discriminate E6|unfold print in E6; discriminate E6].
  apply print_normal in E6. destruct E6 as [_ ->]. cbn [opt world console app] in H.
  set (c0 := [OutBanner; OutCurrent current; OutBaseline baseline; OutMenu]) in H.
  assert (Hp0 : plain c0).
  { unfold c0. repeat (constructor; [split; [reflexivity | discriminate]|]). constructor. }
  destruct (choice =? "q")%string.
  { injection H as <- <-. cbn [console].
    split; [apply plain_not_error, Hp0|].
    split; [intros p r Hin; exfalso; apply (plain_not_saved _ p r Hp0 Hin)|].
    split; intros; exfalso; eapply plain_not_complete; eassumption. }
  destruct (dispatch M scipy fuel choice) as [strategy|] eqn:D.
  2: { apply print_normal in H. destruct H as [-> ->]. cbn [console].
       assert (Hp : plain (c0 ++ [OutInvalidChoice]))
         by (apply plain_snoc; [exact Hp0 | reflexivity | discriminate]).
       split; [apply plain_not_error, Hp|].
       split; [intros p r Hin; exfalso; apply (plain_not_saved _ p r Hp Hin)|].
       split; intros; exfalso; eapply plain_not_complete; eassumption. }
  apply dispatch_returns_best in D.
  apply pbind_inv in H.
  destruct H as [[[params rms] [s7 [E7 H]]] | [[E7 ->] | [E7 ->]]].
  - destruct (D _ _ _ E7 Hp0) as [Hp7 [Hbest _]].
    destruct (Hbest params rms eq_refl) as [Hparams Hrms].
    apply pbind_inv in H.
    destruct H as [[u8 [s8 [E8 H]]] | [[E8 _] | [E8 _]]];
      [|unfold print in E8; discriminate E8|unfold print in E8; discriminate E8].
    apply print_normal in E8. destruct E8 as [_ ->].
    apply pbind_inv in H. cbn [opt world console] in H.
    destruct (String.eqb_spec save "n") as [Hsave|Hsave].
    + destruct H as [[u9 [s9 [E9 H]]] | [[E9 _] | [E9 _]]];
        [|discriminate E9|discriminate E9].
      injection E9 as <- <-.
      apply print_normal in H. destruct H as [-> ->]. cbn [opt console].
      split.
      * intros Hin. apply in_app_or in Hin. destruct Hin as [Hin|[Hin|[]]]; [|discriminate].
        apply in_app_or in Hin. destruct Hin as [Hin|[Hin|[]]]; [|discriminate].
        apply (plain_not_error _ Hp7 Hin).
      * split; [|split; [intros r b0 _; exact Hsave | intros p r b0 _; left; exact Hsave]].
        intros p r Hin. exfalso.
        apply in_app_or in Hin. destruct Hin as [Hin|[Hin|[]]]; [|discriminate].
        apply in_app_or in Hin. destruct Hin as [Hin|[Hin|[]]]; [|discriminate].
        apply (plain_not_saved _ p r Hp7 Hin).
    + destruct H as [[u9 [s9 [E9 H]]] | [[E9 ->] | [E9 ->]]].
      * apply save_to_hal_inv in E9. cbn [opt world console] in E9.
        destruct E9 as [[_ [E9 _]] | [p0 [-> [[Hw [_ ->]] | [_ [E9 _]]]]]];
          [discriminate E9 | | discriminate E9].
        apply print_normal in H. destruct H as [-> ->]. cbn [opt console].
        split.
        -- intros Hin. apply in_app_or in Hin. destruct Hin as [Hin|[Hin|[]]]; [|discriminate].
           apply in_app_or in Hin. destruct Hin as [Hin|[Hin|[]]]; [|discriminate].
           apply in_app_or in Hin. destruct Hin as [Hin|[Hin|[]]]; [|discriminate].
           apply (plain_not_error _ Hp7 Hin).
        -- split.
           { intros p r Hin.
             apply in_app_or in Hin. destruct Hin as [Hin|[Hin|[]]]; [|discriminate].
             apply in_app_or in Hin. destruct Hin as [Hin|[Hin|[]]].
             - exfalso.
               apply in_app_or in Hin. destruct Hin as [Hin|[Hin|[]]]; [|discriminate].
               apply (plain_not_saved _ p r Hp7 Hin).
             - injection Hin as <- <-.
               split; [symmetry; exact Hparams|].
               split; [symmetry; exact Hrms|].
               split; [exact Hsave|].
               exists (world s7). exact Hw. }
           split.
           { intros r b0 Hin. exfalso.
             apply in_app_or in Hin. destruct Hin as [Hin|[Hin|[]]]; [|discriminate].
             apply in_app_or in Hin. destruct Hin as [Hin|[Hin|[]]]; [|discriminate].
             apply in_app_or in Hin. destruct Hin as [Hin|[Hin|[]]]; [|discriminate].
             apply (plain_not_complete _ _ _ _ Hp7 Hin). }
           intros p r b0 Hin. right.
           apply in_app_or in Hin. destruct Hin as [Hin|[Hin|[]]]; [|discriminate].
           apply in_app_or in Hin. destruct Hin as [Hin|[Hin|[]]]; [|discriminate].
           apply in_app_or in Hin. destruct Hin as [Hin|[Hin|[]]].
           { exfalso. apply (plain_not_complete _ _ _ _ Hp7 Hin). }
           injection Hin as <- <- <-.
           apply in_or_app. left. apply in_or_app. right. left. reflexivity.
      * exfalso. apply save_to_hal_inv in E9.
        destruct E9 as [[_ [E9 _]] | [p0 [_ [[_ [E9 _]] | [_ [E9 _]]]]]]; discriminate E9.
      * apply save_to_hal_inv in E9. cbn [opt world console] in E9.
        assert (Hc : console s = console s7 ++ [OutComplete params rms baseline]).
        { destruct E9 as [[_ [_ ->]] | [p0 [_ [[_ [E9 _]] | [_ [_ ->]]]]]];
            [reflexivity | discriminate E9 | reflexivity]. }
        assert (Ho : opt s = opt s7).
        { destruct E9 as [[_ [_ ->]] | [p0 [_ [[_ [E9 _]] | [_ [_ ->]]]]]];
            [reflexivity | discriminate E9 | reflexivity]. }
        rewrite Hc, Ho.
        split.
        -- intros Hin. apply in_app_or in Hin. destruct Hin as [Hin|[Hin|[]]]; [|discriminate].
           apply (plain_not_error _ Hp7 Hin).
        -- split.
           { intros p r Hin.
             apply in_app_or in Hin. destruct Hin as [Hin|[Hin|[]]]; [|discriminate].
             apply (plain_not_saved _ p r Hp7 Hin). }
           intros p r b0 Hin.
           apply in_app_or in Hin. destruct Hin as [Hin|[Hin|[]]].
           { exfalso. apply (plain_not_complete _ _ _ _ Hp7 Hin). }
           injection Hin as Hpp <- _. rewrite <- Hparams.
           split; [exact Hpp | symmetry; exact Hrms].
  - apply (D _ _ _ E7 Hp0).
  - destruct (D _ _ _ E7 Hp0) as [Hp7 _].
    split; [apply plain_not_error, Hp7|].
    split; [intros p r; apply plain_not_saved, Hp7|].
    intros p r b0 Hin. exfalso. apply (plain_not_complete _ _ _ _ Hp7 Hin).
Qed.

End Outcomes.

(** *** Runs on the steady machine that complete *)

Lemma pbind_normal {W A B : Type} (m : Prog W A) (k : A -> Prog W B)
  (s s1 : Session W) (a : A) :
  m s = Some (Normal a, s1) -> pbind m k s = k a s1.
Proof. intros H. unfold pbind. rewrite H. reflexivity. Qed.

Lemma steady_nelder_mead_finished (err : R) (s : Session R) :
  0 <= err ->
  leg_timeout (opt s) = 0.635 ->
  exists s' p1 p2 p3,
    optimize_nelder_mead (steady (moving_pins err) INTERP_READING) finishing_scipy 319
      [KP; KI; KFF1] s
    = Some (Normal (best_params (opt s'), best_rms (opt s')), s') /\
    opt s' = record_all (reset (opt s))
               [(p1, err * 1000); (p2, err * 1000); (p3, err * 1000)] /\
    exists header lines, console s' = console s ++ header :: lines.
Proof.
  intros Herr Hleg. unfold optimize_nelder_mead. rewrite steady_current.
  set (x0 := map nominal_proposal [KP; KI; KFF1]).
  set (s0 := mkSession (reset (opt s)) (world s)
               (console s ++ [OutNelderMead [KP; KI; KFF1] x0])).
  assert (Hleg0 : leg_timeout (opt s0) = 0.635) by exact Hleg.
  destruct (steady_objective err INTERP_READING x0 [KP; KI; KFF1] s0 Herr Hleg0)
    as [p1 [s1 [E1 O1]]].
  assert (Hleg1 : leg_timeout (opt s1) = 0.635) by (rewrite O1, leg_timeout_track; exact Hleg0).
  destruct (steady_objective err INTERP_READING x0 [KP; KI; KFF1] s1 Herr Hleg1)
    as [p2 [s2 [E2 O2]]].
  assert (Hleg2 : leg_timeout (opt s2) = 0.635) by (rewrite O2, leg_timeout_track; exact Hleg1).
  destruct (steady_objective err INTERP_READING x0 [KP; KI; KFF1] s2 Herr Hleg2)
    as [p3 [s3 [E3 O3]]].
  exists s3, p1, p2, p3.
  assert (Hloop : scipy_loop (max_calls finishing_scipy) (minimize finishing_scipy x0)
                    (fun x => objective (steady (moving_pins err) INTERP_READING) 319 x
                                [KP; KI; KFF1]) [] s0
                  = Some (Normal tt, s3)).
  { change (max_calls finishing_scipy) with 60%nat.
    change (minimize finishing_scipy x0) with (interrupted_solver x0 3 3).
    cbn [scipy_loop interrupted_solver length Nat.ltb Nat.leb].
    rewrite E1. cbn [obind app length Nat.ltb Nat.leb interrupted_solver scipy_loop].
    rewrite E2. cbn [obind app length Nat.ltb Nat.leb interrupted_solver scipy_loop].
    rewrite E3. cbn [obind app length Nat.ltb Nat.leb interrupted_solver scipy_loop].
    reflexivity. }
  split; [rewrite (pbind_normal _ _ _ _ _ Hloop); reflexivity|].
  split; [rewrite O3, O2, O1; reflexivity|].
  destruct (scipy_loop_calls _ _ _ _ _ _ _ _ _ Hloop) as [done [_ [_ [Hc _]]]].
  unfold s0 in Hc. cbn [console] in Hc. rewrite <- app_assoc in Hc.
  eexists. eexists. exact Hc.
Qed.

Lemma three_equal_costs_best (self : PIDOptimizer) (p1 p2 p3 : ParameterSet) (c : R) :
  best_rms (record_all (reset self) [(p1, c); (p2, c); (p3, c)]) = Rmin 999 c.
Proof.
  rewrite record_all_best, best_rms_reset. unfold least. cbn [map snd fold_left].
  destruct (Rle_dec 999 c).
  - rewrite !(Rmin_left 999 c) by lra. reflexivity.
  - rewrite (Rmin_right 999 c) by lra. rewrite !(Rmin_left c c) by lra. reflexivity.
Qed.

Lemma steady_main_saved :
  exists s p r,
    main (steady (moving_pins 0.05) INTERP_READING) finishing_scipy 319 "1" "y" 0 = Some s /\
    In (OutSaved p r) (console s).
Proof.
  unfold main, run. rewrite pbind_print. cbn [opt world console app].
  unfold pbind at 1. cbn [opt world console]. rewrite steady_current.
  rewrite pbind_print. cbn [opt world console app].
  unfold pbind at 1. cbn [opt world console].
  destruct (steady_moving_evaluate 0.05 INTERP_READING init nominal_proposal 0)
    as [t1 E1]; [lra | exact leg_timeout_init |].
  rewrite E1. cbn [obind].
  rewrite pbind_print. cbn [opt world console app].
  rewrite pbind_print. cbn [opt world console app].
  change (("1" =? "q")%string) with false. cbv iota.
  change (dispatch (steady (moving_pins 0.05) INTERP_READING) finishing_scipy 319 "1")
    with (Some (optimize_nelder_mead (steady (moving_pins 0.05) INTERP_READING)
                  finishing_scipy 319 [KP; KI; KFF1])).
  cbv iota.
  match goal with
  | |- context [pbind _ _ ?s0] =>
      destruct (steady_nelder_mead_finished 0.05 s0) as [s' [p1 [p2 [p3 [E [Ho _]]]]]];
      [lra | exact leg_timeout_init |]
  end.
  rewrite (pbind_normal _ _ _ _ _ E). cbv beta iota.
  destruct (proj2 (record_all_best_params
                     [(p1, 0.05 * 1000); (p2, 0.05 * 1000); (p3, 0.05 * 1000)]
                     (reset init))) as [p [Hp _]].
  { rewrite three_equal_costs_best, best_rms_reset. rewrite Rmin_right; lra. }
  cbn [opt] in Ho. rewrite <- Ho in Hp. rewrite Hp.
  rewrite pbind_print. cbn [opt world console].
  change (("y" =? "n")%string) with false. cbv iota.
  unfold save_to_hal, pbind, print. cbn [file_write steady opt world console].
  eexists. exists p. eexists. split; [reflexivity|].
  cbn [console]. apply in_or_app. left. apply in_or_app. right. left. reflexivity.
Qed.

(** X14: whichever [optimize_*] method runs, it prints its header and then
    one progress line per objective call, at most as many as the library's
    call limit; the lines are numbered 1, 2, ... and the [i]-th shows the
    cost of the [i]-th call and, as best, the least of 999 and the first [i]
    costs; the evaluation counter ends at the number of calls. *)
Theorem progress_lines_count_and_track {W : Type} (M : Machine W) (scipy : Scipy)
  (fuel : nat) (names : list pname) (s : Session W)
  (out : py (option ParameterSet * R)) (s' : Session W) :
  optimize_nelder_mead M scipy fuel names s = Some (out, s') \/
  optimize_de M scipy fuel names s = Some (out, s') ->
  exists header lines costs,
    is_header header = true /\
    console s' = console s ++ header :: lines /\
    length lines = length costs /\
    (length costs <= max_calls scipy)%nat /\
    eval_count (opt s') = length costs /\
    forall i, (i < length costs)%nat ->
              exists x,
                nth i lines OutBanner
                = OutProgress (S i) names x (nth i costs 0)
                    (least 999 (firstn (S i) costs)).
Proof.
  intros H.
  destruct (phase_report M scipy fuel names s out s' H)
    as [header [done [Hh [Hlen [Ho [Hc _]]]]]].
  exists header, (progress_lines (reset (opt s)) names done), (map snd (records_of done)).
  assert (Hl : length (map snd (records_of done)) = length done)
    by (unfold records_of; rewrite !length_map; reflexivity).
  split; [exact Hh|]. split; [exact Hc|].
  split; [rewrite progress_lines_length, Hl; reflexivity|].
  split; [rewrite Hl; exact Hlen|].
  split; [rewrite Ho, record_all_count, Hl; unfold records_of; rewrite length_map;
          reflexivity|].
  intros i Hi. rewrite Hl in Hi. eexists.
  rewrite (progress_lines_nth names done (reset (opt s)) i Hi). reflexivity.
Qed.

Lemma progress_lines_count_and_track_witness :
  exists (s' : Session R) header lines (costs : list R),
    console s' = [] ++ header :: lines /\ length lines = length costs /\
    eval_count (opt s') = length costs.
Proof.
  destruct (steady_nelder_mead_finished 0.05 (mkSession init 0 []))
    as [s' [p1 [p2 [p3 [E _]]]]]; [lra | exact leg_timeout_init |].
  destruct (progress_lines_count_and_track _ _ _ _ _ _ _ (or_introl E))
    as [header [lines [costs [_ [Hc [Hl [_ [He _]]]]]]]].
  exists s', header, lines, costs. split; [exact Hc|]. split; [exact Hl | exact He].
Defined.

(** The calls the library's loop makes, as evaluations. *)
Lemma objective_call {W : Type} (M : Machine W) (fuel : nat) (x : list R)
  (names : list pname) (s : Session W) (rms : R) (s' : Session W) :
  objective M fuel x names s = Some (rms, s') ->
  exists w1,
    evaluate M (opt s) fuel (merged (fst (get_current_params M (world s))) names x)
      (snd (get_current_params M (world s)))
    = Some (rms, w1) /\
    opt s' = track (opt s) (merged (fst (get_current_params M (world s))) names x) rms /\
    console s' = console s
                 ++ progress_lines (opt s) names
                      [(x, merged (fst (get_current_params M (world s))) names x, rms)].
Proof.
  unfold objective, obind, merged.
  destruct (get_current_params M (world s)) as [current w0]. cbn [fst snd].
  destruct (evaluate M (opt s) fuel _ w0) as [[c w1]|] eqn:E; [|discriminate].
  intros H. injection H as <- <-.
  exists w1. cbn [opt console progress_lines]. split; [reflexivity|]. split; reflexivity.
Qed.

Lemma scipy_loop_evaluations {W : Type} (M : Machine W) (fuel : nat)
  (names : list pname) (next : solver) :
  forall calls history (s : Session W) out s',
    scipy_loop calls next (fun x => objective M fuel x names) history s = Some (out, s') ->
    exists done,
      calls_from M fuel names done s s' /\
      opt s' = record_all (opt s) (records_of done) /\
      console s' = console s ++ progress_lines (opt s) names done.
Proof.
  induction calls as [|calls IH]; intros history s out s' H.
  - injection H as <- <-. exists []. rewrite app_nil_r.
    split; [reflexivity|]. split; reflexivity.
  - cbn [scipy_loop] in H. destruct (next history) as [x| |].
    + unfold obind in H.
      destruct (objective M fuel x names s) as [[fx s1]|] eqn:E; [|discriminate].
      destruct (objective_call M fuel x names s fx s1 E) as [w1 [Ev [Ho Hc]]].
      apply IH in H. destruct H as [done [Hcalls [Ho' Hc']]].
      exists ((x, merged (fst (get_current_params M (world s))) names x, fx) :: done).
      split.
      * cbn [calls_from]. exists w1, s1.
        split; [reflexivity|]. split; [exact Ev|]. split; [exact E | exact Hcalls].
      * split; [rewrite Ho', Ho; reflexivity|].
        rewrite Hc', Hc, <- app_assoc, Ho. reflexivity.
    + injection H as <- <-. exists []. rewrite app_nil_r.
      split; [reflexivity|]. split; reflexivity.
    + injection H as <- <-. exists []. rewrite app_nil_r.
      split; [reflexivity|]. split; reflexivity.
Qed.

(** X15: the pair an [optimize_*] method returns is the tracker's state
    after its own reset.  The method prints its header and makes a sequence
    of objective calls, each an evaluation of the current parameters
    overridden by the library's vector, each with its progress line on the
    console; the cost returned is the least of 999 and the costs of these
    evaluations.  If one of them cost less than 999 the parameters returned
    are those of one of these evaluations with that least cost; if none did
    (or none was made) the cost is 999 and the parameters are whatever best
    parameters the optimizer held before the call, left over from an earlier
    search. *)
Theorem strategy_returns_best_since_reset {W : Type} (M : Machine W) (scipy : Scipy)
  (fuel : nat) (names : list pname) (s : Session W)
  (bp : option ParameterSet) (br : R) (s' : Session W) :
  optimize_nelder_mead M scipy fuel names s = Some (Normal (bp, br), s') \/
  optimize_de M scipy fuel names s = Some (Normal (bp, br), s') ->
  exists header s0 calls,
    is_header header = true /\
    opt s0 = reset (opt s) /\
    console s0 = console s ++ [header] /\
    calls_from M fuel names calls s0 s' /\
    console s' = console s0 ++ progress_lines (reset (opt s)) names calls /\
    br = least 999 (map snd (records_of calls)) /\
    ((exists c, In c (map snd (records_of calls)) /\ c < 999) ->
     br < 999 /\ exists p, bp = Some p /\ In (p, br) (records_of calls)) /\
    ((forall c, In c (map snd (records_of calls)) -> 999 <= c) ->
     br = 999 /\ bp = best_params (opt s)).
Proof.
  intros H.
  assert (Hloop : exists header s0 s1 next,
             is_header header = true /\
             opt s0 = reset (opt s) /\
             console s0 = console s ++ [header] /\
             scipy_loop (max_calls scipy) next (fun x => objective M fuel x names) [] s0
             = Some (Normal tt, s1) /\
             s' = s1 /\ bp = best_params (opt s1) /\ br = best_rms (opt s1)).
  { destruct H as [H|H].
    - unfold optimize_nelder_mead in H.
      destruct (get_current_params M (world s)) as [current w0].
      apply pbind_inv in H.
      destruct H as [[[] [s1 [E H]]] | [[_ H] | [_ H]]]; [|discriminate H|discriminate H].
      inversion H; subst.
      eexists. eexists. eexists. eexists.
      split; [|split; [|split; [|split; [exact E|]]]].
      3: cbn [console]; reflexivity.
      1: reflexivity.
      1: reflexivity.
      split; [reflexivity|]. split; reflexivity.
    - unfold optimize_de in H.
      apply pbind_inv in H.
      destruct H as [[[] [s1 [E H]]] | [[_ H] | [_ H]]]; [|discriminate H|discriminate H].
      inversion H; subst.
      eexists. eexists. eexists. eexists.
      split; [|split; [|split; [|split; [exact E|]]]].
      3: cbn [console]; reflexivity.
      1: reflexivity.
      1: reflexivity.
      split; [reflexivity|]. split; reflexivity. }
  destruct Hloop as [header [s0 [s1 [next [Hh [Ho0 [Hc0 [E [-> [-> ->]]]]]]]]]].
  apply scipy_loop_evaluations in E. destruct E as [calls [Hcalls [Ho Hc]]].
  rewrite Ho0 in Ho, Hc.
  exists header, s0, calls.
  split; [exact Hh|]. split; [exact Ho0|]. split; [exact Hc0|].
  split; [exact Hcalls|]. split; [exact Hc|].
  rewrite Ho. split; [rewrite record_all_best; reflexivity|].
  split.
  - intros [c [Hin Hlt]].
    assert (Hlow : best_rms (record_all (reset (opt s)) (records_of calls)) < 999).
    { rewrite record_all_best, best_rms_reset.
      apply Rle_lt_trans with c; [apply least_le_each, Hin | exact Hlt]. }
    split; [exact Hlow|].
    apply record_all_best_params. rewrite best_rms_reset. exact Hlow.
  - intros Hall.
    destruct (record_all_not_lower (records_of calls) (reset (opt s))) as [Hb Hp].
    + intros r Hin. rewrite best_rms_reset. apply Hall. apply in_map, Hin.
    + rewrite Hb, Hp. split; reflexivity.
Qed.

Lemma strategy_returns_best_since_reset_witness :
  exists (s0 s' : Session R) (calls : list (list R * ParameterSet * R)),
    calls_from (steady (moving_pins 1.5) INTERP_READING) 319 [KP; KI; KFF1] calls s0 s' /\
    best_rms (opt s') = least 999 (map snd (records_of calls)) /\
    ((forall c, In c (map snd (records_of calls)) -> 999 <= c) ->
     best_rms (opt s') = 999 /\ best_params (opt s') = None).
Proof.
  destruct (steady_nelder_mead_finished 1.5 (mkSession init 0 []))
    as [s' [p1 [p2 [p3 [E _]]]]]; [lra | exact leg_timeout_init |].
  destruct (strategy_returns_best_since_reset _ _ _ _ _ _ _ _ (or_introl E))
    as [header [s0 [calls [_ [_ [_ [Hcalls [_ [H1 [_ H2]]]]]]]]]].
  exists s0, s', calls. split; [exact Hcalls|]. split; [exact H1 | exact H2].
Defined.

(** X16: a parameter file is written only with the tracker's best pair: if
    the console reports a save of [(p, r)], the optimizer's best parameters
    are [p], its best cost is [r], the operator did not answer "n", and the
    program did not end in an error. *)
Theorem saved_pair_is_tracked_best {W : Type} (M : Machine W) (scipy : Scipy)
  (fuel : nat) (choice save : string) (w : W) (s : Session W)
  (p : ParameterSet) (r : R) :
  main M scipy fuel choice save w = Some s ->
  In (OutSaved p r) (console s) ->
  best_params (opt s) = Some p /\ best_rms (opt s) = r /\
  save <> "n"%string /\ ~ In OutError (console s).
Proof.
  unfold main. intros H Hin.
  destruct (run M scipy fuel choice save (mkSession init w [])) as [[out s0]|] eqn:E;
    [|discriminate H].
  apply run_outcome in E. destruct out as [u| |].
  - injection H as <-. destruct E as [Herr [Hsaved _]].
    destruct (Hsaved p r Hin) as [H1 [H2 [H3 _]]]. repeat split; assumption.
  - injection H as <-. cbn [console] in Hin. exfalso.
    apply in_app_or in Hin. destruct Hin as [Hin|[Hin|[]]]; [|discriminate].
    apply (plain_not_saved _ p r E Hin).
  - injection H as <-. cbn [console] in Hin. exfalso.
    destruct E as [_ [Hns _]].
    apply in_app_or in Hin. destruct Hin as [Hin|[Hin|[]]]; [|discriminate].
    apply (Hns p r Hin).
Qed.

Lemma saved_pair_is_tracked_best_witness :
  exists s p r,
    main (steady (moving_pins 0.05) INTERP_READING) finishing_scipy 319 "1" "y" 0 = Some s /\
    best_params (opt s) = Some p /\ best_rms (opt s) = r.
Proof.
  destruct steady_main_saved as [s [p [r [E Hin]]]].
  destruct (saved_pair_is_tracked_best _ _ _ _ _ _ _ p r E Hin) as [H1 [H2 _]].
  exists s, p, r. split; [exact E|]. split; [exact H1 | exact H2].
Defined.

(** Nothing but the save sees that the tuning file cannot be written. *)
Lemma get_current_params_read_only {W : Type} (M : Machine W) (w : W) :
  get_current_params (read_only M) w = get_current_params M w.
Proof. reflexivity. Qed.

Lemma evaluate_read_only {W : Type} (M : Machine W) (self : PIDOptimizer) (fuel : nat)
  (params : ParameterSet) (w : W) :
  evaluate (read_only M) self fuel params w = evaluate M self fuel params w.
Proof. reflexivity. Qed.

Lemma optimize_nelder_mead_read_only {W : Type} (M : Machine W) (scipy : Scipy)
  (fuel : nat) (names : list pname) (s : Session W) :
  optimize_nelder_mead (read_only M) scipy fuel names s
  = optimize_nelder_mead M scipy fuel names s.
Proof. reflexivity. Qed.

Lemma read_only_main_complete :
  exists s p r b,
    main (read_only (steady (moving_pins 0.05) INTERP_READING)) finishing_scipy 319
      "1" "y" 0 = Some s /\
    In (OutComplete (Some p) r b) (console s).
Proof.
  unfold main, run. rewrite pbind_print. cbn [opt world console app].
  unfold pbind at 1. cbn [opt world console].
  rewrite get_current_params_read_only, steady_current.
  rewrite pbind_print. cbn [opt world console app].
  unfold pbind at 1. cbn [opt world console].
  rewrite evaluate_read_only.
  destruct (steady_moving_evaluate 0.05 INTERP_READING init nominal_proposal 0)
    as [t1 E1]; [lra | exact leg_timeout_init |].
  rewrite E1. cbn [obind].
  rewrite pbind_print. cbn [opt world console app].
  rewrite pbind_print. cbn [opt world console app].
  change (("1" =? "q")%string) with false. cbv iota.
  change (dispatch (read_only (steady (moving_pins 0.05) INTERP_READING))
            finishing_scipy 319 "1")
    with (Some (optimize_nelder_mead (read_only (steady (moving_pins 0.05) INTERP_READING))
                  finishing_scipy 319 [KP; KI; KFF1])).
  cbv iota. unfold pbind at 1. rewrite optimize_nelder_mead_read_only.
  match goal with
  | |- context [optimize_nelder_mead _ _ _ _ ?s0] =>
      destruct (steady_nelder_mead_finished 0.05 s0) as [s' [p1 [p2 [p3 [E [Ho _]]]]]];
      [lra | exact leg_timeout_init |]
  end.
  destruct (proj2 (record_all_best_params
                     [(p1, 0.05 * 1000); (p2, 0.05 * 1000); (p3, 0.05 * 1000)]
                     (reset init))) as [p [Hp _]].
  { rewrite three_equal_costs_best, best_rms_reset. rewrite Rmin_right; lra. }
  cbn [opt] in Ho. rewrite <- Ho in Hp.
  exists (mkSession (opt s') (world s')
            ((console s' ++ [OutComplete (Some p) (best_rms (opt s')) (0.05 * 1000)])
               ++ [OutError])),
    p, (best_rms (opt s')), (0.05 * 1000).
  split.
  - match goal with
    | |- context [optimize_nelder_mead ?M ?sc ?f ?ns ?s0] =>
        replace (optimize_nelder_mead M sc f ns s0)
          with (Some (Normal (Some p, best_rms (opt s')), s'))
          by (rewrite E, Hp; reflexivity)
    end.
    cbv beta iota. rewrite pbind_print. cbn [opt world console].
    change (("y" =? "n")%string) with false. cbv iota.
    unfold save_to_hal, pbind. cbn [file_write read_only opt world console fst snd].
    reflexivity.
  - cbn [console]. apply in_or_app. left. apply in_or_app. right. left. reflexivity.
Qed.

(** X17: how the save can end the program in the error message.  If the
    completion summary shows no parameters and the operator does not answer
    "n" to the save prompt, the program ends with the error message (the
    [KeyError] of [save_to_hal]).  If the summary shows parameters, the
    answer is not "n" and the tuning file cannot be written, the program
    ends with the error message too, while the optimizer still holds those
    parameters and their cost as its best.  And whenever the error message
    is printed, no save was confirmed. *)
Theorem failed_save_ends_in_error {W : Type} (M : Machine W) (scipy : Scipy)
  (fuel : nat) (choice save : string) (w : W) (s : Session W) :
  main M scipy fuel choice save w = Some s ->
  (forall r b, In (OutComplete None r b) (console s) ->
               save <> "n"%string ->
               In OutError (console s)) /\
  ((forall path r p w0, fst (file_write M path r p w0) = Raises) ->
   forall p r b, In (OutComplete (Some p) r b) (console s) ->
                 save <> "n"%string ->
                 In OutError (console s) /\
                 best_params (opt s) = Some p /\ best_rms (opt s) = r) /\
  (In OutError (console s) -> forall p r, ~ In (OutSaved p r) (console s)).
Proof.
  unfold main. intros H.
  destruct (run M scipy fuel choice save (mkSession init w [])) as [[out s0]|] eqn:E;
    [|discriminate H].
  apply run_outcome in E. destruct out as [u| |].
  - injection H as <-. destruct E as [Herr [Hsaved [Hnone Hsome]]].
    split; [|split].
    + intros r b Hin Hsave. exfalso. apply Hsave. apply (Hnone r b Hin).
    + intros Hfail p r b Hin Hsave. exfalso.
      destruct (Hsome p r b Hin) as [Hn | Hs]; [exact (Hsave Hn)|].
      destruct (Hsaved p r Hs) as [_ [_ [_ [w0 Hw]]]].
      rewrite Hfail in Hw. discriminate Hw.
    + intros Hin. contradiction.
  - injection H as <-. cbn [console opt].
    split; [|split].
    + intros r b Hin _. exfalso.
      apply in_app_or in Hin. destruct Hin as [Hin|[Hin|[]]]; [|discriminate].
      apply (plain_not_complete _ _ _ _ E Hin).
    + intros _ p r b Hin _. exfalso.
      apply in_app_or in Hin. destruct Hin as [Hin|[Hin|[]]]; [|discriminate].
      apply (plain_not_complete _ _ _ _ E Hin).
    + intros Hin. exfalso.
      apply in_app_or in Hin. destruct Hin as [Hin|[Hin|[]]]; [|discriminate].
      apply (plain_not_error _ E Hin).
  - injection H as <-. cbn [console opt]. destruct E as [_ [Hns Hsome]].
    split; [|split].
    + intros r b _ _. apply in_or_app. right. left. reflexivity.
    + intros _ p r b Hin _.
      split; [apply in_or_app; right; left; reflexivity|].
      apply in_app_or in Hin. destruct Hin as [Hin|[Hin|[]]]; [|discriminate].
      apply (Hsome p r b Hin).
    + intros _ p r Hin.
      apply in_app_or in Hin. destruct Hin as [Hin|[Hin|[]]]; [|discriminate].
      apply (Hns p r Hin).
Qed.

Lemma failed_save_ends_in_error_witness :
  exists s p,
    main (read_only (steady (moving_pins 0.05) INTERP_READING)) finishing_scipy 319
      "1" "y" 0 = Some s /\
    In OutError (console s) /\
    best_params (opt s) = Some p /\
    forall p' r, ~ In (OutSaved p' r) (console s).
Proof.
  destruct read_only_main_complete as [s [p [r [b [E Hc]]]]].
  destruct (failed_save_ends_in_error _ _ _ _ _ _ _ E) as [_ [H2 H3]].
  destruct (H2 (fun _ _ _ _ => eq_refl) p r b Hc) as [Herr [Hp _]]; [discriminate|].
  exists s, p. split; [exact E|]. split; [exact Herr|].
  split; [exact Hp | exact (H3 Herr)].
Defined.

(** ** Quitting at the menu *)

(** X18: answering "q" at the menu comes after the baseline: by then the
    program has written the parameters it read back to both axes and run one
    evaluation; it prints the banner, the current parameters, the baseline
    and the menu, never calls the library, and leaves the tracker as
    [__init__] set it. *)
Theorem quitting_follows_the_baseline {W : Type} (M : Machine W) (scipy : Scipy)
  (n : nat) (save : string) (w : W) :
  ClockLaws M ->
  leg_timeout init < INR n * 0.002 ->
  10 < INR n * 0.05 ->
  exists baseline w',
    evaluate M init (S n) (fst (get_current_params M w)) (snd (get_current_params M w))
    = Some (baseline, w') /\
    main (logged M) scipy (S n) "q" save (w, [])
    = Some (mkSession init (w', writes_of (fst (get_current_params M w)))
              [OutBanner; OutCurrent (fst (get_current_params M w));
               OutBaseline baseline; OutMenu]).
Proof.
  intros laws Hleg Hwait.
  destruct (evaluate_returns M laws init n (fst (get_current_params M w))
              (snd (get_current_params M w)) Hleg Hwait) as [baseline [w' E]].
  exists baseline, w'. split; [exact E|].
  unfold main, run. rewrite pbind_print. cbn [opt world console app].
  unfold pbind at 1. cbn [opt world console]. rewrite get_current_params_logged.
  rewrite pbind_print. cbn [opt world console app].
  unfold pbind at 1. cbn [opt world console].
  rewrite evaluate_logged, E. cbn [with_log obind app].
  rewrite pbind_print. cbn [opt world console app].
  rewrite pbind_print. cbn [opt world console app].
  reflexivity.
Qed.

Lemma quitting_follows_the_baseline_witness :
  exists baseline t',
    main (logged (steady (moving_pins 0.05) INTERP_READING)) finishing_scipy 319 "q" "y"
      (0, [])
    = Some (mkSession init (t', writes_of nominal_proposal)
              [OutBanner; OutCurrent nominal_proposal; OutBaseline baseline; OutMenu]).
Proof.
  destruct (quitting_follows_the_baseline (steady (moving_pins 0.05) INTERP_READING)
              finishing_scipy 318 "y" 0 (steady_clock_laws _ _)
              fuel_318_covers_leg fuel_318_covers_wait) as [baseline [t' [_ E]]].
  exists baseline, t'. exact E.
Defined.

(** ** The hybrid strategy *)

Lemma record_all_leg_timeout (records : list (ParameterSet * R)) :
  forall self, leg_timeout (record_all self records) = leg_timeout self.
Proof.
  unfold record_all.
  induction records as [|r records IH]; intros self; [reflexivity|].
  cbn [fold_left]. rewrite IH. apply leg_timeout_track.
Qed.

(** X19: in the hybrid strategy the simplex refinement starts from the best
    of the population search.  On a machine whose gain pins read back what
    was written, when the first phase returns best parameters [p], the
    second phase is announced with the starting vector
    [(p P, p I, p D, p FF1, p FF2)], the values just applied to the
    machine. *)
Theorem hybrid_refines_from_global_best {W : Type} (M : Machine W) (scipy : Scipy)
  (n : nat) (s : Session W) (p : ParameterSet) (r : R) (s2 : Session W)
  (strategy : Prog W (option ParameterSet * R)) :
  ClockLaws M ->
  ReadsBack M ->
  leg_timeout init < INR n * 0.002 ->
  10 < INR n * 0.05 ->
  leg_timeout (opt s) = leg_timeout init ->
  dispatch M scipy (S n) "3" = Some strategy ->
  optimize_de M scipy (S n) [KP; KI; KFF1]
    (mkSession (opt s) (world s) (console s ++ [OutPhase 1]))
  = Some (Normal (Some p, r), s2) ->
  exists out s' lines,
    strategy s = Some (out, s') /\
    console s' = console s2 ++ OutPhase 2 :: OutNelderMead all_names (map p all_names)
                                 :: lines.
Proof.
  intros laws reads_back Hleg Hwait Hs D E.
  change (dispatch M scipy (S n) "3")
    with (Some (let! _ := print (OutPhase 1) in
                let! (params, rms) := optimize_de M scipy (S n) [KP; KI; KFF1] in
                let! _ := (fun s =>
                             match params with
                             | None => Some (Exception, s)
                             | Some p =>
                                 Some (Normal tt,
                                       mkSession (opt s) (apply_params M p (world s))
                                         (console s))
                             end) in
                let! _ := print (OutPhase 2) in
                optimize_nelder_mead M scipy (S n) [KP; KI; KD; KFF1; KFF2])) in D.
  injection D as <-.
  rewrite pbind_print, (pbind_normal _ _ _ _ _ E). cbv beta iota.
  unfold pbind at 1. rewrite pbind_print. cbn [opt world console].
  assert (Hs2 : leg_timeout (opt s2) = leg_timeout init).
  { destruct (phase_report M scipy (S n) _ _ _ _ (or_intror E))
      as [header [done [_ [_ [Ho _]]]]].
    cbn [opt] in Ho. rewrite Ho, record_all_leg_timeout. exact Hs. }
  unfold optimize_nelder_mead. cbn [opt world console].
  pose proof (fun k => current_after_apply M p (world s2) k reads_back) as Hcur.
  destruct (get_current_params M (apply_params M p (world s2))) as [current w0].
  cbn [fst] in Hcur.
  replace (map current [KP; KI; KD; KFF1; KFF2]) with (map p all_names)
    by (unfold all_names; apply map_ext; intros k; symmetry; apply Hcur).
  unfold pbind.
  match goal with
  | |- context [scipy_loop ?c ?nx ?f ?h ?s0] =>
      destruct (scipy_loop_returns M n laws Hleg Hwait [KP; KI; KD; KFF1; KFF2] nx c h s0)
        as [out [s' [El _]]]; [exact Hs2|];
      rewrite El;
      destruct (scipy_loop_calls M (S n) _ nx c h s0 out s' El) as [done [_ [_ [Hc _]]]]
  end.
  cbn [console] in Hc. rewrite <- !app_assoc in Hc. cbn [app] in Hc.
  destruct out; eexists; eexists; eexists; (split; [reflexivity | exact Hc]).
Qed.

Lemma plant_clock_laws (err : R) : ClockLaws (plant err).
Proof. split; intros; simpl; lra. Qed.

Lemma plant_reads_back (err : R) : ReadsBack (plant err).
Proof.
  split.
  - intros name v w Hin. cbn. unfold plant_read, stored_read. cbn [find fst snd].
    unfold gain_pins in Hin. simpl In in Hin.
    repeat (destruct Hin as [<- | Hin]; [cbn; reflexivity|]). destruct Hin.
  - intros name name' v w Hin H. cbn. unfold plant_read, stored_read. cbn [find fst snd].
    apply String.eqb_neq in H. rewrite H. reflexivity.
  - intros name name' w. reflexivity.
Qed.

Lemma plant_evaluate (self : PIDOptimizer) (params : ParameterSet)
  (w : R * list (string * R)) :
  leg_timeout self = leg_timeout init ->
  exists w', evaluate (plant 0.05) self 319 params w = Some (50, w').
Proof.
  intros Hleg.
  destruct (evaluate_returns (plant 0.05) (plant_clock_laws _) self 318 params w)
    as [cost [w' E]];
    [rewrite Hleg; exact fuel_318_covers_leg | exact fuel_318_covers_wait |].
  exists w'. rewrite E. do 2 f_equal.
  assert (Hmove : 5 < Rabs 10 + Rabs 10) by (rewrite !Rabs_pos_eq by lra; lra).
  assert (Hpos : 0 < leg_timeout self) by (rewrite Hleg, leg_timeout_init; lra).
  rewrite (evaluate_constant (plant 0.05) 0.05 0 10 10
             (fun _ => eq_refl) (fun _ => eq_refl) (fun _ => eq_refl) (fun _ => eq_refl)
             Hmove self 319%nat params w cost w' Hpos E).
  unfold leg_sample. rewrite Rmult_0_l, Rabs_R0, Rabs_pos_eq by lra.
  rewrite Rmax_left; lra.
Qed.

Lemma plant_de_finds_best (s : Session (R * list (string * R))) :
  leg_timeout (opt s) = leg_timeout init ->
  exists p s2,
    optimize_de (plant 0.05) one_shot_scipy 319 [KP; KI; KFF1] s
    = Some (Normal (Some p, 50), s2).
Proof.
  intros Hleg. unfold optimize_de.
  change (max_calls one_shot_scipy) with 60%nat.
  change (differential_evolution one_shot_scipy (map bounds [KP; KI; KFF1]))
    with (interrupted_solver [120; 60; 1] 1 1).
  unfold pbind.
  cbn [scipy_loop interrupted_solver length Nat.ltb Nat.leb].
  unfold objective at 1. cbn [opt world console].
  destruct (get_current_params (plant 0.05) (world s)) as [current w0].
  match goal with
  | |- context [evaluate _ ?self 319 ?ps w0] =>
      destruct (plant_evaluate self ps w0) as [w1 E]; [exact Hleg|]; rewrite E
  end.
  cbn [obind app length Nat.ltb Nat.leb interrupted_solver scipy_loop].
  unfold track, reset. cbn [best_rms]. rewrite Rltb_true by lra.
  cbn [opt best_params best_rms]. eexists. eexists. reflexivity.
Qed.

Lemma hybrid_refines_from_global_best_witness :
  exists strategy out (s' : Session (R * list (string * R))) p before lines,
    dispatch (plant 0.05) one_shot_scipy 319 "3" = Some strategy /\
    strategy (mkSession init (0, []) []) = Some (out, s') /\
    console s' = before ++ OutPhase 2 :: OutNelderMead all_names (map p all_names)
                             :: lines.
Proof.
  destruct (plant_de_finds_best (mkSession init (0, []) ([] ++ [OutPhase 1])) eq_refl)
    as [p [s2 E]].
  destruct (hybrid_refines_from_global_best (plant 0.05) one_shot_scipy 318
              (mkSession init (0, []) []) p 50 s2 _
              (plant_clock_laws _) (plant_reads_back _)
              fuel_318_covers_leg fuel_318_covers_wait eq_refl eq_refl E)
    as [out [s' [lines [Es Hc]]]].
  eexists. exists out, s', p, (console s2), lines.
  split; [reflexivity|]. split; [exact Es | exact Hc].
Defined.

(** ** An answer the menu does not know *)

(** X20: an answer other than "q" and "1" to "5" is rejected, but only after
    the baseline: the parameters read back are written to both axes and one
    evaluation runs; then the menu and "Invalid choice" are printed, the
    library is never called, nothing is saved, and the tracker is left as
    [__init__] set it. *)
Theorem unknown_choice_is_rejected_after_baseline {W : Type} (M : Machine W)
  (scipy : Scipy) (n : nat) (choice save : string) (w : W) :
  ClockLaws M ->
  leg_timeout init < INR n * 0.002 ->
  10 < INR n * 0.05 ->
  ~ In choice menu_answers ->
  exists baseline w',
    evaluate M init (S n) (fst (get_current_params M w)) (snd (get_current_params M w))
    = Some (baseline, w') /\
    main (logged M) scipy (S n) choice save (w, [])
    = Some (mkSession init (w', writes_of (fst (get_current_params M w)))
              [OutBanner; OutCurrent (fst (get_current_params M w));
               OutBaseline baseline; OutMenu; OutInvalidChoice]).
Proof.
  intros laws Hleg Hwait Hchoice.
  assert (Hne : forall a, In a menu_answers -> (choice =? a)%string = false).
  { intros a Ha. apply String.eqb_neq. intros ->. exact (Hchoice Ha). }
  destruct (evaluate_returns M laws init n (fst (get_current_params M w))
              (snd (get_current_params M w)) Hleg Hwait) as [baseline [w' E]].
  exists baseline, w'. split; [exact E|].
  unfold main, run. rewrite pbind_print. cbn [opt world console app].
  unfold pbind at 1. cbn [opt world console]. rewrite get_current_params_logged.
  rewrite pbind_print. cbn [opt world console app].
  unfold pbind at 1. cbn [opt world console].
  rewrite evaluate_logged, E. cbn [with_log obind app].
  rewrite pbind_print. cbn [opt world console app].
  rewrite pbind_print. cbn [opt world console app].
  unfold dispatch.
  rewrite !Hne by (unfold menu_answers; simpl In; tauto).
  reflexivity.
Qed.

Lemma unknown_choice_is_rejected_after_baseline_witness :
  exists baseline t',
    main (logged (steady (moving_pins 0.05) INTERP_READING)) finishing_scipy 319 "7" "y"
      (0, [])
    = Some (mkSession init (t', writes_of nominal_proposal)
              [OutBanner; OutCurrent nominal_proposal; OutBaseline baseline; OutMenu;
               OutInvalidChoice]).
Proof.
  destruct (unknown_choice_is_rejected_after_baseline
              (steady (moving_pins 0.05) INTERP_READING)
              finishing_scipy 318 "7" "y" 0 (steady_clock_laws _ _)
              fuel_318_covers_leg fuel_318_covers_wait) as [baseline [t' [_ E]]].
  - unfold menu_answers. simpl In. intros H.
    repeat (destruct H as [H|H]; [discriminate H|]). exact H.
  - exists baseline, t'. exact E.
Defined.

(** ** A machine that never gets going *)

Lemma pbind_stays {W A B : Type} (m : Prog W A) (k : A -> Prog W B) :
  stays_without_best m -> (forall a, stays_without_best (k a)) ->
  stays_without_best (pbind m k).
Proof.
  intros Hm Hk s out s' H Hs. apply pbind_inv in H.
  destruct H as [[a [s1 [E H]]] | [[E _] | [E _]]].
  - apply (Hk a s1 out s' H). apply (Hm s _ s1 E Hs).
  - apply (Hm s _ s' E Hs).
  - apply (Hm s _ s' E Hs).
Qed.

Lemma print_stays {W : Type} (line : output) : stays_without_best (@print W line).
Proof. intros s out s' H Hs. unfold print in H. inversion H; subst. exact Hs. Qed.

Lemma pret_stays {W A : Type} (a : A) : stays_without_best (@pret W A a).
Proof. intros s out s' H Hs. unfold pret in H. inversion H; subst. exact Hs. Qed.

Section Quiet.

Context {W : Type} (M : Machine W) (scipy : Scipy) (fuel : nat).
Variables a b : R.
Hypothesis quiet : a + b <= 5.
Hypothesis quiet_x : forall w, Rabs (fst (getp M "pid.x.output" w)) <= a.
Hypothesis quiet_y : forall w, Rabs (fst (getp M "pid.y.output" w)) <= b.

Lemma evaluate_quiet (self : PIDOptimizer) (params : ParameterSet) (w : W)
  (cost : R) (w' : W) :
  evaluate M self fuel params w = Some (cost, w') -> cost = 999.
Proof.
  unfold evaluate, obind. intros H.
  destruct (sample_legs M self fuel params w) as [[batch w1]|] eqn:E; [|discriminate H].
  assert (Hb : Forall (fun _ => False) batch).
  { apply (sample_legs_keeps M (fun _ => False)) with (1 := fun errors w0 =>
      or_introl (collect_step_gate_shut M a b quiet quiet_x quiet_y errors w0)) in E.
    exact E. }
  destruct batch as [|x batch]; [|inversion Hb; contradiction].
  inversion H; subst. unfold batch_cost, SENTINEL. reflexivity.
Qed.

Lemma objective_quiet (x : list R) (names : list pname) (s : Session W)
  (rms : R) (s' : Session W) :
  objective M fuel x names s = Some (rms, s') -> without_best s -> without_best s'.
Proof.
  unfold objective, obind. intros H [Hp Hr].
  destruct (get_current_params M (world s)) as [current w0].
  match type of H with
  | context [evaluate M (opt s) fuel ?p w0] =>
      destruct (evaluate M (opt s) fuel p w0) as [[cost w1]|] eqn:E; [|discriminate H]
  end.
  apply evaluate_quiet in E. subst cost. inversion H; subst.
  unfold without_best, track. cbn [opt].
  rewrite Rltb_false by lra. cbn [best_params best_rms]. split; assumption.
Qed.

Lemma scipy_loop_quiet (names : list pname) (next : solver) :
  forall calls history,
    stays_without_best
      (scipy_loop calls next (fun x => objective M fuel x names) history).
Proof.
  induction calls as [|calls IH]; intros history s out s' H Hs.
  - inversion H; subst. exact Hs.
  - cbn [scipy_loop] in H. destruct (next history) as [x| |].
    + unfold obind in H.
      destruct (objective M fuel x names s) as [[fx s1]|] eqn:E; [|discriminate H].
      apply (IH _ s1 out s' H). apply (objective_quiet _ _ _ _ _ E Hs).
    + inversion H; subst. exact Hs.
    + inversion H; subst. exact Hs.
Qed.

Lemma optimize_nelder_mead_quiet (names : list pname) :
  stays_without_best (optimize_nelder_mead M scipy fuel names).
Proof.
  intros s out s' H [Hp Hr]. unfold optimize_nelder_mead in H.
  destruct (get_current_params M (world s)) as [current w0].
  apply pbind_inv in H.
  assert (H0 : forall (w1 : W) c, without_best (mkSession (reset (opt s)) w1 c)).
  { intros w1 c. unfold without_best, reset. cbn [opt best_params best_rms].
    split; [exact Hp | reflexivity]. }
  destruct H as [[u [s1 [E H]]] | [[E _] | [E _]]].
  - inversion H; subst. apply (scipy_loop_quiet _ _ _ _ _ _ _ E (H0 _ _)).
  - apply (scipy_loop_quiet _ _ _ _ _ _ _ E (H0 _ _)).
  - apply (scipy_loop_quiet _ _ _ _ _ _ _ E (H0 _ _)).
Qed.

Lemma optimize_de_quiet (names : list pname) :
  stays_without_best (optimize_de M scipy fuel names).
Proof.
  intros s out s' H [Hp Hr]. unfold optimize_de in H.
  apply pbind_inv in H.
  assert (H0 : forall (w1 : W) c, without_best (mkSession (reset (opt s)) w1 c)).
  { intros w1 c. unfold without_best, reset. cbn [opt best_params best_rms].
    split; [exact Hp | reflexivity]. }
  destruct H as [[u [s1 [E H]]] | [[E _] | [E _]]].
  - inversion H; subst. apply (scipy_loop_quiet _ _ _ _ _ _ _ E (H0 _ _)).
  - apply (scipy_loop_quiet _ _ _ _ _ _ _ E (H0 _ _)).
  - apply (scipy_loop_quiet _ _ _ _ _ _ _ E (H0 _ _)).
Qed.

Lemma dispatch_quiet (choice : string) (strategy : Prog W (option ParameterSet * R)) :
  dispatch M scipy fuel choice = Some strategy -> stays_without_best strategy.
Proof.
  unfold dispatch.
  destruct (choice =? "1")%string;
    [intros H; injection H as <-; apply optimize_nelder_mead_quiet|].
  destruct (choice =? "2")%string;
    [intros H; injection H as <-; apply optimize_de_quiet|].
  destruct (choice =? "3")%string.
  { intros H; injection H as <-.
    apply pbind_stays; [apply print_stays|]. intros _.
    apply pbind_stays; [apply optimize_de_quiet|]. intros [params rms].
    apply pbind_stays.
    { intros s out s' H Hs. destruct params; inversion H; subst; exact Hs. }
    intros _. apply pbind_stays; [apply print_stays|]. intros _.
    apply optimize_nelder_mead_quiet. }
  destruct (choice =? "4")%string;
    [intros H; injection H as <-; apply optimize_nelder_mead_quiet|].
  destruct (choice =? "5")%string;
    [intros H; injection H as <-; apply optimize_de_quiet|].
  discriminate.
Qed.

Lemma run_quiet (choice save : string) :
  stays_without_best (run M scipy fuel choice save).
Proof.
  unfold run.
  apply pbind_stays; [apply print_stays|]. intros _.
  apply pbind_stays.
  { intros s out s' H Hs. destruct (get_current_params M (world s)) as [current w0].
    inversion H; subst. exact Hs. }
  intros current.
  apply pbind_stays; [apply print_stays|]. intros _.
  apply pbind_stays.
  { intros s out s' H Hs. unfold obind in H.
    destruct (evaluate M (opt s) fuel current (world s)) as [[rms w1]|]; [|discriminate H].
    inversion H; subst. exact Hs. }
  intros baseline.
  apply pbind_stays; [apply print_stays|]. intros _.
  apply pbind_stays; [apply print_stays|]. intros _.
  destruct (choice =? "q")%string; [apply pret_stays|].
  destruct (dispatch M scipy fuel choice) as [strategy|] eqn:D; [|apply print_stays].
  apply pbind_stays; [apply (dispatch_quiet choice strategy D)|]. intros [params rms].
  apply pbind_stays; [apply print_stays|]. intros _.
  apply pbind_stays; [|intros _; apply print_stays].
  destruct (save =? "n")%string; [apply pret_stays|].
  intros s out s' H Hs. apply save_to_hal_inv in H.
  destruct H as [[_ [_ ->]] | [p [_ [[_ [_ ->]] | [_ [_ ->]]]]]]; exact Hs.
Qed.

End Quiet.

(** X21: a machine whose commanded outputs never exceed 5 in sum gives the
    program nothing to tune on.  Whatever the library proposes and whatever
    the operator answers, the program returns with no best parameters
    recorded, a best cost still at 999, and nothing saved. *)
Theorem quiet_machine_saves_nothing {W : Type} (M : Machine W) (scipy : Scipy)
  (n : nat) (choice save : string) (w : W) (a b : R) :
  ClockLaws M ->
  leg_timeout init < INR n * 0.002 ->
  10 < INR n * 0.05 ->
  a + b <= 5 ->
  (forall w0, Rabs (fst (getp M "pid.x.output" w0)) <= a) ->
  (forall w0, Rabs (fst (getp M "pid.y.output" w0)) <= b) ->
  exists s,
    main M scipy (S n) choice save w = Some s /\
    best_params (opt s) = None /\
    best_rms (opt s) = 999 /\
    forall p r, ~ In (OutSaved p r) (console s).
Proof.
  intros laws Hleg Hwait Hab Hx Hy. unfold main.
  destruct (run_keeps M scipy n laws Hleg Hwait choice save (mkSession init w []) eq_refl)
    as [out [s [E _]]].
  rewrite E.
  assert (Hinit : without_best (mkSession init w [])).
  { unfold without_best, init. cbn [opt best_params best_rms]. split; reflexivity. }
  pose proof (run_quiet M scipy (S n) a b Hab Hx Hy choice save _ _ _ E Hinit) as [Hp Hr].
  pose proof (run_outcome M scipy (S n) choice save w out s E) as Ho.
  assert (Hbest : best_rms (opt s) = 999) by exact Hr.
  destruct out as [u| |]; eexists; (split; [reflexivity|]); cbn [opt console];
    (split; [exact Hp|]); (split; [exact Hbest|]); intros p r Hin.
  - destruct Ho as [_ [Hs _]]. destruct (Hs p r Hin) as [Hsome _]. congruence.
  - apply in_app_or in Hin. destruct Hin as [Hin|[Hin|[]]]; [|discriminate].
    apply (plain_not_saved _ _ _ Ho Hin).
  - destruct Ho as [_ [Hs _]].
    apply in_app_or in Hin. destruct Hin as [Hin|[Hin|[]]]; [|discriminate].
    apply (Hs p r Hin).
Qed.

Lemma quiet_machine_saves_nothing_witness :
  exists s,
    main (steady (resting_pins 0.3) INTERP_READING) finishing_scipy 319 "1" "y" 0 = Some s /\
    best_params (opt s) = None /\
    best_rms (opt s) = 999 /\
    forall p r, ~ In (OutSaved p r) (console s).
Proof.
  apply (quiet_machine_saves_nothing (steady (resting_pins 0.3) INTERP_READING)
           finishing_scipy 318 "1" "y" 0 2 2 (steady_clock_laws _ _)
           fuel_318_covers_leg fuel_318_covers_wait).
  - lra.
  - intros w0. change (Rabs 2 <= 2). rewrite Rabs_pos_eq; lra.
  - intros w0. change (Rabs 2 <= 2). rewrite Rabs_pos_eq; lra.
Defined.
